(** * picocom: the terminal loop, the baud walker and the filename prompt

    A shallow embedding of [picocom.c] and of what it promises.

    - C [int]s are integers of [Z] with the 32-bit two's complement
      wrap-around written out ([wrap_int]); [unsigned int]s wrap modulo
      2^32 ([wrap_uint]); the [long] fields of a [timeval] are plain [Z].
    - [unsigned char]s are [ascii], byte strings are [string].
    - An array is a memory indexed from its first element ([mem]); a store
      past the end of the array is a store at an index at or beyond its
      size.
    - The kernel, libc and the tty library are an environment ([env]) that
      holds, for one pass of the loop, the result of every call the program
      makes; the program's effects are the bytes written to the terminal
      ([sto]) and to the port ([port_out]) and a trace of its calls.
    - A function that waits for input is a function of the reads at hand
      and answers [None] or [Blocked] when they are used up. *)

From Stdlib Require Import ZArith List String Ascii Bool Lia.
From Stdlib Require DecimalString HexadecimalString DecimalFacts DecimalN.
Import ListNotations.

Local Open Scope string_scope.
Local Open Scope Z_scope.

(** ** Machine integers *)

(** [int] is 32 bits wide, two's complement. *)
Definition wrap_int (z : Z) : Z := (z + 2147483648) mod 4294967296 - 2147483648.

(** [unsigned int] is 32 bits wide. *)
Definition wrap_uint (z : Z) : Z := z mod 4294967296.

Definition INT_MIN : Z := -2147483648.
Definition INT_MAX : Z := 2147483647.

(** ** Bytes and byte strings *)

Definition NUL : ascii := "000"%char.
Definition BEL : ascii := "007"%char.
Definition BS : ascii := "008"%char.
Definition LF : ascii := "010"%char.
Definition CR : ascii := "013"%char.
Definition ESC : ascii := "027"%char.
Definition SP : ascii := " "%char.

Definition str1 (c : ascii) : string := String c EmptyString.
Definition CRLF : string := String CR (String LF EmptyString).

(** The key bindings, [#define KEY_...]. *)
Definition KEY_EXIT : ascii := "024"%char.
Definition KEY_QUIT : ascii := "017"%char.
Definition KEY_PULSE : ascii := "016"%char.
Definition KEY_TOGGLE : ascii := "020"%char.
Definition KEY_BAUD_UP : ascii := "021"%char.
Definition KEY_BAUD_DN : ascii := "004"%char.
Definition KEY_FLOW : ascii := "006"%char.
Definition KEY_PARITY : ascii := "025"%char.
Definition KEY_BITS : ascii := "002"%char.
Definition KEY_STATUS : ascii := "022"%char.
Definition KEY_SEND : ascii := "019"%char.
Definition KEY_RECEIVE : ascii := "018"%char.
Definition KEY_BREAK : ascii := "028"%char.
Definition KEY_TIMESTAMP : ascii := "009"%char.

(** ** printf conversions *)

Fixpoint zeros (n : nat) : string :=
  match n with
  | O => EmptyString
  | S n' => String "0" (zeros n')
  end.

Definition digits (z : Z) : string :=
  DecimalString.NilZero.string_of_uint (N.to_uint (Z.abs_N z)).

(** [%0wd] on an [int]; [w = 0] is plain [%d]. *)
Definition fmt_d (w : nat) (z : Z) : string :=
  let ds := digits z in
  if z <? 0
  then String "-" (zeros (w - 1 - String.length ds) ++ ds)
  else zeros (w - String.length ds) ++ ds.

(** [%x] on an [unsigned int]. *)
Definition fmt_x (z : Z) : string :=
  HexadecimalString.NilZero.string_of_uint (N.to_hex_uint (Z.to_N (wrap_uint z))).

(** [strstr(hay, needle) != NULL]. *)
Fixpoint contains (needle hay : string) : bool :=
  String.prefix needle hay ||
  match hay with
  | EmptyString => false
  | String _ hay' => contains needle hay'
  end.

(** ** The baud walker and the option cycles *)

Definition baud_up (baud : Z) : Z :=
  let baud :=
    if baud <? 300 then 300
    else if baud =? 38400 then 57600
    else wrap_int (baud * 2) in
  if baud >? 115200 then 115200 else baud.

Definition baud_down (baud : Z) : Z :=
  let baud :=
    if baud >? 115200 then 115200
    else if baud =? 57600 then 38400
    else Z.quot baud 2 in
  if baud <? 300 then 300 else baud.

(** Modelled from the spec: [enum flowcntrl_e] of term.h, which is not part
    of the sources at hand; the spec names None, RtsCts and XonXoff.  The
    last constructor stands for any other [int] that reaches [flow_next]. *)
Inductive flowcntrl_e := FC_NONE | FC_RTSCTS | FC_XONXOFF | FC_other (v : Z).

(** Modelled from the spec: [enum parity_e] of term.h, with None, Even and
    Odd; the last constructor stands for any other [int]. *)
Inductive parity_e := P_NONE | P_EVEN | P_ODD | P_other (v : Z).

(** [flow_next] returns the new mode and stores its name through the
    pointer: the pair is (return value, [*flow_str]). *)
Definition flow_next (flow : flowcntrl_e) : flowcntrl_e * string :=
  match flow with
  | FC_NONE => (FC_RTSCTS, "RTS/CTS")
  | FC_RTSCTS => (FC_XONXOFF, "xon/xoff")
  | FC_XONXOFF => (FC_NONE, "none")
  | FC_other _ => (FC_NONE, "none")
  end.

Definition parity_next (parity : parity_e) : parity_e * string :=
  match parity with
  | P_NONE => (P_EVEN, "even")
  | P_EVEN => (P_ODD, "odd")
  | P_ODD => (P_NONE, "none")
  | P_other _ => (P_NONE, "none")
  end.

Definition bits_next (bits : Z) : Z :=
  let bits := wrap_int (bits + 1) in
  if bits >? 8 then 5 else bits.

(** The allowed ladder of the session's [baud]. *)
Definition baud_ladder : list Z :=
  [300; 600; 1200; 2400; 4800; 9600; 19200; 38400; 57600; 115200].

(** ** Memory *)

(** An array is seen from its first element: index [i] is the byte at
    [array + i].  The array proper is the indices below its size; what lies
    at and beyond the size is the memory that follows it. *)
Definition mem : Type := Z -> ascii.

Definition upd (m : mem) (i : Z) (c : ascii) : mem :=
  fun j => if j =? i then c else m j.

Definition zero_mem : mem := fun _ => NUL.

(** The [n] bytes at [from], [from + 1], ... *)
Fixpoint load (m : mem) (from : Z) (n : nat) : string :=
  match n with
  | O => EmptyString
  | S n' => String (m from) (load m (from + 1) n')
  end.

(** The C string at [from]: the bytes before the first NUL, looking at no
    more than [n] bytes. *)
Fixpoint c_str (m : mem) (from : Z) (n : nat) : string :=
  match n with
  | O => EmptyString
  | S n' =>
      if (m from =? NUL)%char then EmptyString
      else String (m from) (c_str m (from + 1) n')
  end.

(** [memcpy(dst, src, n)] inside one array is the C library's.  ISO C
    says what it does only when the two regions do not overlap: the [n]
    bytes at [src] are then found at [dst] and nothing else has changed.
    When they overlap the behaviour is undefined, and what is found
    afterwards depends on the library at hand. *)
Definition memcpy_t : Type := mem -> Z -> Z -> nat -> mem.

Definition memcpy_conforms (memcpy : memcpy_t) : Prop :=
  forall (m : mem) (dst src : Z) (n : nat),
    dst + Z.of_nat n <= src \/ src + Z.of_nat n <= dst ->
    (forall i, 0 <= i < Z.of_nat n ->
       memcpy m dst src n (dst + i) = m (src + i))
    /\ (forall j, j < dst \/ dst + Z.of_nat n <= j ->
          memcpy m dst src n j = m j).

(** Two libraries: one copies byte by byte from the lowest address up, the
    other from the highest address down. *)
Fixpoint memcpy_ascending (m : mem) (dst src : Z) (n : nat) : mem :=
  match n with
  | O => m
  | S n' => memcpy_ascending (upd m dst (m src)) (dst + 1) (src + 1) n'
  end.

Fixpoint memcpy_descending (m : mem) (dst src : Z) (n : nat) : mem :=
  match n with
  | O => m
  | S n' =>
      memcpy_descending
        (upd m (dst + Z.of_nat n') (m (src + Z.of_nat n'))) dst src n'
  end.

(** ** System calls as seen by the program *)

(** [read(fd, &c, 1)]: one byte (returns 1), end of file (returns 0), or a
    failure (returns -1) that leaves [e] in [errno]. *)
Inductive read_result := RdByte (c : ascii) | RdEof | RdErr (e : Z).

(** [write(fd, buf, n)]: the count written, or a failure with its [errno]. *)
Inductive write_result := WrOk (n : Z) | WrErr (e : Z).

(** The values of <errno.h> on Linux. *)
Definition EINTR : Z := 4.
Definition EAGAIN : Z := 11.
Definition EWOULDBLOCK : Z := 11.

(** ** fd_readline *)

(** [rl_bp] is [bp - b], [rl_b] the caller's buffer and [rl_fdo] what has
    been written to [fdo]. *)
Record rl_state := { rl_bp : Z; rl_b : mem; rl_fdo : string }.

(** [cput(fd, c)] writes the first byte of the [int] copy of [c], which is
    [c] itself on a little-endian machine. *)
Definition cput (c : ascii) (s : rl_state) : rl_state :=
  {| rl_bp := rl_bp s; rl_b := rl_b s; rl_fdo := rl_fdo s ++ str1 c |}.

Inductive rl_next := RlLoop (s : rl_state) | RlOut (r : Z) (s : rl_state).

(** The [switch (c)] of [fd_readline]; [bpe] is [b + bsz - 1]. *)
Definition fd_readline_switch (bsz : Z) (c : ascii) (s : rl_state) : rl_next :=
  if (c =? BS)%char then
    if rl_bp s >? 0 then
      RlLoop (cput c (cput SP (cput c
        {| rl_bp := rl_bp s - 1; rl_b := rl_b s; rl_fdo := rl_fdo s |})))
    else RlLoop (cput BEL s)
  else if (c =? CR)%char then
    RlOut (rl_bp s)
      {| rl_bp := rl_bp s; rl_b := upd (rl_b s) (rl_bp s) NUL; rl_fdo := rl_fdo s |}
  else
    if rl_bp s <? bsz - 1 then
      RlLoop (cput c
        {| rl_bp := rl_bp s + 1; rl_b := upd (rl_b s) (rl_bp s) c; rl_fdo := rl_fdo s |})
    else RlLoop (cput BEL s).

(** What [fd_readline] leaves behind: its return value, the buffer and the
    echo, [errno], and the reads it has not consumed. *)
Record rl_result := {
  rl_r : Z;
  rl_end : rl_state;
  rl_errno : Z;
  rl_rest : list read_result
}.

(** The [while (1)] of [fd_readline] over the results of its successive
    reads.  [None]: the reads at hand are used up and the function is still
    waiting in [read]. *)
Fixpoint fd_readline_from (fdi : list read_result) (bsz : Z) (errno : Z)
    (s : rl_state) : option rl_result :=
  match fdi with
  | [] => None
  | RdEof :: rest =>
      Some {| rl_r := 0 - 1; rl_end := s; rl_errno := errno; rl_rest := rest |}
  | RdErr e :: rest =>
      Some {| rl_r := -1 - 1; rl_end := s; rl_errno := e; rl_rest := rest |}
  | RdByte c :: rest =>
      match fd_readline_switch bsz c s with
      | RlLoop s' => fd_readline_from rest bsz errno s'
      | RlOut r s' =>
          Some {| rl_r := r; rl_end := s'; rl_errno := errno; rl_rest := rest |}
      end
  end.

Definition fd_readline (fdi : list read_result) (fdo : string) (b : mem)
    (bsz : Z) (errno : Z) : option rl_result :=
  fd_readline_from fdi bsz errno {| rl_bp := 0; rl_b := b; rl_fdo := fdo |}.

(** ** run_cmd: the command line the child builds *)

(** The [while] over the variadic arguments; [cmd] is what has been copied so
    far, [ce] is [cmd + sizeof(cmd) - 1] with [char cmd[512]]. *)
Fixpoint build_cmd (args : list string) (cmd : string) : string :=
  match args with
  | [] => cmd
  | s :: rest =>
      if Z.of_nat (String.length cmd) + Z.of_nat (String.length s) + 1 >=? 511
      then cmd
      else build_cmd rest (cmd ++ s ++ " ")
  end.

(** ** The session: options, queue, loop variables *)

Record opts_t := {
  port : string;
  baud : Z;
  flow : flowcntrl_e;
  flow_str : string;
  parity : parity_e;
  parity_str : string;
  databits : Z;
  noinit : Z;
  noreset : Z;
  nolock : Z;
  escape : ascii;
  send_cmd : string;
  receive_cmd : string
}.

(** The initialiser of [opts]. *)
Definition opts_init : opts_t := {|
  port := "";
  baud := 115200;
  flow := FC_NONE;
  flow_str := "none";
  parity := P_NONE;
  parity_str := "none";
  databits := 8;
  noinit := 0;
  noreset := 0;
  nolock := 0;
  escape := "001"%char;
  send_cmd := "ascii_xfr -s -v -l10";
  receive_cmd := "rz -vv"
|}.

Definition TTY_Q_SZ : Z := 256.

(** [struct tty_q]: [buff] is the memory at [tty_q.buff]; the array is the
    indices [0 .. TTY_Q_SZ - 1]. *)
Record tty_q_t := { len : Z; buff : mem }.

Definition TTY_TIME_RESET : Z := 2.
Definition TTY_TIME_DISPLAY : Z := 1.
Definition TTY_TIME_NONE : Z := 0.

Record timeval := { tv_sec : Z; tv_usec : Z }.

Inductive loop_state := ST_COMMAND | ST_TRANSPARENT.

(** The file descriptors the program handles. *)
Inductive fd_t := STI | STO | tty_fd.

(** Modelled from the spec: the calls into the tty driver abstraction
    (term.h and term.c are not part of the sources at hand).  Each
    constructor is one call with its arguments; what the call returns is the
    environment's to say. *)
Inductive term_call :=
| term_set_hupcl (fd : fd_t) (on : Z)
| term_flush (fd : fd_t)
| term_apply (fd : fd_t)
| term_erase (fd : fd_t)
| term_reset (fd : fd_t)
| term_pulse_dtr (fd : fd_t)
| term_lower_dtr (fd : fd_t)
| term_raise_dtr (fd : fd_t)
| term_set_baudrate (fd : fd_t) (b : Z)
| term_set_flowcntrl (fd : fd_t) (f : flowcntrl_e)
| term_set_parity (fd : fd_t) (p : parity_e)
| term_set_databits (fd : fd_t) (n : Z)
| term_break (fd : fd_t).

(** What the program does to the outside, apart from the bytes it writes:
    calls into the tty library, calls of [run_cmd] with their string
    arguments, and the command line the forked child hands to [system]. *)
Inductive event :=
| EvTerm (c : term_call)
| EvRunCmd (args : list string)
| EvSystem (cmd : string).

(** The globals ([opts], [tty_q], [tty_time], [tty_time_enable], [errno]),
    the variables of [loop] that live across iterations, and what has been
    written so far: [sto] to the controlling terminal, [port_out] to the
    serial port, [trace] the calls above. *)
Record machine := {
  opts : opts_t;
  tty_q : tty_q_t;
  tty_time : Z;
  tty_time_enable : Z;
  state : loop_state;
  dtr_up : Z;
  tv_ref : timeval;
  fname : mem;
  errno : Z;
  sto : string;
  port_out : string;
  trace : list event
}.

Definition with_opts (m : machine) (v : opts_t) : machine :=
  {| opts := v; tty_q := tty_q m; tty_time := tty_time m;
     tty_time_enable := tty_time_enable m; state := state m;
     dtr_up := dtr_up m; tv_ref := tv_ref m; fname := fname m;
     errno := errno m; sto := sto m; port_out := port_out m;
     trace := trace m |}.

Definition with_tty_q (m : machine) (v : tty_q_t) : machine :=
  {| opts := opts m; tty_q := v; tty_time := tty_time m;
     tty_time_enable := tty_time_enable m; state := state m;
     dtr_up := dtr_up m; tv_ref := tv_ref m; fname := fname m;
     errno := errno m; sto := sto m; port_out := port_out m;
     trace := trace m |}.

Definition with_tty_time (m : machine) (v : Z) : machine :=
  {| opts := opts m; tty_q := tty_q m; tty_time := v;
     tty_time_enable := tty_time_enable m; state := state m;
     dtr_up := dtr_up m; tv_ref := tv_ref m; fname := fname m;
     errno := errno m; sto := sto m; port_out := port_out m;
     trace := trace m |}.

Definition with_tty_time_enable (m : machine) (v : Z) : machine :=
  {| opts := opts m; tty_q := tty_q m; tty_time := tty_time m;
     tty_time_enable := v; state := state m;
     dtr_up := dtr_up m; tv_ref := tv_ref m; fname := fname m;
     errno := errno m; sto := sto m; port_out := port_out m;
     trace := trace m |}.

Definition with_state (m : machine) (v : loop_state) : machine :=
  {| opts := opts m; tty_q := tty_q m; tty_time := tty_time m;
     tty_time_enable := tty_time_enable m; state := v;
     dtr_up := dtr_up m; tv_ref := tv_ref m; fname := fname m;
     errno := errno m; sto := sto m; port_out := port_out m;
     trace := trace m |}.

Definition with_dtr_up (m : machine) (v : Z) : machine :=
  {| opts := opts m; tty_q := tty_q m; tty_time := tty_time m;
     tty_time_enable := tty_time_enable m; state := state m;
     dtr_up := v; tv_ref := tv_ref m; fname := fname m;
     errno := errno m; sto := sto m; port_out := port_out m;
     trace := trace m |}.

Definition with_tv_ref (m : machine) (v : timeval) : machine :=
  {| opts := opts m; tty_q := tty_q m; tty_time := tty_time m;
     tty_time_enable := tty_time_enable m; state := state m;
     dtr_up := dtr_up m; tv_ref := v; fname := fname m;
     errno := errno m; sto := sto m; port_out := port_out m;
     trace := trace m |}.

Definition with_fname (m : machine) (v : mem) : machine :=
  {| opts := opts m; tty_q := tty_q m; tty_time := tty_time m;
     tty_time_enable := tty_time_enable m; state := state m;
     dtr_up := dtr_up m; tv_ref := tv_ref m; fname := v;
     errno := errno m; sto := sto m; port_out := port_out m;
     trace := trace m |}.

Definition with_errno (m : machine) (v : Z) : machine :=
  {| opts := opts m; tty_q := tty_q m; tty_time := tty_time m;
     tty_time_enable := tty_time_enable m; state := state m;
     dtr_up := dtr_up m; tv_ref := tv_ref m; fname := fname m;
     errno := v; sto := sto m; port_out := port_out m;
     trace := trace m |}.

Definition with_sto (m : machine) (v : string) : machine :=
  {| opts := opts m; tty_q := tty_q m; tty_time := tty_time m;
     tty_time_enable := tty_time_enable m; state := state m;
     dtr_up := dtr_up m; tv_ref := tv_ref m; fname := fname m;
     errno := errno m; sto := v; port_out := port_out m;
     trace := trace m |}.

Definition with_port_out (m : machine) (v : string) : machine :=
  {| opts := opts m; tty_q := tty_q m; tty_time := tty_time m;
     tty_time_enable := tty_time_enable m; state := state m;
     dtr_up := dtr_up m; tv_ref := tv_ref m; fname := fname m;
     errno := errno m; sto := sto m; port_out := v;
     trace := trace m |}.

Definition with_trace (m : machine) (v : list event) : machine :=
  {| opts := opts m; tty_q := tty_q m; tty_time := tty_time m;
     tty_time_enable := tty_time_enable m; state := state m;
     dtr_up := dtr_up m; tv_ref := tv_ref m; fname := fname m;
     errno := errno m; sto := sto m; port_out := port_out m;
     trace := v |}.

Definition with_baud (o : opts_t) (v : Z) : opts_t :=
  {| port := port o; baud := v; flow := flow o; flow_str := flow_str o;
     parity := parity o; parity_str := parity_str o; databits := databits o;
     noinit := noinit o; noreset := noreset o; nolock := nolock o;
     escape := escape o; send_cmd := send_cmd o;
     receive_cmd := receive_cmd o |}.

Definition with_flow (o : opts_t) (v : flowcntrl_e) (s : string) : opts_t :=
  {| port := port o; baud := baud o; flow := v; flow_str := s;
     parity := parity o; parity_str := parity_str o; databits := databits o;
     noinit := noinit o; noreset := noreset o; nolock := nolock o;
     escape := escape o; send_cmd := send_cmd o;
     receive_cmd := receive_cmd o |}.

Definition with_parity (o : opts_t) (v : parity_e) (s : string) : opts_t :=
  {| port := port o; baud := baud o; flow := flow o; flow_str := flow_str o;
     parity := v; parity_str := s; databits := databits o;
     noinit := noinit o; noreset := noreset o; nolock := nolock o;
     escape := escape o; send_cmd := send_cmd o;
     receive_cmd := receive_cmd o |}.

Definition with_databits (o : opts_t) (v : Z) : opts_t :=
  {| port := port o; baud := baud o; flow := flow o; flow_str := flow_str o;
     parity := parity o; parity_str := parity_str o; databits := v;
     noinit := noinit o; noreset := noreset o; nolock := nolock o;
     escape := escape o; send_cmd := send_cmd o;
     receive_cmd := receive_cmd o |}.

Definition with_escape (o : opts_t) (v : ascii) : opts_t :=
  {| port := port o; baud := baud o; flow := flow o; flow_str := flow_str o;
     parity := parity o; parity_str := parity_str o; databits := databits o;
     noinit := noinit o; noreset := noreset o; nolock := nolock o;
     escape := v; send_cmd := send_cmd o;
     receive_cmd := receive_cmd o |}.

(** The program as it stands when [main] starts: the initialisers of the
    globals, nothing written.  [tv_ref] and [fname] are locals of [loop]
    without an initialiser; they are filled with zeros here and left
    arbitrary in the theorems. *)
Definition boot : machine := {|
  opts := opts_init;
  tty_q := {| len := 0; buff := zero_mem |};
  tty_time := TTY_TIME_RESET;
  tty_time_enable := 2;
  state := ST_TRANSPARENT;
  dtr_up := 0;
  tv_ref := {| tv_sec := 0; tv_usec := 0 |};
  fname := zero_mem;
  errno := 0;
  sto := "";
  port_out := "";
  trace := []
|}.

(** ** The environment of one iteration of the loop *)

(** How the child of [run_cmd] went: [fork] failed with an [errno], the
    child exited with a code, or ended otherwise with wait status [r]. *)
Inductive child_status := ForkFailed (e : Z) | Exited (code : Z) | Abnormal (r : Z).

(** What the kernel and the tty library answer during one pass through the
    body of [for (;;)]: the result of [select] ([None] is success, [Some e]
    a failure with [errno = e]) and the readiness of the three descriptors,
    the results of the successive reads of [STI] and of [tty_fd], the clock,
    the results of the successive writes to [tty_fd], the return value of
    each tty-library call (with the [errno] it leaves when negative), the
    fate of the child, libc's [strerror], the results of the first writes
    of a received byte to [STO] (past the end of [e_sto] every such write
    takes the byte), and libc's [memcpy].  The writes of [fd_printf] and of
    the prompt to [STO], whose results the program does not look at, take
    every byte and leave [errno] alone. *)
Record env := {
  e_select : option Z;
  e_rd_sti : bool;
  e_rd_tty : bool;
  e_wr_tty : bool;
  e_sti : list read_result;
  e_tty : list read_result;
  e_now : timeval;
  e_wr : list write_result;
  e_term : term_call -> Z * Z;
  e_child : child_status;
  e_strerror : Z -> string;
  e_sto : list write_result;
  e_memcpy : memcpy_t
}.

(** Where a pass leaves the program: still in the loop, returned from
    [loop], gone through [fatal], spinning for ever in the retry loop of
    the write to [STO], or waiting in a call for which the environment
    holds no answer. *)
Inductive outcome :=
| Continue (m : machine)
| Return (m : machine)
| Fatal (m : machine)
| Hang (m : machine)
| Blocked (m : machine).

Definition bind (o : outcome) (k : machine -> outcome) : outcome :=
  match o with
  | Continue m => k m
  | _ => o
  end.

(** [fd_printf(STO, ...)] with the formatted text [s].  Every text [loop]
    formats is shorter than [buf[256]]. *)
Definition fd_printf (s : string) (m : machine) : machine :=
  with_sto m (sto m ++ s).

(** A call into the tty library: it is recorded, and a negative return
    value comes with its [errno]. *)
Definition term (e : env) (c : term_call) (m : machine) : Z * machine :=
  let r := fst (e_term e c) in
  let m := if r <? 0 then with_errno m (snd (e_term e c)) else m in
  (r, with_trace m (app (trace m) [EvTerm c])).

(** [fatal(...)] with the formatted message [msg]. *)
Definition fatal (e : env) (msg : string) (m : machine) : outcome :=
  let m := snd (term e (term_reset STO) m) in
  let m := snd (term e (term_reset STI) m) in
  Fatal (with_sto m (sto m ++ CRLF ++ "FATAL: " ++ msg ++ CRLF)).

(** [do { n = read(fd, &c, 1); } while (n < 0 && errno == EINTR);] over the
    results of the successive reads: the result that ends the loop, [errno]
    and the reads left. *)
Fixpoint read_retry (rs : list read_result) (en : Z)
    : option (read_result * Z * list read_result) :=
  match rs with
  | [] => None
  | RdErr e :: rest =>
      if e =? EINTR then read_retry rest e else Some (RdErr e, e, rest)
  | r :: rest => Some (r, en, rest)
  end.

(** [do { n = write(...); } while (n < 0 && errno == EINTR);]. *)
Fixpoint write_retry (ws : list write_result) (en : Z)
    : option (write_result * Z) :=
  match ws with
  | [] => None
  | WrErr e :: rest =>
      if e =? EINTR then write_retry rest e else Some (WrErr e, e)
  | w :: _ => Some (w, en)
  end.

(** [run_cmd(tty_fd, args..., NULL)] as the parent sees it; the value it
    returns is dropped by [loop].  The child's command line is recorded
    when the fork succeeded. *)
Definition run_cmd (e : env) (args : list string) (m : machine) : machine :=
  let m := with_trace m (app (trace m) [EvRunCmd args]) in
  match e_child e with
  | ForkFailed en =>
      fd_printf ("*** cannot fork: " ++ e_strerror e en ++ str1 LF)
                (with_errno m en)
  | Exited code =>
      let m := with_trace m (app (trace m) [EvSystem (build_cmd args "")]) in
      let m := snd (term e (term_apply STI) m) in
      fd_printf (CRLF ++ "*** exit status: " ++ fmt_d 0 code ++ CRLF) m
  | Abnormal r =>
      let m := with_trace m (app (trace m) [EvSystem (build_cmd args "")]) in
      let m := snd (term e (term_apply STI) m) in
      fd_printf (CRLF ++ "*** abnormal termination: 0x" ++ fmt_x r ++ CRLF) m
  end.

(** [if (tty_q.len <= TTY_Q_SZ) tty_q.buff[tty_q.len++] = c;
     else fd_printf(STO, "\x07");] *)
Definition queue_byte (c : ascii) (m : machine) : machine :=
  if len (tty_q m) <=? TTY_Q_SZ
  then with_tty_q m {| len := wrap_int (len (tty_q m) + 1);
                       buff := upd (buff (tty_q m)) (len (tty_q m)) c |}
  else fd_printf (str1 BEL) m.

Definition clear_queue (m : machine) : machine :=
  with_tty_q m {| len := 0; buff := buff (tty_q m) |}.

(** The prompt shared by [KEY_SEND] and [KEY_RECEIVE], from [fd_readline]
    to the two tests of [r]; [k] is what follows them. *)
Definition read_fname (e : env) (rest : list read_result)
    (k : machine -> machine) (m : machine) : outcome :=
  match fd_readline rest (sto m) (fname m) 128 (errno m) with
  | None => Blocked m
  | Some res =>
      let m := with_sto m (rl_fdo (rl_end res)) in
      let m := with_fname m (rl_b (rl_end res)) in
      let m := with_errno m (rl_errno res) in
      let m := fd_printf CRLF m in
      if (rl_r res <? -1) && (errno m =? EINTR) then Continue m
      else if rl_r res <=? -1
      then fatal e ("cannot read filename: " ++ e_strerror e (errno m)) m
      else Continue (k m)
  end.

(** ** loop *)

(** [case ST_COMMAND:] on the byte [c]; [rest] are the reads of [STI] that
    the prompt for a file name may still consume. *)
Definition loop_command (e : env) (rest : list read_result) (c : ascii)
    (m : machine) : outcome :=
  if (c =? escape (opts m))%char then
    Continue (queue_byte c (with_state m ST_TRANSPARENT))
  else
    let m := with_state m ST_TRANSPARENT in
    if (c =? KEY_EXIT)%char then Return m
    else if (c =? KEY_QUIT)%char then
      let m := snd (term e (term_set_hupcl tty_fd 0) m) in
      let m := snd (term e (term_flush tty_fd) m) in
      let m := snd (term e (term_apply tty_fd) m) in
      let m := snd (term e (term_erase tty_fd) m) in
      Return m
    else if (c =? KEY_STATUS)%char then
      let m := fd_printf CRLF m in
      let m := fd_printf ("*** baud: " ++ fmt_d 0 (baud (opts m)) ++ CRLF) m in
      let m := fd_printf ("*** flow: " ++ flow_str (opts m) ++ CRLF) m in
      let m := fd_printf ("*** parity: " ++ parity_str (opts m) ++ CRLF) m in
      let m := fd_printf ("*** databits: " ++ fmt_d 0 (databits (opts m)) ++ CRLF) m in
      let m := fd_printf ("*** dtr: " ++ (if dtr_up m =? 0 then "down" else "up") ++ CRLF) m in
      let m := fd_printf ("*** timestamp: "
                 ++ (if tty_time_enable m =? 0 then "off" else "on") ++ CRLF) m in
      Continue m
    else if (c =? KEY_PULSE)%char then
      let m := fd_printf (CRLF ++ "*** pulse DTR ***" ++ CRLF) m in
      let (r, m) := term e (term_pulse_dtr tty_fd) m in
      Continue (if r <? 0 then fd_printf ("*** FAILED" ++ CRLF) m else m)
    else if (c =? KEY_TOGGLE)%char then
      let (r, m) :=
        if dtr_up m =? 0 then term e (term_raise_dtr tty_fd) m
        else term e (term_lower_dtr tty_fd) m in
      let m := if r >=? 0
               then with_dtr_up m (if dtr_up m =? 0 then 1 else 0) else m in
      Continue (fd_printf (CRLF ++ "*** DTR: "
                  ++ (if dtr_up m =? 0 then "down" else "up") ++ " ***" ++ CRLF) m)
    else if (c =? KEY_BAUD_UP)%char then
      let newbaud := baud_up (baud (opts m)) in
      let m := snd (term e (term_set_baudrate tty_fd newbaud) m) in
      let m := clear_queue m in
      let m := snd (term e (term_flush tty_fd) m) in
      let (r, m) := term e (term_apply tty_fd) m in
      let m := if r >=? 0 then with_opts m (with_baud (opts m) newbaud) else m in
      Continue (fd_printf (CRLF ++ "*** baud: " ++ fmt_d 0 (baud (opts m))
                  ++ " ***" ++ CRLF) m)
    else if (c =? KEY_BAUD_DN)%char then
      let newbaud := baud_down (baud (opts m)) in
      let m := snd (term e (term_set_baudrate tty_fd newbaud) m) in
      let m := clear_queue m in
      let m := snd (term e (term_flush tty_fd) m) in
      let (r, m) := term e (term_apply tty_fd) m in
      let m := if r >=? 0 then with_opts m (with_baud (opts m) newbaud) else m in
      Continue (fd_printf (CRLF ++ "*** baud: " ++ fmt_d 0 (baud (opts m))
                  ++ " ***" ++ CRLF) m)
    else if (c =? KEY_FLOW)%char then
      let (newflow, newflow_str) := flow_next (flow (opts m)) in
      let m := snd (term e (term_set_flowcntrl tty_fd newflow) m) in
      let m := clear_queue m in
      let m := snd (term e (term_flush tty_fd) m) in
      let (r, m) := term e (term_apply tty_fd) m in
      let m := if r >=? 0
               then with_opts m (with_flow (opts m) newflow newflow_str) else m in
      Continue (fd_printf (CRLF ++ "*** flow: " ++ flow_str (opts m)
                  ++ " ***" ++ CRLF) m)
    else if (c =? KEY_PARITY)%char then
      let (newparity, newparity_str) := parity_next (parity (opts m)) in
      let m := snd (term e (term_set_parity tty_fd newparity) m) in
      let m := clear_queue m in
      let m := snd (term e (term_flush tty_fd) m) in
      let (r, m) := term e (term_apply tty_fd) m in
      let m := if r >=? 0
               then with_opts m (with_parity (opts m) newparity newparity_str)
               else m in
      Continue (fd_printf (CRLF ++ "*** parity: " ++ parity_str (opts m)
                  ++ " ***" ++ CRLF) m)
    else if (c =? KEY_BITS)%char then
      let newbits := bits_next (databits (opts m)) in
      let m := snd (term e (term_set_databits tty_fd newbits) m) in
      let m := clear_queue m in
      let m := snd (term e (term_flush tty_fd) m) in
      let (r, m) := term e (term_apply tty_fd) m in
      let m := if r >=? 0 then with_opts m (with_databits (opts m) newbits) else m in
      Continue (fd_printf (CRLF ++ "*** databits: " ++ fmt_d 0 (databits (opts m))
                  ++ " ***" ++ CRLF) m)
    else if (c =? KEY_SEND)%char then
      let m := fd_printf (CRLF ++ "*** file: ") m in
      read_fname e rest
        (fun m => run_cmd e [send_cmd (opts m); c_str (fname m) 0 128] m) m
    else if (c =? KEY_RECEIVE)%char then
      let m := fd_printf "*** file: " m in
      read_fname e rest
        (fun m =>
           if (fname m 0 =? NUL)%char
           then run_cmd e [receive_cmd (opts m)] m
           else run_cmd e [send_cmd (opts m); c_str (fname m) 0 128] m) m
    else if (c =? KEY_BREAK)%char then
      let m := snd (term e (term_break tty_fd) m) in
      Continue (fd_printf (CRLF ++ "*** break sent ***" ++ CRLF) m)
    else if (c =? KEY_TIMESTAMP)%char then
      if tty_time_enable m =? 0 then
        let m := with_tty_time_enable m 1 in
        let m := with_tty_time m TTY_TIME_RESET in
        Continue (fd_printf (CRLF ++ "*** Time Stamp Enable ***" ++ CRLF) m)
      else
        let m := with_tty_time_enable m 0 in
        Continue (fd_printf (CRLF ++ "*** Time Stamp Disable ***" ++ CRLF) m)
    else Continue m.

(** [if ( FD_ISSET(STI, &rdset) ) { ... }]: read from terminal. *)
Definition loop_stdin (e : env) (m : machine) : outcome :=
  match read_retry (e_sti e) (errno m) with
  | None => Blocked m
  | Some (r, en, rest) =>
      let m := with_errno m en in
      match r with
      | RdEof => fatal e "stdin closed" m
      | RdErr _ =>
          fatal e ("read from stdin failed: " ++ e_strerror e (errno m)) m
      | RdByte c =>
          match state m with
          | ST_COMMAND => loop_command e rest c m
          | ST_TRANSPARENT =>
              if (c =? escape (opts m))%char
              then Continue (with_state m ST_COMMAND)
              else Continue (queue_byte c m)
          end
      end
  end.

(** The text [sprintf] leaves in [s]: the colour, minutes, seconds and
    milliseconds since [tv_ref], the colour reset.  [diff_sec] and
    [diff_msec] are [unsigned int], the fields of a [timeval] are [long],
    [/] truncates. *)
Definition stamp (tv tv_r : timeval) : string :=
  let diff_sec := wrap_uint (tv_sec tv - tv_sec tv_r) in
  let borrow := Z.quot (tv_usec tv) 1000 <? Z.quot (tv_usec tv_r) 1000 in
  let diff_sec := if borrow then wrap_uint (diff_sec - 1) else diff_sec in
  let diff_msec :=
    if borrow
    then wrap_uint ((1000 + Z.quot (tv_usec tv) 1000) - Z.quot (tv_usec tv_r) 1000)
    else wrap_uint (Z.quot (tv_usec tv - tv_usec tv_r) 1000) in
  String ESC "[36m"
    ++ fmt_d 0 (wrap_int (diff_sec / 60)) ++ ":"
    ++ fmt_d 2 (wrap_int (diff_sec mod 60)) ++ "."
    ++ fmt_d 3 (wrap_int diff_msec) ++ " "
    ++ String ESC "[0m".

Definition is_newline (c : ascii) : bool := (c =? LF)%char || (c =? CR)%char.

(** [do { n = write(STO, &c, 1); } while ( errno == EAGAIN
    || errno == EWOULDBLOCK || errno == EINTR );
    if ( n <= 0 ) fatal("write to stdout failed: %s", strerror(errno));]
    over the results [ws] of the first writes.  The test of the loop looks
    at [errno] whether or not the write failed, and a write that succeeds
    does not change it: once the answers are used up and every write takes
    the byte, the loop either ends after one write or goes round for ever,
    which is [Hang], with the byte shown once. *)
Fixpoint write_sto (e : env) (ws : list write_result) (c : ascii)
    (m : machine) : outcome :=
  match ws with
  | [] =>
      let m := with_sto m (sto m ++ str1 c) in
      if (errno m =? EAGAIN) || (errno m =? EWOULDBLOCK)
         || (errno m =? EINTR)
      then Hang m
      else Continue m
  | w :: ws' =>
      let m := match w with
               | WrOk n => if 0 <? n then with_sto m (sto m ++ str1 c) else m
               | WrErr en => with_errno m en
               end in
      if (errno m =? EAGAIN) || (errno m =? EWOULDBLOCK)
         || (errno m =? EINTR)
      then write_sto e ws' c m
      else
        match w with
        | WrOk n =>
            if n <=? 0
            then fatal e ("write to stdout failed: "
                          ++ e_strerror e (errno m)) m
            else Continue m
        | WrErr _ =>
            fatal e ("write to stdout failed: " ++ e_strerror e (errno m)) m
        end
  end.

(** [if ( FD_ISSET(tty_fd, &rdset) ) { ... }]: read from port. *)
Definition loop_port_read (e : env) (m : machine) : outcome :=
  match read_retry (e_tty e) (errno m) with
  | None => Blocked m
  | Some (r, en, _) =>
      let m := with_errno m en in
      match r with
      | RdEof => fatal e "term closed" m
      | RdErr _ =>
          fatal e ("read from term failed: " ++ e_strerror e (errno m)) m
      | RdByte c =>
          let m :=
            if negb (tty_time_enable m =? 0) && negb (tty_time m =? 0) then
              let tv := e_now e in
              let m := if tty_time m =? TTY_TIME_RESET
                       then with_tv_ref m tv else m in
              if negb (c =? LF)%char && negb (c =? CR)%char then
                let m := with_sto m (sto m ++ stamp tv (tv_ref m)) in
                with_tty_time m TTY_TIME_NONE
              else m
            else m in
          let m := if is_newline c
                   then with_tty_time m TTY_TIME_DISPLAY else m in
          write_sto e (e_sto e) c m
      end
  end.

(** [if ( FD_ISSET(tty_fd, &wrset) ) { ... }]: write to port.  The kernel
    writes no more than it was given, so the count [tty_q.len - n] of the
    [memcpy] is not negative.  The call is
    [memcpy(tty_q.buff, tty_q.buff + n, tty_q.len - n)]: the two regions
    overlap as soon as more bytes stay than were written. *)
Definition loop_port_write (e : env) (m : machine) : outcome :=
  match write_retry (e_wr e) (errno m) with
  | None => Blocked m
  | Some (w, en) =>
      let m := with_errno m en in
      match w with
      | WrErr _ =>
          fatal e ("write to term failed: " ++ e_strerror e (errno m)) m
      | WrOk n =>
          if n <=? 0
          then fatal e ("write to term failed: " ++ e_strerror e (errno m)) m
          else
            let q := tty_q m in
            let m := with_port_out m (port_out m ++ load (buff q) 0 (Z.to_nat n)) in
            Continue (with_tty_q m
              {| len := wrap_int (len q - n);
                 buff := e_memcpy e (buff q) 0 n (Z.to_nat (len q - n)) |})
      end
  end.

(** One pass through the body of [for (;;)].  [tty_fd] is in [wrset] only
    when the queue was not empty at the top of the pass. *)
Definition loop_iter (e : env) (m : machine) : outcome :=
  let wr_set := negb (len (tty_q m) =? 0) in
  match e_select e with
  | Some en =>
      fatal e ("select failed: " ++ fmt_d 0 en ++ " : " ++ e_strerror e en)
            (with_errno m en)
  | None =>
      bind (if e_rd_sti e then loop_stdin e m else Continue m) (fun m =>
      bind (if e_rd_tty e then loop_port_read e m else Continue m) (fun m =>
      if e_wr_tty e && wr_set then loop_port_write e m else Continue m))
  end.

(** The passes of the loop, one environment each; [Continue] when the
    program is back at the top of the loop after the last of them. *)
Fixpoint loop_run (es : list env) (m : machine) : outcome :=
  match es with
  | [] => Continue m
  | e :: es' => bind (loop_iter e m) (loop_run es')
  end.

(** [loop()] from its first statement. *)
Definition loop (es : list env) (m : machine) : outcome :=
  let m := clear_queue m in
  let m := with_state m ST_TRANSPARENT in
  let m := with_dtr_up m 0 in
  loop_run es m.

(** ** Environments of the scenarios *)

Definition t0 : timeval := {| tv_sec := 0; tv_usec := 0 |}.

(** The user types [c] at wall time [t]; the port stays silent and is not
    reported writable. *)
Definition key_at (c : ascii) (t : timeval) : env := {|
  e_select := None;
  e_rd_sti := true;
  e_rd_tty := false;
  e_wr_tty := false;
  e_sti := [RdByte c];
  e_tty := [];
  e_now := t;
  e_wr := [];
  e_term := fun _ => (0, 0);
  e_child := Exited 0;
  e_strerror := fun _ => "error";
  e_sto := [];
  e_memcpy := memcpy_ascending
|}.

Definition key (c : ascii) : env := key_at c t0.

(** The port delivers [c] at wall time [t]; nothing is typed. *)
Definition port_byte (ct : ascii * timeval) : env := {|
  e_select := None;
  e_rd_sti := false;
  e_rd_tty := true;
  e_wr_tty := false;
  e_sti := [];
  e_tty := [RdByte (fst ct)];
  e_now := snd ct;
  e_wr := [];
  e_term := fun _ => (0, 0);
  e_child := Exited 0;
  e_strerror := fun _ => "error";
  e_sto := [];
  e_memcpy := memcpy_ascending
|}.

(** The user types [c] and then the bytes [line] at the prompt; the
    tty-library call [failing] returns -1 with [errno = EIO]. *)
Definition typing (c : ascii) (line : string) (failing : term_call -> bool) : env := {|
  e_select := None;
  e_rd_sti := true;
  e_rd_tty := false;
  e_wr_tty := false;
  e_sti := RdByte c :: map RdByte (list_ascii_of_string line);
  e_tty := [];
  e_now := t0;
  e_wr := [];
  e_term := fun call => if failing call then (-1, 5) else (0, 0);
  e_child := Exited 0;
  e_strerror := fun _ => "error";
  e_sto := [];
  e_memcpy := memcpy_ascending
|}.

(** The port is reported writable and [write] takes [n] bytes, on a
    machine whose C library copies with [memcpy]. *)
Definition short_write (memcpy : memcpy_t) (n : Z) : env := {|
  e_select := None;
  e_rd_sti := false;
  e_rd_tty := false;
  e_wr_tty := true;
  e_sti := [];
  e_tty := [];
  e_now := t0;
  e_wr := [WrOk n];
  e_term := fun _ => (0, 0);
  e_child := Exited 0;
  e_strerror := fun _ => "error";
  e_sto := [];
  e_memcpy := memcpy
|}.

(** The queue holding the bytes of [s], on the program as it starts. *)
Fixpoint store (b : mem) (from : Z) (s : string) : mem :=
  match s with
  | EmptyString => b
  | String c s' => store (upd b from c) (from + 1) s'
  end.

Definition with_queued (s : string) : machine :=
  with_tty_q boot {| len := Z.of_nat (String.length s);
                     buff := store zero_mem 0 s |}.

Definition is_apply_tty (call : term_call) : bool :=
  match call with
  | term_apply tty_fd => true
  | _ => false
  end.

(** A pass in which only [STI] is reported ready and its read gives [c]. *)
Definition only_key (c : ascii) (e : env) : Prop :=
  e_select e = None /\ e_rd_sti e = true /\ e_sti e = [RdByte c]
  /\ e_rd_tty e = false /\ e_wr_tty e = false.

(** ** Notions the statements use *)

(** The bytes waiting in the queue, oldest first. *)
Definition queued (q : tty_q_t) : string := load (buff q) 0 (Z.to_nat (len q)).

(** The argument lists of the calls of [run_cmd], in order. *)
Fixpoint handoffs (tr : list event) : list (list string) :=
  match tr with
  | [] => []
  | EvRunCmd args :: tr' => args :: handoffs tr'
  | _ :: tr' => handoffs tr'
  end.

(** The five keys that reconfigure the port. *)
Definition reconfigure_key (c : ascii) : Prop :=
  c = KEY_BAUD_UP \/ c = KEY_BAUD_DN \/ c = KEY_FLOW \/ c = KEY_PARITY
  \/ c = KEY_BITS.

(** The line a reconfiguration key prints for the options [o]. *)
Definition confirmation (c : ascii) (o : opts_t) : string :=
  if (c =? KEY_BAUD_UP)%char || (c =? KEY_BAUD_DN)%char
  then CRLF ++ "*** baud: " ++ fmt_d 0 (baud o) ++ " ***" ++ CRLF
  else if (c =? KEY_FLOW)%char
  then CRLF ++ "*** flow: " ++ flow_str o ++ " ***" ++ CRLF
  else if (c =? KEY_PARITY)%char
  then CRLF ++ "*** parity: " ++ parity_str o ++ " ***" ++ CRLF
  else CRLF ++ "*** databits: " ++ fmt_d 0 (databits o) ++ " ***" ++ CRLF.

(** The timestamp annotator as the specification words it: a prefix before
    the first byte that is not a newline of each line, measured from
    [t_ref]; [line_start] says that no such byte of the current line has
    been seen. *)
Fixpoint annotate (t_ref : timeval) (line_start : bool)
    (bs : list (ascii * timeval)) : string :=
  match bs with
  | [] => EmptyString
  | (c, t) :: bs' =>
      if is_newline c then String c (annotate t_ref true bs')
      else (if line_start then stamp t t_ref else EmptyString)
             ++ String c (annotate t_ref false bs')
  end.

(** Neither of the values that keep the write to [STO] retrying. *)
Definition errno_settled (en : Z) : Prop := en <> EAGAIN /\ en <> EINTR.

Definition at_secs (s ms : Z) : timeval := {| tv_sec := s; tv_usec := ms * 1000 |}.

(** The status block for the initial options, and the two texts of the
    timestamp scenario. *)
Definition status_block (ts : string) : string :=
  CRLF ++ "*** baud: 115200" ++ CRLF ++ "*** flow: none" ++ CRLF
  ++ "*** parity: none" ++ CRLF ++ "*** databits: 8" ++ CRLF
  ++ "*** dtr: down" ++ CRLF ++ "*** timestamp: " ++ ts ++ CRLF.

Definition cyan (s : string) : string := String ESC "[36m" ++ s ++ " " ++ String ESC "[0m".

Definition enable_banner : string := CRLF ++ "*** Time Stamp Enable ***" ++ CRLF.
Definition disable_banner : string := CRLF ++ "*** Time Stamp Disable ***" ++ CRLF.

(** What holds of the prompt between two reads, for a buffer of [bsz]
    bytes that held [b0] at the call: the write position is inside the
    first [bsz - 1] bytes or just past them, and nothing has been stored at
    index [bsz - 1] or outside the buffer. *)
Definition rl_inv (bsz : Z) (b0 : mem) (s : rl_state) : Prop :=
  0 <= rl_bp s <= bsz - 1
  /\ forall i, i < 0 \/ bsz - 1 <= i -> rl_b s i = b0 i.

(** A byte the prompt stores as it is: no backspace, no carriage return,
    and not the NUL that ends a C string. *)
Definition plain (c : ascii) : Prop := c <> BS /\ c <> CR /\ c <> NUL.

(** [case 't':] of [parse_args], the option [--timestamp]. *)
Definition parse_args_t (m : machine) : machine :=
  with_tty_time (with_tty_time_enable m 1) TTY_TIME_RESET.

(** The timestamp scenario: timestamps are switched off and on again, the
    second Ctrl-I being typed at 10.000 s; the port then delivers "X" at
    10.250 s, a line feed, and "Y" at 10.500 s. *)
Definition stamped_run : list env :=
  [ key "001"; key_at KEY_TIMESTAMP t0;
    key "001"; key_at KEY_TIMESTAMP (at_secs 10 0);
    port_byte ("X"%char, at_secs 10 250);
    port_byte (LF, at_secs 10 250);
    port_byte ("Y"%char, at_secs 10 500) ].

(** The text the specification expects on the screen, and the text the
    program writes. *)
Definition stamped_expected : string :=
  cyan "0:00.250" ++ "X" ++ str1 LF ++ cyan "0:00.500" ++ "Y".

Definition stamped_written : string :=
  cyan "0:00.000" ++ "X" ++ str1 LF ++ cyan "0:00.250" ++ "Y".

(** ** Where an outcome leaves the machine *)

Definition final (o : outcome) : machine :=
  match o with
  | Continue m => m
  | Return m => m
  | Fatal m => m
  | Hang m => m
  | Blocked m => m
  end.

(** ** What the session's options should look like *)

(** The name [flow_next] and [parse_args] give to a flow-control mode. *)
Definition flow_named (f : flowcntrl_e) (s : string) : Prop :=
  match f with
  | FC_NONE => s = "none"
  | FC_RTSCTS => s = "RTS/CTS"
  | FC_XONXOFF => s = "xon/xoff"
  | FC_other _ => False
  end.

Definition parity_named (p : parity_e) (s : string) : Prop :=
  match p with
  | P_NONE => s = "none"
  | P_EVEN => s = "even"
  | P_ODD => s = "odd"
  | P_other _ => False
  end.

(** The mode strings name the modes, the data bits are 5 to 8, and the two
    transfer commands fit their 128-byte arrays. *)
Definition opts_ok (o : opts_t) : Prop :=
  flow_named (flow o) (flow_str o)
  /\ parity_named (parity o) (parity_str o)
  /\ 5 <= databits o <= 8
  /\ (String.length (send_cmd o) <= 127)%nat
  /\ (String.length (receive_cmd o) <= 127)%nat.

(** One of the five reconfigurations, or none. *)
Definition reconfigured (o o' : opts_t) : Prop :=
  o' = o
  \/ o' = with_baud o (baud_up (baud o))
  \/ o' = with_baud o (baud_down (baud o))
  \/ o' = with_flow o (fst (flow_next (flow o))) (snd (flow_next (flow o)))
  \/ o' = with_parity o (fst (parity_next (parity o)))
                        (snd (parity_next (parity o)))
  \/ o' = with_databits o (bits_next (databits o)).

(** ** A kernel that keeps its word *)

(** The two reading parts of a pass, up to the point where the program
    writes to the port. *)
Definition loop_reads (e : env) (m : machine) : outcome :=
  bind (if e_rd_sti e then loop_stdin e m else Continue m) (fun m =>
  if e_rd_tty e then loop_port_read e m else Continue m).

(** [write] never reports more bytes than it was given: the count it
    returns in a pass is at most the length of the queue at that
    moment. *)
Definition kernel_sane (e : env) (m : machine) : Prop :=
  forall m1 n en,
    loop_reads e m = Continue m1 ->
    write_retry (e_wr e) (errno m1) = Some (WrOk n, en) ->
    n <= len (tty_q m1).

Fixpoint sane_run (es : list env) (m : machine) : Prop :=
  match es with
  | [] => True
  | e :: es' =>
      kernel_sane e m
      /\ forall m', loop_iter e m = Continue m' -> sane_run es' m'
  end.

(** A pass in which the port is reported writable and [write] takes [n]
    bytes; nothing is typed and nothing arrives. *)
Definition port_takes (n : Z) : env := {|
  e_select := None;
  e_rd_sti := false;
  e_rd_tty := false;
  e_wr_tty := true;
  e_sti := [];
  e_tty := [];
  e_now := t0;
  e_wr := [WrOk n];
  e_term := fun _ => (0, 0);
  e_child := Exited 0;
  e_strerror := fun _ => "error";
  e_sto := [];
  e_memcpy := memcpy_ascending
|}.

(** How [fatal] leaves the machine: the last two calls reset the two
    terminal descriptors, and the last thing written is the message
    between "FATAL: " and a line end. *)
Definition fatal_shape (m : machine) : Prop :=
  exists tr out msg,
    trace m = app tr [EvTerm (term_reset STO); EvTerm (term_reset STI)]
    /\ sto m = out ++ CRLF ++ "FATAL: " ++ msg ++ CRLF.




(** ** The reconfiguration keys *)

(** The options a reconfiguration key asks for, and the call that puts
    them to the tty library. *)
Definition reconfigure_opts (c : ascii) (o : opts_t) : opts_t :=
  if (c =? KEY_BAUD_UP)%char then with_baud o (baud_up (baud o))
  else if (c =? KEY_BAUD_DN)%char then with_baud o (baud_down (baud o))
  else if (c =? KEY_FLOW)%char
  then with_flow o (fst (flow_next (flow o))) (snd (flow_next (flow o)))
  else if (c =? KEY_PARITY)%char
  then with_parity o (fst (parity_next (parity o)))
                     (snd (parity_next (parity o)))
  else with_databits o (bits_next (databits o)).

Definition reconfigure_call (c : ascii) (o : opts_t) : term_call :=
  if (c =? KEY_BAUD_UP)%char then term_set_baudrate tty_fd (baud_up (baud o))
  else if (c =? KEY_BAUD_DN)%char
  then term_set_baudrate tty_fd (baud_down (baud o))
  else if (c =? KEY_FLOW)%char
  then term_set_flowcntrl tty_fd (fst (flow_next (flow o)))
  else if (c =? KEY_PARITY)%char
  then term_set_parity tty_fd (fst (parity_next (parity o)))
  else term_set_databits tty_fd (bits_next (databits o)).

(** The bytes that select a command after the escape byte. *)
Definition command_keys : list ascii :=
  [KEY_EXIT; KEY_QUIT; KEY_STATUS; KEY_PULSE; KEY_TOGGLE; KEY_BAUD_UP;
   KEY_BAUD_DN; KEY_FLOW; KEY_PARITY; KEY_BITS; KEY_SEND; KEY_RECEIVE;
   KEY_BREAK; KEY_TIMESTAMP].

(** The passes in which the user types the escape byte [E] before each of
    the keys [cs]; every call succeeds. *)
Definition commands (E : ascii) (cs : list ascii) : list env :=
  flat_map (fun c => [key E; key c]) cs.

(** A pass in which the read of [STI] returns 0: the terminal is gone. *)
Definition stdin_closes : env := {|
  e_select := None;
  e_rd_sti := true;
  e_rd_tty := false;
  e_wr_tty := false;
  e_sti := [RdEof];
  e_tty := [];
  e_now := t0;
  e_wr := [];
  e_term := fun _ => (0, 0);
  e_child := Exited 0;
  e_strerror := fun _ => "error";
  e_sto := [];
  e_memcpy := memcpy_ascending
|}.

(** ** The command line of the child *)

(** The arguments, each followed by one space. *)
Definition spaced (args : list string) : string :=
  fold_right (fun s acc => s ++ " " ++ acc) "" args.

(** ** The line the prompt builds *)

(** The prompt as an editor of a stack of bytes, last typed first: a
    backspace drops the last byte, any other byte is pushed while fewer
    than [cap] are held and dropped otherwise.  The line is the stack
    read from its bottom. *)
Fixpoint rl_edit (cap : nat) (acc : list ascii) (cs : list ascii)
    : list ascii :=
  match cs with
  | [] => rev acc
  | c :: cs' =>
      if (c =? BS)%char then rl_edit cap (tl acc) cs'
      else if (List.length acc <? cap)%nat then rl_edit cap (c :: acc) cs'
      else rl_edit cap acc cs'
  end.

(** ** writen_ni *)

(** [size_t] is 64 bits wide. *)
Definition wrap_size (z : Z) : Z := z mod 18446744073709551616.

(** What [write(fd, p, nl)] answers, as a function of the count [nl] it is
    given. *)
Definition write_answer : Type := Z -> write_result.

(** The variables of [writen_ni]: [nl], [p - buff], what has gone out, and
    [errno]. *)
Record wn_state := { wn_nl : Z; wn_off : Z; wn_out : string; wn_errno : Z }.

(** The [while (nl > 0)] of [writen_ni] over the answers to its successive
    writes; a write failing with [EINTR] is repeated with the same
    arguments.  [None]: the answers at hand are used up. *)
Fixpoint writen_ni_loop (ws : list write_answer) (buff : string)
    (s : wn_state) : option wn_state :=
  if wn_nl s >? 0 then
    match ws with
    | [] => None
    | w :: ws' =>
        match w (wn_nl s) with
        | WrErr e =>
            let s := {| wn_nl := wn_nl s; wn_off := wn_off s;
                        wn_out := wn_out s; wn_errno := e |} in
            if e =? EINTR then writen_ni_loop ws' buff s else Some s
        | WrOk nw =>
            if nw <=? 0 then Some s
            else writen_ni_loop ws' buff
                   {| wn_nl := wrap_size (wn_nl s - nw);
                      wn_off := wn_off s + nw;
                      wn_out := wn_out s
                                ++ substring (Z.to_nat (wn_off s))
                                             (Z.to_nat nw) buff;
                      wn_errno := wn_errno s |}
        end
    end
  else Some s.

(** [writen_ni(fd, buff, n)] with [n] the length of [buff]: the value
    returned, the bytes written and [errno]. *)
Definition writen_ni (ws : list write_answer) (buff : string) (en : Z)
    : option (Z * string * Z) :=
  let n := Z.of_nat (String.length buff) in
  match writen_ni_loop ws buff
          {| wn_nl := n; wn_off := 0; wn_out := ""; wn_errno := en |} with
  | Some s => Some (n - wn_nl s, wn_out s, wn_errno s)
  | None => None
  end.

(** A write never reports more than it was given. *)
Definition answers_sane (ws : list write_answer) : Prop :=
  Forall (fun w => forall nl nw, w nl = WrOk nw -> nw <= nl) ws.

(** No write fails for good or returns 0. *)
Definition answers_willing (ws : list write_answer) : Prop :=
  Forall (fun w => forall nl, 0 < nl ->
            match w nl with
            | WrOk nw => 0 < nw
            | WrErr e => e = EINTR
            end) ws.

(** ** uucp_lockname *)

(** [_POSIX_PATH_MAX] of <limits.h>. *)
Definition POSIX_PATH_MAX : nat := 256.

(** [strchr(s, '/')]: the string from its first slash on, if it has one. *)
Fixpoint strchr_slash (s : string) : option string :=
  match s with
  | EmptyString => None
  | String c s' => if (c =? "/")%char then Some s else strchr_slash s'
  end.

(** [s + 1]. *)
Definition str_tail (s : string) : string :=
  match s with
  | EmptyString => EmptyString
  | String _ s' => s'
  end.

(** [do { if ( *p == '/' ) *p = '_'; } while( *p++ );] *)
Fixpoint slashes_to_underscores (s : string) : string :=
  match s with
  | EmptyString => EmptyString
  | String c s' =>
      String (if (c =? "/")%char then "_"%char else c)
             (slashes_to_underscores s')
  end.

(** What [snprintf(dst, size, ...)] leaves in [dst] of the text [s]. *)
Definition snprintf_cut (size : nat) (s : string) : string :=
  substring 0 (size - 1) s.

(** [uucp_lockname(dir, file)] for a non-empty [file]: [None] is the
    return value -1, which leaves [lockname] empty; [Some l] is the return
    value 0 with [l] in [lockname].  [stat_ok] says whether [stat(dir)]
    succeeds; [dir] is [None] for a null pointer. *)
Definition uucp_lockname (stat_ok : bool) (dir : option string)
    (file : string) : option string :=
  match dir with
  | None => None
  | Some d =>
      if (String.length d =? 0)%nat || negb stat_ok then None
      else
        let p := match strchr_slash (str_tail file) with
                 | Some q => str_tail q
                 | None => file
                 end in
        let cp := slashes_to_underscores p in
        Some (snprintf_cut POSIX_PATH_MAX (d ++ "/LCK.." ++ cp))
  end.

Definition no_slash (s : string) : Prop :=
  Forall (fun c => c <> "/"%char) (list_ascii_of_string s).

(** ** show_usage and parse_args *)

Definition with_port (o : opts_t) (v : string) : opts_t :=
  {| port := v; baud := baud o; flow := flow o; flow_str := flow_str o;
     parity := parity o; parity_str := parity_str o; databits := databits o;
     noinit := noinit o; noreset := noreset o; nolock := nolock o;
     escape := escape o; send_cmd := send_cmd o;
     receive_cmd := receive_cmd o |}.

Definition with_noinit (o : opts_t) (v : Z) : opts_t :=
  {| port := port o; baud := baud o; flow := flow o; flow_str := flow_str o;
     parity := parity o; parity_str := parity_str o; databits := databits o;
     noinit := v; noreset := noreset o; nolock := nolock o;
     escape := escape o; send_cmd := send_cmd o;
     receive_cmd := receive_cmd o |}.

Definition with_noreset (o : opts_t) (v : Z) : opts_t :=
  {| port := port o; baud := baud o; flow := flow o; flow_str := flow_str o;
     parity := parity o; parity_str := parity_str o; databits := databits o;
     noinit := noinit o; noreset := v; nolock := nolock o;
     escape := escape o; send_cmd := send_cmd o;
     receive_cmd := receive_cmd o |}.

Definition with_nolock (o : opts_t) (v : Z) : opts_t :=
  {| port := port o; baud := baud o; flow := flow o; flow_str := flow_str o;
     parity := parity o; parity_str := parity_str o; databits := databits o;
     noinit := noinit o; noreset := noreset o; nolock := v;
     escape := escape o; send_cmd := send_cmd o;
     receive_cmd := receive_cmd o |}.

Definition with_send_cmd (o : opts_t) (v : string) : opts_t :=
  {| port := port o; baud := baud o; flow := flow o; flow_str := flow_str o;
     parity := parity o; parity_str := parity_str o; databits := databits o;
     noinit := noinit o; noreset := noreset o; nolock := nolock o;
     escape := escape o; send_cmd := v;
     receive_cmd := receive_cmd o |}.

Definition with_receive_cmd (o : opts_t) (v : string) : opts_t :=
  {| port := port o; baud := baud o; flow := flow o; flow_str := flow_str o;
     parity := parity o; parity_str := parity_str o; databits := databits o;
     noinit := noinit o; noreset := noreset o; nolock := nolock o;
     escape := escape o; send_cmd := send_cmd o;
     receive_cmd := v |}.

(** The value of a byte, and the conversion of an [int] to
    [unsigned char]. *)
Definition code (c : ascii) : Z := Z.of_nat (nat_of_ascii c).

Definition to_uchar (z : Z) : ascii := ascii_of_nat (Z.to_nat (z mod 256)).

(** [isupper] in the C locale. *)
Definition isupper (c : ascii) : bool := (65 <=? code c) && (code c <=? 90).

(** [optarg[0]]. *)
Definition optarg0 (optarg : string) : ascii :=
  match optarg with
  | EmptyString => NUL
  | String c _ => c
  end.

(** The C string left by [strncpy(dst, src, n)] once [dst[n]] is NUL. *)
Definition strncpy_cut (n : nat) (src : string) : string := substring 0 n src.

(** [strrchr(s, '/')]: the string from its last slash on, if it has one. *)
Fixpoint strrchr_slash (s : string) : option string :=
  match s with
  | EmptyString => None
  | String c s' =>
      match strrchr_slash s' with
      | Some q => Some q
      | None => if (c =? "/")%char then Some s else None
      end
  end.

Definition DQ : ascii := "034"%char.

Definition nl : string := String LF EmptyString.

(** What [show_usage(name)] prints; [version] is [VERSION_STR]. *)
Definition show_usage (version name : string) : string :=
  let s := match strrchr_slash name with
           | Some q => str_tail q
           | None => name
           end in
  "picocom v" ++ version ++ nl
  ++ "Usage is: " ++ s ++ " [options] <tty device>" ++ nl
  ++ "Options are:" ++ nl
  ++ "  --<b>aud <baudrate>" ++ nl
  ++ "  --<f>low s (=soft) | h (=hard) | n (=none)" ++ nl
  ++ "  --<p>arity o (=odd) | e (=even) | n (=none)" ++ nl
  ++ "  --<d>atabits 5 | 6 | 7 | 8" ++ nl
  ++ "  --<e>scape <char>" ++ nl
  ++ "  --no<i>nit" ++ nl
  ++ "  --no<r>eset" ++ nl
  ++ "  --no<l>ock" ++ nl
  ++ "  --<s>end-cmd <command>" ++ nl
  ++ "  --recei<v>e-cmd <command>" ++ nl
  ++ "  --<t>imestamp" ++ nl
  ++ "  --<h>elp" ++ nl
  ++ "<?> indicates the equivalent short option." ++ nl
  ++ "Short options are prefixed by " ++ String DQ ("-" ++ String DQ
       (" instead of by " ++ String DQ ("--" ++ String DQ ("." ++ nl)))).

(** What the two [fprintf] of a [default:] of an inner switch write. *)
Definition ignored (what : string) (c : ascii) (choice : string) : string :=
  "--" ++ what ++ " '" ++ String c ("' ignored." ++ nl)
  ++ "--" ++ what ++ " can be one off: " ++ choice ++ nl.

(** One case of [switch (c)] that ends in [break]: the globals after it and
    what it wrote to [stderr].  [None] stands for the cases that leave
    through [exit].  [atoi] is the C library's. *)
Definition parse_args_case (atoi : string -> Z) (c : ascii)
    (optarg : string) (m : machine) : option (machine * string) :=
  let o := opts m in
  let a := optarg0 optarg in
  if (c =? "t")%char then Some (parse_args_t m, "")
  else if (c =? "s")%char then
    Some (with_opts m (with_send_cmd o (strncpy_cut 127 optarg)), "")
  else if (c =? "v")%char then
    Some (with_opts m (with_receive_cmd o (strncpy_cut 127 optarg)), "")
  else if (c =? "i")%char then Some (with_opts m (with_noinit o 1), "")
  else if (c =? "r")%char then Some (with_opts m (with_noreset o 1), "")
  else if (c =? "l")%char then Some (with_opts m (with_nolock o 1), "")
  else if (c =? "e")%char then
    if isupper a
    then Some (with_opts m (with_escape o (to_uchar (code a - code "A" + 1))),
               "")
    else Some (with_opts m (with_escape o (to_uchar (code a - code "a" + 1))),
               "")
  else if (c =? "f")%char then
    if (a =? "X")%char || (a =? "x")%char then
      Some (with_opts m (with_flow o FC_XONXOFF "xon/xoff"), "")
    else if (a =? "H")%char || (a =? "h")%char then
      Some (with_opts m (with_flow o FC_RTSCTS "RTS/CTS"), "")
    else if (a =? "N")%char || (a =? "n")%char then
      Some (with_opts m (with_flow o FC_NONE "none"), "")
    else Some (m, ignored "flow" a "'x', 'h', or 'n'")
  else if (c =? "b")%char then Some (with_opts m (with_baud o (atoi optarg)), "")
  else if (c =? "p")%char then
    if (a =? "e")%char then Some (with_opts m (with_parity o P_EVEN "even"), "")
    else if (a =? "o")%char then
      Some (with_opts m (with_parity o P_ODD "odd"), "")
    else if (a =? "n")%char then
      Some (with_opts m (with_parity o P_NONE "none"), "")
    else Some (m, ignored "parity" a "'o', 'e', or 'n'")
  else if (c =? "d")%char then
    if (a =? "5")%char then Some (with_opts m (with_databits o 5), "")
    else if (a =? "6")%char then Some (with_opts m (with_databits o 6), "")
    else if (a =? "7")%char then Some (with_opts m (with_databits o 7), "")
    else if (a =? "8")%char then Some (with_opts m (with_databits o 8), "")
    else Some (m, ignored "databits" a "5, 6, 7 or 8")
  else None.

(** The option characters whose case ends in [break]. *)
Definition break_options : list ascii :=
  list_ascii_of_string "tsvirlefbpd".

(** Every option in [got] is one of them. *)
Definition all_break (got : list (ascii * string)) : Prop :=
  Forall (fun p => In (fst p) break_options) got.

(** How [parse_args] ends: it returns, or the program exits.  [out] and
    [err] are what was printed to [stdout] and to [stderr]. *)
Inductive parse_result :=
| Parsed (m : machine) (out err : string)
| Exits (status : Z) (out err : string).

(** [while (1) { c = getopt_long(...); if (c < 0) break; switch (c) ... }]:
    [got] lists what the successive calls of [getopt_long] return, each with
    its [optarg], up to the one that returns -1. *)
Fixpoint parse_args_opts (atoi : string -> Z) (version argv0 : string)
    (got : list (ascii * string)) (m : machine) (err : string)
    : parse_result :=
  match got with
  | [] => Parsed m "" err
  | (c, optarg) :: got' =>
      match parse_args_case atoi c optarg m with
      | Some (m', e) => parse_args_opts atoi version argv0 got' m' (err ++ e)
      | None =>
          if (c =? "h")%char
          then Exits 0 (show_usage version argv0) err
          else Exits 1 "" (err ++ "Unrecognized option." ++ nl
                               ++ "Run with '--help'." ++ nl)
      end
  end.

Definition yes_no (z : Z) : string := if z =? 0 then "no" else "yes".

(** The summary printed at the end of [parse_args]. *)
Definition banner (version : string) (o : opts_t) : string :=
  "picocom v" ++ version ++ nl
  ++ nl
  ++ "port is        : " ++ port o ++ nl
  ++ "flowcontrol    : " ++ flow_str o ++ nl
  ++ "baudrate is    : " ++ fmt_d 0 (baud o) ++ nl
  ++ "parity is      : " ++ parity_str o ++ nl
  ++ "databits are   : " ++ fmt_d 0 (databits o) ++ nl
  ++ "escape is      : C-"
  ++ String (to_uchar (code "a" + code (escape o) - 1)) nl
  ++ "noinit is      : " ++ yes_no (noinit o) ++ nl
  ++ "noreset is     : " ++ yes_no (noreset o) ++ nl
  ++ "nolock is      : " ++ yes_no (nolock o) ++ nl
  ++ "send_cmd is    : " ++ send_cmd o ++ nl
  ++ "receive_cmd is : " ++ receive_cmd o ++ nl
  ++ nl.

(** [parse_args(argc, argv)]: [rest] is [argv] from [optind] on, once
    [getopt_long] has returned -1. *)
Definition parse_args (atoi : string -> Z) (version argv0 : string)
    (got : list (ascii * string)) (rest : list string) (m : machine)
    : parse_result :=
  match parse_args_opts atoi version argv0 got m "" with
  | Exits s out err => Exits s out err
  | Parsed m1 _ err =>
      match rest with
      | [] => Exits 1 "" (err ++ "No port given" ++ nl)
      | p :: _ =>
          let m2 := with_opts m1 (with_port (opts m1) (strncpy_cut 127 p)) in
          Parsed m2 (banner version (opts m2)) err
      end
  end.

(** ** The clock *)

(** A [timeval] as [gettimeofday] fills it in. *)
Definition normal (tv : timeval) : Prop := 0 <= tv_usec tv < 1000000.

Definition usecs (tv : timeval) : Z := tv_sec tv * 1000000 + tv_usec tv.

(** ** fd_printf as the child of run_cmd uses it *)

(** [len = vsnprintf(buf, size, format, args)] for the formatted text
    [text]: the bytes it stores in [buf], which are the first [size - 1]
    bytes of the text and a NUL, and the value it returns, which is the
    length of the whole text. *)
Definition vsnprintf (size : nat) (text : string) : string * Z :=
  (substring 0 (size - 1) text ++ str1 NUL, Z.of_nat (String.length text)).

(** The call [writen_ni(fd, buf, len)] that ends [fd_printf]: the bytes of
    [char buf[256]] that are initialised, from [buf[0]] on, and the count.
    The assignment [buf[sizeof(buf) - 1] = 0] adds nothing to what is read
    when the count is 256 or below. *)
Definition fd_printf_write (text : string) : string * Z :=
  vsnprintf 256 text.

(** [fd_printf(STDERR_FILENO, "%s\n", cmd)] in the child of [run_cmd]. *)
Definition child_echo (args : list string) : string * Z :=
  fd_printf_write (build_cmd args "" ++ nl).

(** * Properties *)

(** ** Byte strings *)

Lemma append_assoc (a b c : string) : (a ++ b) ++ c = a ++ b ++ c.
Proof. induction a as [|x a IH]; cbn; [reflexivity|now rewrite IH]. Qed.

Lemma append_nil_r (a : string) : a ++ "" = a.
Proof. induction a as [|x a IH]; cbn; [reflexivity|now rewrite IH]. Qed.

(** ** Machine integers *)

Lemma wrap_int_small (z : Z) : INT_MIN <= z <= INT_MAX -> wrap_int z = z.
Proof.
  unfold wrap_int, INT_MIN, INT_MAX; intros Hz.
  rewrite Z.mod_small; lia.
Qed.

Lemma wrap_int_range (z : Z) : INT_MIN <= wrap_int z <= INT_MAX.
Proof.
  unfold wrap_int, INT_MIN, INT_MAX.
  pose proof (Z.mod_pos_bound (z + 2147483648) 4294967296 eq_refl); lia.
Qed.

(** ** The baud walker *)

Lemma quot2_bounds (b : Z) :
  (0 <= b -> 0 <= Z.quot b 2 <= b) /\ (b <= 0 -> b <= Z.quot b 2 <= 0).
Proof.
  split; intros Hb.
  - split; [apply Z.quot_pos; lia|].
    destruct (Z.eq_dec b 0) as [->|]; [reflexivity|].
    apply Z.lt_le_incl, Z.quot_lt; lia.
  - rewrite <- (Z.opp_involutive b), Z.quot_opp_l by lia.
    assert (H0 : 0 <= - b) by lia.
    assert (Hq : 0 <= Z.quot (- b) 2) by (apply Z.quot_pos; lia).
    destruct (Z.eq_dec (- b) 0) as [->|]; [cbn; lia|].
    assert (Z.quot (- b) 2 < - b) by (apply Z.quot_lt; lia).
    lia.
Qed.

Lemma baud_down_range (b : Z) : 300 <= baud_down b <= 115200.
Proof.
  unfold baud_down.
  destruct (Z.gtb_spec b 115200) as [Hhi|Hhi]; [cbn; lia|].
  destruct (Z.eqb_spec b 57600) as [H576|H576]; [cbn; lia|].
  destruct (Z.ltb_spec (Z.quot b 2) 300) as [Hlo|Hlo]; [lia|].
  destruct (quot2_bounds b) as [Hpos Hneg].
  destruct (Z_le_gt_dec 0 b); lia.
Qed.

Lemma baud_up_range (b : Z) : b < 1073741824 -> 300 <= baud_up b <= 115200.
Proof.
  intros Hb; unfold baud_up.
  destruct (Z.ltb_spec b 300) as [Hlo|Hlo]; [cbn; lia|].
  destruct (Z.eqb_spec b 38400) as [H384|H384]; [cbn; lia|].
  rewrite wrap_int_small by (unfold INT_MIN, INT_MAX; lia).
  destruct (Z.gtb_spec (b * 2) 115200) as [Hhi|Hhi]; lia.
Qed.

Lemma baud_up_down_inner (b : Z) :
  In b baud_ladder -> b <> 300 -> b <> 115200 -> baud_up (baud_down b) = b.
Proof.
  unfold baud_ladder; cbn [In]; intros Hb Hlo Hhi.
  repeat (destruct Hb as [<-|Hb]; [first [reflexivity | contradiction]|]).
  contradiction.
Qed.

(** C6: walking the baud rate down and then up gives back every rate of the
    ladder that is not an end of it, and at the boundaries [baud_up 115200]
    stays at 115200, [baud_down 300] stays at 300, [baud_up 200] is 300 and
    [baud_up 38400] is 57600. *)
Theorem baud_walker_round_trip :
  Forall (fun b => baud_up (baud_down b) = b) (removelast (tl baud_ladder))
  /\ baud_up 115200 = 115200
  /\ baud_down 300 = 300
  /\ baud_up 200 = 300
  /\ baud_up 38400 = 57600.
Proof.
  split; [|repeat split; reflexivity].
  cbn [baud_ladder tl removelast].
  repeat constructor.
Qed.

(** C9, evaluated where it fails: above 2^30 the doubling in [baud_up]
    leaves the range of [int], the wrapped product is negative, passes the
    clamp at 115200 and is returned as it is.  Below 2^30 [baud_up] stays
    in range, and [baud_down] does so everywhere. *)
Theorem baud_up_overflow :
  baud_up 1073741824 = -2147483648
  /\ ~ (300 <= baud_up 1073741824 <= 115200)
  /\ (forall b, b < 1073741824 -> 300 <= baud_up b <= 115200)
  /\ (forall b, 300 <= baud_down b <= 115200).
Proof.
  split; [reflexivity|].
  split; [cbn; lia|].
  split; [exact baud_up_range | exact baud_down_range].
Qed.

(** ** The outbound queue *)

Lemma queue_byte_below_capacity (c : ascii) (m : machine) :
  0 <= len (tty_q m) < TTY_Q_SZ ->
  queue_byte c m =
    with_tty_q m {| len := len (tty_q m) + 1;
                    buff := upd (buff (tty_q m)) (len (tty_q m)) c |}.
Proof.
  unfold queue_byte, TTY_Q_SZ; intros Hlen.
  destruct (Z.leb_spec (len (tty_q m)) 256); [|lia].
  rewrite wrap_int_small by (unfold INT_MIN, INT_MAX; lia).
  reflexivity.
Qed.

(** With the queue at capacity the byte is still stored, one past the end
    of the array, and the length becomes 257; nothing is written to [STO]. *)
Lemma queue_byte_at_capacity (c : ascii) (m : machine) :
  len (tty_q m) = TTY_Q_SZ ->
  queue_byte c m =
    with_tty_q m {| len := 257; buff := upd (buff (tty_q m)) 256 c |}.
Proof.
  unfold queue_byte, TTY_Q_SZ; intros ->; reflexivity.
Qed.

(** The bell is rung one byte late, with 257 bytes queued. *)
Lemma queue_byte_beyond_capacity (c : ascii) (m : machine) :
  TTY_Q_SZ < len (tty_q m) ->
  queue_byte c m = fd_printf (str1 BEL) m.
Proof.
  unfold queue_byte; intros Hlen.
  destruct (Z.leb_spec (len (tty_q m)) TTY_Q_SZ); [lia|reflexivity].
Qed.

(** Whatever is typed, the length never passes 257. *)
Lemma queue_byte_len_bound (c : ascii) (m : machine) :
  0 <= len (tty_q m) <= 257 ->
  0 <= len (tty_q (queue_byte c m)) <= 257.
Proof.
  intros Hlen; unfold queue_byte, TTY_Q_SZ.
  destruct (Z.leb_spec (len (tty_q m)) 256); cbn [tty_q len with_tty_q fd_printf with_sto].
  - rewrite wrap_int_small by (unfold INT_MIN, INT_MAX; lia); lia.
  - exact Hlen.
Qed.

(** C1, evaluated where it fails: 257 bytes typed while the port takes
    nothing.  The 257th byte finds [tty_q.len = 256], passes the test
    [tty_q.len <= TTY_Q_SZ], is stored at index 256 of the 256-byte array
    and raises the length to 257; no bell reaches the terminal. *)
Theorem queue_overrun_by_one :
  exists m,
    loop (repeat (key "A") 257) boot = Continue m
    /\ len (tty_q m) = 257
    /\ TTY_Q_SZ < len (tty_q m)
    /\ buff (tty_q m) 256 = "A"%char
    /\ sto m = "".
Proof.
  eexists; split; [vm_compute; reflexivity|].
  repeat split; vm_compute; reflexivity.
Qed.

(** ** The status command *)

(** C3, evaluated where it fails: Ctrl-A Ctrl-V on the program as it
    starts.  The block shows the initial options, but [tty_time_enable] is
    initialised to 2, so its last line reads "timestamp: on"; the queue
    stays empty. *)
Theorem status_reports_timestamp_on :
  exists m,
    loop [key "001"; key KEY_STATUS] boot = Continue m
    /\ sto m = status_block "on"
    /\ contains "baud: 115200" (sto m) = true
    /\ contains "flow: none" (sto m) = true
    /\ contains "parity: none" (sto m) = true
    /\ contains "databits: 8" (sto m) = true
    /\ contains "dtr: down" (sto m) = true
    /\ contains "timestamp: on" (sto m) = true
    /\ contains "timestamp: off" (sto m) = false
    /\ len (tty_q m) = 0.
Proof.
  eexists; split; [vm_compute; reflexivity|].
  repeat split; vm_compute; reflexivity.
Qed.

(** The option [--timestamp] changes nothing in what the status command
    shows: the line reads "timestamp: on" with it and without it. *)
Example status_with_timestamp_option :
  exists m,
    loop [key "001"; key KEY_STATUS] (parse_args_t boot) = Continue m
    /\ sto m = status_block "on".
Proof.
  eexists; split; vm_compute; reflexivity.
Qed.

(** ** The escape byte *)

Lemma loop_iter_only_key (c : ascii) (e : env) (m : machine) :
  only_key c e ->
  loop_iter e m =
    match state m with
    | ST_COMMAND => loop_command e [] c (with_errno m (errno m))
    | ST_TRANSPARENT =>
        if (c =? escape (opts m))%char
        then Continue (with_state (with_errno m (errno m)) ST_COMMAND)
        else Continue (queue_byte c (with_errno m (errno m)))
    end.
Proof.
  intros (Hsel & Hrd & Hsti & Htty & Hwr).
  unfold loop_iter, loop_stdin.
  rewrite Hsel, Hrd, Hsti, Htty, Hwr; cbn [read_retry bind andb].
  destruct (state (with_errno m (errno m))) eqn:Hst; cbn in Hst; rewrite Hst.
  - destruct (loop_command e [] c (with_errno m (errno m))); reflexivity.
  - destruct (c =? escape (opts (with_errno m (errno m))))%char eqn:Hc;
      cbn in Hc; rewrite Hc; reflexivity.
Qed.

(** ** Bytes in memory *)

Lemma load_ext (k : nat) :
  forall (m1 m2 : mem) (f1 f2 : Z),
    (forall i, 0 <= i < Z.of_nat k -> m1 (f1 + i) = m2 (f2 + i)) ->
    load m1 f1 k = load m2 f2 k.
Proof.
  induction k as [|k IH]; intros m1 m2 f1 f2 Hsame; [reflexivity|].
  cbn [load]; f_equal.
  - specialize (Hsame 0); rewrite !Z.add_0_r in Hsame; apply Hsame; lia.
  - apply IH; intros i Hi.
    replace (f1 + 1 + i) with (f1 + (i + 1)) by lia.
    replace (f2 + 1 + i) with (f2 + (i + 1)) by lia.
    apply Hsame; lia.
Qed.

Lemma load_app (m : mem) (a : nat) :
  forall (from : Z) (b : nat),
    load m from (a + b) = load m from a ++ load m (from + Z.of_nat a) b.
Proof.
  induction a as [|a IH]; intros from b.
  - cbn; rewrite Z.add_0_r; reflexivity.
  - cbn [Nat.add load append]; rewrite IH; do 3 f_equal; lia.
Qed.

Lemma load_snoc (b : mem) (from : Z) (n : nat) :
  load b from (S n) = load b from n ++ str1 (b (from + Z.of_nat n)).
Proof.
  rewrite <- Nat.add_1_r, load_app; reflexivity.
Qed.

Lemma queued_after_queue_byte (c : ascii) (m : machine) :
  0 <= len (tty_q m) < TTY_Q_SZ ->
  queued (tty_q (queue_byte c m)) = queued (tty_q m) ++ str1 c.
Proof.
  intros Hlen; rewrite queue_byte_below_capacity by exact Hlen.
  unfold queued; cbn [tty_q with_tty_q len buff].
  replace (Z.to_nat (len (tty_q m) + 1)) with (S (Z.to_nat (len (tty_q m))))
    by lia.
  rewrite load_snoc; f_equal.
  - apply load_ext; intros i Hi; unfold upd.
    destruct (Z.eqb_spec (0 + i) (len (tty_q m))); [lia|reflexivity].
  - unfold upd.
    destruct (Z.eqb_spec (0 + Z.of_nat (Z.to_nat (len (tty_q m))))
                (len (tty_q m))); [reflexivity|lia].
Qed.

(** C5: from Transparent with room in the queue, typing the escape byte
    twice appends the one byte [E] to the queue: the bytes waiting are the
    ones before followed by [E], the length is one more, [E] sits at the
    old length and no other byte of the array has changed.  No command is
    executed: nothing is printed, no call is made, the options are the
    same, and the state is Transparent again. *)
Theorem escape_twice_is_literal (m : machine) (e1 e2 : env) :
  state m = ST_TRANSPARENT ->
  0 <= len (tty_q m) < TTY_Q_SZ ->
  only_key (escape (opts m)) e1 ->
  only_key (escape (opts m)) e2 ->
  exists m',
    loop_run [e1; e2] m = Continue m'
    /\ queued (tty_q m') = queued (tty_q m) ++ str1 (escape (opts m))
    /\ len (tty_q m') = len (tty_q m) + 1
    /\ buff (tty_q m') (len (tty_q m)) = escape (opts m)
    /\ (forall i, i <> len (tty_q m) ->
          buff (tty_q m') i = buff (tty_q m) i)
    /\ state m' = ST_TRANSPARENT
    /\ opts m' = opts m
    /\ sto m' = sto m
    /\ port_out m' = port_out m
    /\ trace m' = trace m
    /\ dtr_up m' = dtr_up m
    /\ tty_time m' = tty_time m
    /\ tty_time_enable m' = tty_time_enable m
    /\ tv_ref m' = tv_ref m
    /\ fname m' = fname m
    /\ errno m' = errno m.
Proof.
  intros Hst Hlen He1 He2.
  exists (queue_byte (escape (opts m)) m).
  split.
  { cbn [loop_run].
    rewrite (loop_iter_only_key _ e1 m He1), Hst, Ascii.eqb_refl.
    cbn [bind].
    rewrite (loop_iter_only_key (escape (opts m)) e2) by exact He2.
    cbn [state with_state with_errno].
    unfold loop_command.
    cbn [opts with_state with_errno].
    rewrite Ascii.eqb_refl.
    rewrite !queue_byte_below_capacity by exact Hlen.
    destruct m; cbn in *; subst; reflexivity. }
  split; [exact (queued_after_queue_byte _ m Hlen)|].
  rewrite queue_byte_below_capacity by exact Hlen.
  cbn [tty_q with_tty_q len buff state opts sto port_out trace dtr_up
       tty_time tty_time_enable tv_ref fname errno].
  split; [reflexivity|].
  split; [unfold upd; rewrite Z.eqb_refl; reflexivity|].
  split.
  { intros i Hi; unfold upd.
    destruct (Z.eqb_spec i (len (tty_q m))); [contradiction|reflexivity]. }
  repeat split; exact Hst.
Qed.

Lemma escape_twice_is_literal_witness :
  exists m',
    loop_run [key "001"; key "001"] boot = Continue m'
    /\ queued (tty_q m') = str1 "001"
    /\ len (tty_q m') = 1
    /\ buff (tty_q m') 0 = "001"%char
    /\ state m' = ST_TRANSPARENT
    /\ sto m' = ""
    /\ trace m' = [].
Proof.
  destruct (escape_twice_is_literal boot (key "001") (key "001"))
    as (m' & Hrun & Hq & Hl & Hb & _ & Hs & _ & Ho & _ & Ht & _).
  - reflexivity.
  - unfold TTY_Q_SZ; cbn; lia.
  - repeat split.
  - repeat split.
  - exists m'.
    split; [exact Hrun|].
    split; [exact Hq|].
    split; [exact Hl|].
    split; [exact Hb|].
    split; [exact Hs|].
    split; [exact Ho|exact Ht].
Defined.

(** With Ctrl-X as the escape byte, Ctrl-X Ctrl-X queues one Ctrl-X and
    does not leave the loop. *)
Example escape_twice_beats_exit_key :
  exists m,
    loop [key KEY_EXIT; key KEY_EXIT]
         (with_opts boot (with_escape opts_init KEY_EXIT)) = Continue m
    /\ queued (tty_q m) = str1 KEY_EXIT
    /\ state m = ST_TRANSPARENT
    /\ trace m = [].
Proof.
  eexists; split; [vm_compute; reflexivity|].
  repeat split.
Qed.

(** ** A stale [errno] *)

(** The retry loop of the write to [STO] looks at [errno] whether or not
    the write failed: once a prompt for a file name has been interrupted,
    the next byte from the port is written over and over. *)
Example stale_errno_hangs :
  exists m,
    loop
      [ key "001";
        {| e_select := None; e_rd_sti := true; e_rd_tty := false;
           e_wr_tty := false; e_sti := [RdByte KEY_SEND; RdErr EINTR];
           e_tty := []; e_now := t0; e_wr := [];
           e_term := fun _ => (0, 0); e_child := Exited 0;
           e_strerror := fun _ => "error";
           e_sto := []; e_memcpy := memcpy_ascending |};
        port_byte ("X"%char, t0) ] (with_tty_time_enable boot 0) = Hang m
    /\ errno m = EINTR.
Proof.
  eexists; split; vm_compute; reflexivity.
Qed.

(** ** Calls into the tty library *)

Lemma term_fst (e : env) (call : term_call) (m : machine) :
  fst (term e call m) = fst (e_term e call).
Proof. reflexivity. Qed.

Lemma term_opts (e : env) (call : term_call) (m : machine) :
  opts (snd (term e call m)) = opts m.
Proof. unfold term; destruct (fst (e_term e call) <? 0); reflexivity. Qed.

Lemma term_tty_q (e : env) (call : term_call) (m : machine) :
  tty_q (snd (term e call m)) = tty_q m.
Proof. unfold term; destruct (fst (e_term e call) <? 0); reflexivity. Qed.

Lemma term_sto (e : env) (call : term_call) (m : machine) :
  sto (snd (term e call m)) = sto m.
Proof. unfold term; destruct (fst (e_term e call) <? 0); reflexivity. Qed.

Lemma term_state (e : env) (call : term_call) (m : machine) :
  state (snd (term e call m)) = state m.
Proof. unfold term; destruct (fst (e_term e call) <? 0); reflexivity. Qed.

Lemma term_fname (e : env) (call : term_call) (m : machine) :
  fname (snd (term e call m)) = fname m.
Proof. unfold term; destruct (fst (e_term e call) <? 0); reflexivity. Qed.

Lemma term_trace (e : env) (call : term_call) (m : machine) :
  trace (snd (term e call m)) = app (trace m) [EvTerm call].
Proof. unfold term; destruct (fst (e_term e call) <? 0); reflexivity. Qed.

Create Rewrite HintDb term_fields.
#[local] Hint Rewrite term_opts term_tty_q term_sto term_state term_fname
  term_trace : term_fields.

(** Splits a checked call into its return value and the machine after it. *)
Ltac split_term r m0 :=
  match goal with
  | |- context [let (_, _) := term ?e ?call ?m in _] =>
      let Ht := fresh "Ht" in
      let Hr := fresh "Hr" in
      let Hm := fresh "Hm" in
      destruct (term e call m) as [r m0] eqn:Ht;
      assert (Hr : r = fst (e_term e call))
        by (rewrite <- (term_fst e call m), Ht; reflexivity);
      assert (Hm : m0 = snd (term e call m)) by (rewrite Ht; reflexivity);
      clear Ht; subst r m0
  end.

(** ** Reconfiguration when the driver refuses *)

(** C2, as amended: when [term_apply] on the port fails after one of the
    five reconfiguration keys, the options are left as they were, the queue
    is emptied, the interpreter is back in Transparent, and the line the
    key always prints is printed with the unchanged value. *)
Theorem failed_apply_keeps_options (e : env) (m : machine) (c : ascii)
    (rest : list read_result) :
  state m = ST_COMMAND ->
  reconfigure_key c ->
  c <> escape (opts m) ->
  e_sti e = RdByte c :: rest ->
  fst (e_term e (term_apply tty_fd)) < 0 ->
  exists m',
    loop_stdin e m = Continue m'
    /\ opts m' = opts m
    /\ sto m' = sto m ++ confirmation c (opts m)
    /\ len (tty_q m') = 0
    /\ state m' = ST_TRANSPARENT.
Proof.
  intros Hst Hkey Hesc Hsti Hfail.
  unfold loop_stdin; rewrite Hsti; cbn [read_retry].
  cbn [state with_errno]; rewrite Hst.
  unfold loop_command; cbn [opts with_errno with_state].
  apply Ascii.eqb_neq in Hesc; rewrite Hesc.
  assert (Hge : (fst (e_term e (term_apply tty_fd)) >=? 0) = false).
  { rewrite Z.geb_leb; apply Z.leb_gt; exact Hfail. }
  destruct Hkey as [-> | [-> | [-> | [-> | ->]]]];
    cbn [Ascii.eqb Bool.eqb KEY_EXIT KEY_QUIT KEY_STATUS KEY_PULSE KEY_TOGGLE
         KEY_BAUD_UP KEY_BAUD_DN KEY_FLOW KEY_PARITY KEY_BITS andb];
    try destruct (flow_next (flow (opts m))) as [newflow newflow_str];
    try destruct (parity_next (parity (opts m))) as [newparity newparity_str];
    split_term r m0; rewrite Hge;
    (eexists; split; [reflexivity|]);
    unfold fd_printf, clear_queue;
    cbn [opts tty_q sto state len with_sto with_tty_q];
    autorewrite with term_fields;
    cbn [opts tty_q sto state len with_sto with_tty_q with_state with_errno];
    autorewrite with term_fields;
    cbn [opts tty_q sto state len with_sto with_tty_q with_state with_errno];
    repeat split.
Qed.

Lemma failed_apply_keeps_options_witness :
  exists m',
    loop_stdin (typing KEY_FLOW "" is_apply_tty) (with_state boot ST_COMMAND)
      = Continue m'
    /\ opts m' = opts_init
    /\ sto m' = CRLF ++ "*** flow: none ***" ++ CRLF
    /\ len (tty_q m') = 0
    /\ state m' = ST_TRANSPARENT.
Proof.
  apply (failed_apply_keeps_options (typing KEY_FLOW "" is_apply_tty)
           (with_state boot ST_COMMAND) KEY_FLOW []).
  - reflexivity.
  - right; right; left; reflexivity.
  - discriminate.
  - reflexivity.
  - cbn; lia.
Defined.

(** C2 as stated fails: Ctrl-A Ctrl-U on the program as it starts, with
    [term_apply] on the port returning -1.  The options keep the baud rate
    115200, yet a line is written to the terminal. *)
Lemma failed_apply_still_prints :
  exists m',
    loop [key "001"; typing KEY_BAUD_UP "" is_apply_tty] boot = Continue m'
    /\ fst (e_term (typing KEY_BAUD_UP "" is_apply_tty) (term_apply tty_fd)) < 0
    /\ opts m' = opts boot
    /\ sto m' = CRLF ++ "*** baud: 115200 ***" ++ CRLF
    /\ sto m' <> sto boot.
Proof.
  eexists; split; [vm_compute; reflexivity|].
  split; [cbn; lia|].
  split; [reflexivity|].
  split; [reflexivity|].
  vm_compute; discriminate.
Qed.

(** ** The filename prompt *)

Lemma fd_readline_switch_inv (bsz : Z) (b0 : mem) (c : ascii) (s : rl_state) :
  1 <= bsz ->
  rl_inv bsz b0 s ->
  match fd_readline_switch bsz c s with
  | RlLoop s' => rl_inv bsz b0 s'
  | RlOut r s' =>
      r = rl_bp s' /\ 0 <= r <= bsz - 1 /\ rl_b s' r = NUL
      /\ (forall i, i < 0 \/ bsz <= i -> rl_b s' i = b0 i)
      /\ (forall i, i <> r -> rl_b s' i = rl_b s i)
  end.
Proof.
  intros Hbsz [Hbp Hmem]; unfold fd_readline_switch.
  destruct (c =? BS)%char.
  - destruct (Z.gtb_spec (rl_bp s) 0); split; cbn; try lia; exact Hmem.
  - destruct (c =? CR)%char.
    + cbn; repeat split; try lia.
      * unfold upd; rewrite Z.eqb_refl; reflexivity.
      * intros i Hi; unfold upd.
        destruct (Z.eqb_spec i (rl_bp s)); [lia|apply Hmem; lia].
      * intros i Hi; unfold upd.
        destruct (Z.eqb_spec i (rl_bp s)); [contradiction|reflexivity].
    + destruct (Z.ltb_spec (rl_bp s) (bsz - 1)); split; cbn; try lia;
        try exact Hmem.
      intros i Hi; unfold upd.
      destruct (Z.eqb_spec i (rl_bp s)); [lia|apply Hmem; lia].
Qed.

Lemma fd_readline_from_inv (bsz : Z) (b0 : mem) (fdi : list read_result) :
  1 <= bsz ->
  forall (en : Z) (s : rl_state) (res : rl_result),
    rl_inv bsz b0 s ->
    fd_readline_from fdi bsz en s = Some res ->
    rl_r res <= bsz - 1
    /\ 0 <= rl_bp (rl_end res) <= bsz - 1
    /\ (forall i, i < 0 \/ bsz <= i -> rl_b (rl_end res) i = b0 i)
    /\ (forall i, bsz - 1 <= i ->
          rl_b (rl_end res) i = b0 i
          \/ (i = bsz - 1 /\ rl_b (rl_end res) i = NUL)).
Proof.
  intros Hbsz; induction fdi as [|r fdi IH]; intros en s res Hinv Hrun.
  - discriminate.
  - destruct r as [c| |e]; cbn [fd_readline_from] in Hrun.
    + pose proof (fd_readline_switch_inv bsz b0 c s Hbsz Hinv) as Hstep.
      destruct (fd_readline_switch bsz c s) as [s'|r s'].
      * exact (IH en s' res Hstep Hrun).
      * injection Hrun as <-; cbn [rl_r rl_end].
        destruct Hinv as [Hbp Hmem].
        destruct Hstep as (Hr & Hrange & Hnul & Hout & Hsame).
        repeat split; try lia; [exact Hout|].
        intros i Hi.
        destruct (Z.eq_dec i r) as [->|Hne].
        -- right; split; [lia|exact Hnul].
        -- left; rewrite Hsame by exact Hne; apply Hmem; lia.
    + injection Hrun as <-; cbn [rl_r rl_end].
      destruct Hinv as [Hbp Hmem].
      repeat split; try lia.
      * intros i Hi; apply Hmem; lia.
      * intros i Hi; left; apply Hmem; lia.
    + injection Hrun as <-; cbn [rl_r rl_end].
      destruct Hinv as [Hbp Hmem].
      repeat split; try lia.
      * intros i Hi; apply Hmem; lia.
      * intros i Hi; left; apply Hmem; lia.
Qed.

(** The prompt returns as soon as the user ends the line, the terminal is
    closed or a read fails. *)
Lemma fd_readline_from_returns (bsz : Z) (fdi : list read_result) :
  (In (RdByte CR) fdi \/ In RdEof fdi \/ exists e, In (RdErr e) fdi) ->
  forall (en : Z) (s : rl_state),
    exists res, fd_readline_from fdi bsz en s = Some res.
Proof.
  induction fdi as [|r fdi IH]; intros Hend en s.
  - destruct Hend as [[]|[[]|[e []]]].
  - destruct r as [c| |e]; cbn [fd_readline_from]; try (eexists; reflexivity).
    destruct (fd_readline_switch bsz c s) as [s'|r s'] eqn:Hsw;
      [|eexists; reflexivity].
    apply IH.
    destruct Hend as [[Hc|Hin]|[[Hc|Hin]|[e [Hc|Hin]]]];
      try discriminate; try (left; exact Hin);
      try (right; left; exact Hin);
      try (right; right; exists e; exact Hin).
    injection Hc as ->.
    unfold fd_readline_switch in Hsw; cbn in Hsw; discriminate.
Qed.

(** A line of plain bytes that fits is stored as typed, echoed as typed,
    and ended by a NUL. *)
Lemma fd_readline_from_plain (line : string) :
  forall (rest : list read_result) (bsz en : Z) (s : rl_state),
    Forall plain (list_ascii_of_string line) ->
    0 <= rl_bp s ->
    rl_bp s + Z.of_nat (String.length line) <= bsz - 1 ->
    exists res,
      fd_readline_from
        (app (map RdByte (list_ascii_of_string line)) (RdByte CR :: rest))
        bsz en s = Some res
      /\ rl_r res = rl_bp s + Z.of_nat (String.length line)
      /\ rl_fdo (rl_end res) = rl_fdo s ++ line
      /\ rl_errno res = en
      /\ rl_rest res = rest
      /\ load (rl_b (rl_end res)) (rl_bp s) (String.length line) = line
      /\ rl_b (rl_end res) (rl_bp s + Z.of_nat (String.length line)) = NUL
      /\ (forall i, i < rl_bp s -> rl_b (rl_end res) i = rl_b s i).
Proof.
  induction line as [|c line IH]; intros rest bsz en s Hplain Hbp Hfit.
  - cbn [list_ascii_of_string map app fd_readline_from].
    unfold fd_readline_switch; cbn [Ascii.eqb Bool.eqb CR BS andb].
    eexists; split; [reflexivity|].
    cbn [rl_r rl_end rl_fdo rl_errno rl_rest rl_b rl_bp String.length load].
    rewrite append_nil_r, Z.add_0_r.
    repeat split.
    + unfold upd; rewrite Z.eqb_refl; reflexivity.
    + intros i Hi; unfold upd.
      destruct (Z.eqb_spec i (rl_bp s)); [lia|reflexivity].
  - cbn [list_ascii_of_string map app fd_readline_from].
    cbn [list_ascii_of_string] in Hplain.
    apply Forall_cons_iff in Hplain; destruct Hplain as [(Hbs & Hcr & Hnul) Hplain].
    cbn [String.length] in Hfit |- *.
    unfold fd_readline_switch.
    apply Ascii.eqb_neq in Hbs, Hcr; rewrite Hbs, Hcr.
    destruct (Z.ltb_spec (rl_bp s) (bsz - 1)); [|lia].
    set (s1 := cput c _).
    destruct (IH rest bsz en s1 Hplain) as
      (res & Hrun & Hr & Hfdo & Hen & Hrest & Hload & Hend & Hlow);
      [cbn; lia | cbn; lia |].
    exists res; split; [exact Hrun|].
    cbn [rl_bp rl_b rl_fdo s1 cput] in Hr, Hfdo, Hload, Hend, Hlow.
    split; [rewrite Hr; lia|].
    split; [rewrite Hfdo, append_assoc; reflexivity|].
    split; [exact Hen|].
    split; [exact Hrest|].
    split; [|split].
    + cbn [load]; rewrite Hload, Hlow by lia.
      unfold upd; rewrite Z.eqb_refl; reflexivity.
    + rewrite <- Hend; f_equal; lia.
    + intros i Hi; rewrite Hlow by lia.
      unfold upd; destruct (Z.eqb_spec i (rl_bp s)); [lia|reflexivity].
Qed.

(** A run of plain bytes that fits is stored and echoed as typed, and the
    prompt goes on reading. *)
Lemma fd_readline_from_run (line : string) :
  forall (rest : list read_result) (bsz en : Z) (s : rl_state),
    Forall plain (list_ascii_of_string line) ->
    0 <= rl_bp s ->
    rl_bp s + Z.of_nat (String.length line) <= bsz - 1 ->
    exists s',
      fd_readline_from
        (app (map RdByte (list_ascii_of_string line)) rest) bsz en s
        = fd_readline_from rest bsz en s'
      /\ rl_bp s' = rl_bp s + Z.of_nat (String.length line)
      /\ rl_fdo s' = rl_fdo s ++ line
      /\ load (rl_b s') (rl_bp s) (String.length line) = line
      /\ (forall i, i < rl_bp s -> rl_b s' i = rl_b s i).
Proof.
  induction line as [|c line IH]; intros rest bsz en s Hplain Hbp Hfit.
  - exists s; cbn [list_ascii_of_string map app String.length load].
    rewrite append_nil_r, Z.add_0_r; repeat split.
  - cbn [list_ascii_of_string map app fd_readline_from].
    cbn [list_ascii_of_string] in Hplain.
    apply Forall_cons_iff in Hplain; destruct Hplain as [(Hbs & Hcr & Hnul) Hplain].
    cbn [String.length] in Hfit |- *.
    unfold fd_readline_switch.
    apply Ascii.eqb_neq in Hbs, Hcr; rewrite Hbs, Hcr.
    destruct (Z.ltb_spec (rl_bp s) (bsz - 1)); [|lia].
    set (s1 := cput c _).
    destruct (IH rest bsz en s1 Hplain) as (s' & Hrun & Hp & Hfdo & Hload & Hlow);
      [cbn; lia | cbn; lia |].
    exists s'; split; [exact Hrun|].
    cbn [rl_bp rl_b rl_fdo s1 cput] in Hp, Hfdo, Hload, Hlow.
    split; [rewrite Hp; lia|].
    split; [rewrite Hfdo, append_assoc; reflexivity|].
    split.
    + cbn [load]; rewrite Hload, Hlow by lia.
      unfold upd; rewrite Z.eqb_refl; reflexivity.
    + intros i Hi; rewrite Hlow by lia.
      unfold upd; destruct (Z.eqb_spec i (rl_bp s)); [lia|reflexivity].
Qed.

(** C10: for a buffer of [bsz >= 1] bytes, [fd_readline] keeps its write
    position within the first [bsz - 1] bytes at every byte it handles and
    stores nothing at index [bsz - 1] or outside the buffer, except the
    terminating NUL at an index of at most [bsz - 1]; a byte that finds the
    buffer full is dropped: the one byte BEL is written to [fdo], and
    neither buffer nor position changes; a backspace on the empty buffer
    writes the one byte BEL to [fdo], with no erasure sequence, and leaves
    the buffer and the position. *)
Theorem fd_readline_stays_in_buffer (bsz : Z) (Hbsz : 1 <= bsz) :
  (forall b0 fdo, rl_inv bsz b0 {| rl_bp := 0; rl_b := b0; rl_fdo := fdo |})
  /\ (forall b0 c s, rl_inv bsz b0 s ->
        match fd_readline_switch bsz c s with
        | RlLoop s' => rl_inv bsz b0 s'
        | RlOut r s' => 0 <= r <= bsz - 1
        end)
  /\ (forall fdi fdo b0 en res,
        fd_readline fdi fdo b0 bsz en = Some res ->
        rl_r res <= bsz - 1
        /\ 0 <= rl_bp (rl_end res) <= bsz - 1
        /\ (forall i, i < 0 \/ bsz <= i -> rl_b (rl_end res) i = b0 i)
        /\ (forall i, bsz - 1 <= i ->
              rl_b (rl_end res) i = b0 i
              \/ (i = bsz - 1 /\ rl_b (rl_end res) i = NUL)))
  /\ (forall c s, rl_bp s = bsz - 1 -> c <> BS -> c <> CR ->
        exists s',
          fd_readline_switch bsz c s = RlLoop s'
          /\ rl_fdo s' = rl_fdo s ++ str1 BEL
          /\ rl_bp s' = rl_bp s
          /\ (forall i, rl_b s' i = rl_b s i))
  /\ (forall s, rl_bp s = 0 ->
        exists s',
          fd_readline_switch bsz BS s = RlLoop s'
          /\ rl_fdo s' = rl_fdo s ++ str1 BEL
          /\ rl_bp s' = 0
          /\ (forall i, rl_b s' i = rl_b s i))
  /\ (forall fdo b0 en line c rest,
        Forall plain (list_ascii_of_string line) ->
        Z.of_nat (String.length line) = bsz - 1 ->
        c <> BS -> c <> CR ->
        exists res,
          fd_readline
            (app (map RdByte (list_ascii_of_string line))
                 (RdByte c :: RdByte CR :: rest)) fdo b0 bsz en = Some res
          /\ rl_r res = bsz - 1
          /\ rl_fdo (rl_end res) = fdo ++ line ++ str1 BEL
          /\ load (rl_b (rl_end res)) 0 (String.length line) = line
          /\ rl_b (rl_end res) (bsz - 1) = NUL)
  /\ (forall fdo b0 en rest,
        exists res,
          fd_readline (RdByte BS :: RdByte CR :: rest) fdo b0 bsz en
            = Some res
          /\ rl_r res = 0
          /\ rl_fdo (rl_end res) = fdo ++ str1 BEL
          /\ rl_b (rl_end res) 0 = NUL
          /\ (forall i, i <> 0 -> rl_b (rl_end res) i = b0 i)).
Proof.
  assert (Hinit : forall b0 fdo,
             rl_inv bsz b0 {| rl_bp := 0; rl_b := b0; rl_fdo := fdo |}).
  { intros b0 fdo; split; cbn; [lia|reflexivity]. }
  assert (Hfull : forall c s, rl_bp s = bsz - 1 -> c <> BS -> c <> CR ->
             fd_readline_switch bsz c s = RlLoop (cput BEL s)).
  { intros c s Hfull Hbs Hcr; unfold fd_readline_switch.
    apply Ascii.eqb_neq in Hbs, Hcr; rewrite Hbs, Hcr.
    destruct (Z.ltb_spec (rl_bp s) (bsz - 1)); [lia|reflexivity]. }
  assert (Hempty : forall s, rl_bp s = 0 ->
             fd_readline_switch bsz BS s = RlLoop (cput BEL s)).
  { intros s Hempty; unfold fd_readline_switch.
    rewrite Ascii.eqb_refl, Hempty; reflexivity. }
  split; [exact Hinit|].
  split.
  { intros b0 c s Hinv.
    pose proof (fd_readline_switch_inv bsz b0 c s Hbsz Hinv) as Hstep.
    destruct (fd_readline_switch bsz c s); [exact Hstep|tauto]. }
  split.
  { intros fdi fdo b0 en res Hrun.
    exact (fd_readline_from_inv bsz b0 fdi Hbsz en _ res (Hinit b0 fdo) Hrun). }
  split.
  { intros c s Hf Hbs Hcr; exists (cput BEL s).
    split; [exact (Hfull c s Hf Hbs Hcr)|].
    cbn [cput rl_fdo rl_bp rl_b]; repeat split. }
  split.
  { intros s He; exists (cput BEL s).
    split; [exact (Hempty s He)|].
    cbn [cput rl_fdo rl_bp rl_b]; repeat split; exact He. }
  split.
  { intros fdo b0 en line c rest Hplain Hlen Hbs Hcr.
    unfold fd_readline.
    set (s0 := {| rl_bp := 0; rl_b := b0; rl_fdo := fdo |}).
    destruct (fd_readline_from_run line
                (RdByte c :: RdByte CR :: rest) bsz en s0 Hplain)
      as (s1 & Hrun & Hbp & Hfdo & Hload & Hlow); [cbn; lia|cbn; lia|].
    cbn [rl_bp rl_fdo s0] in Hbp, Hfdo, Hload.
    rewrite Hrun; cbn [fd_readline_from].
    rewrite (Hfull c s1) by (try assumption; lia).
    unfold fd_readline_switch at 1; cbn [cput rl_bp rl_b rl_fdo].
    change (CR =? BS)%char with false; rewrite Ascii.eqb_refl.
    eexists; split; [reflexivity|].
    cbn [rl_r rl_end rl_fdo rl_b].
    split; [lia|].
    split; [rewrite Hfdo, append_assoc; reflexivity|].
    split.
    - rewrite <- Hload at 2; apply load_ext; intros i Hi; unfold upd.
      destruct (Z.eqb_spec (0 + i) (rl_bp s1)); [lia|reflexivity].
    - unfold upd; rewrite Hbp, Z.add_0_l, Hlen, Z.eqb_refl; reflexivity. }
  intros fdo b0 en rest.
  unfold fd_readline; cbn [fd_readline_from].
  rewrite Hempty by reflexivity.
  unfold fd_readline_switch; cbn [cput rl_bp rl_b rl_fdo].
  change (CR =? BS)%char with false; rewrite Ascii.eqb_refl.
  eexists; split; [reflexivity|].
  cbn [rl_r rl_end rl_fdo rl_b].
  split; [reflexivity|].
  split; [reflexivity|].
  split; [unfold upd; rewrite Z.eqb_refl; reflexivity|].
  intros i Hi; unfold upd.
  destruct (Z.eqb_spec i 0); [contradiction|reflexivity].
Qed.

Lemma fd_readline_stays_in_buffer_witness :
  1 <= 3
  /\ (exists res,
        fd_readline [RdByte "a"; RdByte "b"; RdByte "c"; RdByte CR]
          "" zero_mem 3 0 = Some res
        /\ rl_r res = 2
        /\ rl_fdo (rl_end res) = "ab" ++ str1 BEL
        /\ load (rl_b (rl_end res)) 0 2 = "ab"
        /\ rl_b (rl_end res) 2 = NUL)
  /\ (exists res,
        fd_readline [RdByte BS; RdByte CR] "" zero_mem 3 0 = Some res
        /\ rl_r res = 0
        /\ rl_fdo (rl_end res) = str1 BEL
        /\ rl_b (rl_end res) 0 = NUL).
Proof.
  assert (H3 : 1 <= 3) by lia.
  destruct (fd_readline_stays_in_buffer 3 H3)
    as (_ & _ & _ & _ & _ & Hfull & Hempty).
  split; [exact H3|].
  split.
  - destruct (Hfull "" zero_mem 0 "ab" "c"%char [])
      as (res & Hrun & Hr & Hfdo & Hload & Hnul).
    + repeat constructor; discriminate.
    + reflexivity.
    + discriminate.
    + discriminate.
    + exists res; split; [exact Hrun|].
      split; [exact Hr|].
      split; [exact Hfdo|].
      split; [exact Hload|exact Hnul].
  - destruct (Hempty "" zero_mem 0 []) as (res & Hrun & Hr & Hfdo & Hnul & _).
    exists res; split; [exact Hrun|].
    split; [exact Hr|].
    split; [exact Hfdo|exact Hnul].
Defined.

(** ** The hand-off to the transfer programs *)

Lemma handoffs_app (a b : list event) :
  handoffs (app a b) = app (handoffs a) (handoffs b).
Proof.
  induction a as [|ev a IH]; [reflexivity|].
  destruct ev; cbn [app handoffs]; rewrite IH; reflexivity.
Qed.

Lemma run_cmd_handoffs (e : env) (args : list string) (m : machine) :
  handoffs (trace (run_cmd e args m)) = app (handoffs (trace m)) [args].
Proof.
  unfold run_cmd, fd_printf.
  destruct (e_child e); cbn [trace with_sto with_errno with_trace];
    autorewrite with term_fields; cbn [trace with_trace];
    repeat rewrite handoffs_app; cbn [handoffs];
    repeat rewrite app_nil_r; reflexivity.
Qed.

Lemma run_cmd_fname (e : env) (args : list string) (m : machine) :
  fname (run_cmd e args m) = fname m.
Proof.
  unfold run_cmd, fd_printf.
  destruct (e_child e); cbn [fname with_sto with_errno with_trace];
    autorewrite with term_fields; reflexivity.
Qed.

Lemma c_str_head (b : mem) (from : Z) (n : nat) :
  c_str b from (S n) =
    if (b from =? NUL)%char then EmptyString
    else String (b from) (c_str b (from + 1) n).
Proof. reflexivity. Qed.

(** With two short arguments nothing is cut from the command line. *)
Lemma build_cmd_two (a b : string) :
  Z.of_nat (String.length a) <= 127 ->
  Z.of_nat (String.length b) <= 127 ->
  build_cmd [a; b] "" = a ++ " " ++ b ++ " ".
Proof.
  intros Ha Hb; cbn [build_cmd String.length append].
  destruct (Z.geb_spec (Z.of_nat 0 + Z.of_nat (String.length a) + 1) 511);
    [lia|].
  assert (Hlen : String.length (a ++ " ") = S (String.length a)).
  { clear; induction a as [|c a IH]; cbn; [reflexivity|now rewrite IH]. }
  rewrite Hlen.
  destruct (Z.geb_spec
              (Z.of_nat (S (String.length a)) + Z.of_nat (String.length b) + 1)
              511); [lia|].
  clear; induction a as [|c a IH]; cbn; [reflexivity|now rewrite IH].
Qed.

Lemma c_str_load (line : string) :
  forall (b : mem) (from : Z) (n : nat),
    load b from (String.length line) = line ->
    Forall plain (list_ascii_of_string line) ->
    b (from + Z.of_nat (String.length line)) = NUL ->
    (String.length line < n)%nat ->
    c_str b from n = line.
Proof.
  induction line as [|c line IH]; intros b from n Hload Hplain Hend Hn.
  - destruct n as [|n]; [lia|].
    cbn [String.length Z.of_nat] in Hend; rewrite Z.add_0_r in Hend.
    rewrite c_str_head, Hend; reflexivity.
  - destruct n as [|n]; [lia|].
    cbn [String.length load list_ascii_of_string] in Hload, Hplain, Hend, Hn.
    injection Hload as Hc Hload.
    apply Forall_cons_iff in Hplain; destruct Hplain as [(_ & _ & Hnul) Hplain].
    rewrite c_str_head, Hc.
    apply Ascii.eqb_neq in Hnul; rewrite Hnul; f_equal.
    apply IH; [exact Hload|exact Hplain| |lia].
    rewrite <- Hend; f_equal; lia.
Qed.

(** The [KEY_RECEIVE] branch once the prompt has returned a line. *)
Lemma receive_key_calls_run_cmd (e : env) (m : machine)
    (rest : list read_result) (res : rl_result) :
  state m = ST_COMMAND ->
  escape (opts m) <> KEY_RECEIVE ->
  e_sti e = RdByte KEY_RECEIVE :: rest ->
  fd_readline rest (sto m ++ "*** file: ") (fname m) 128 (errno m) = Some res ->
  0 <= rl_r res ->
  exists m',
    loop_stdin e m = Continue m'
    /\ fname m' = rl_b (rl_end res)
    /\ handoffs (trace m') =
         app (handoffs (trace m))
           [match c_str (fname m') 0 128 with
            | EmptyString => [receive_cmd (opts m)]
            | String _ _ as name => [send_cmd (opts m); name]
            end].
Proof.
  intros Hst Hesc Hsti Hline Hr.
  unfold loop_stdin; rewrite Hsti; cbn [read_retry].
  cbn [state with_errno]; rewrite Hst.
  unfold loop_command; cbn [opts with_errno with_state].
  assert (Hne : (KEY_RECEIVE =? escape (opts m))%char = false).
  { apply Ascii.eqb_neq; congruence. }
  rewrite Hne.
  cbn [Ascii.eqb Bool.eqb KEY_EXIT KEY_QUIT KEY_STATUS KEY_PULSE KEY_TOGGLE
       KEY_BAUD_UP KEY_BAUD_DN KEY_FLOW KEY_PARITY KEY_BITS KEY_SEND
       KEY_RECEIVE andb].
  unfold read_fname, fd_printf.
  cbn [sto fname errno with_sto with_state with_errno].
  rewrite Hline.
  destruct (Z.ltb_spec (rl_r res) (-1)); [lia|].
  destruct (Z.leb_spec (rl_r res) (-1)); [lia|].
  cbn [andb].
  eexists; split; [reflexivity|].
  cbn [fname opts trace with_sto with_fname with_errno with_state].
  destruct (rl_b (rl_end res) 0 =? NUL)%char eqn:Hhead;
    rewrite run_cmd_fname, run_cmd_handoffs;
    cbn [fname opts trace with_sto with_fname with_errno with_state];
    rewrite (c_str_head _ 0 127), Hhead; split; reflexivity.
Qed.

(** A plain, non-empty name typed at the prompt of Ctrl-R and ended with a
    carriage return is handed to [run_cmd] behind [send_cmd]. *)
Lemma receive_key_sends_typed_name (e : env) (m : machine) (name : string)
    (rest : list read_result) :
  state m = ST_COMMAND ->
  escape (opts m) <> KEY_RECEIVE ->
  name <> "" ->
  Forall plain (list_ascii_of_string name) ->
  (String.length name <= 127)%nat ->
  e_sti e = RdByte KEY_RECEIVE
            :: app (map RdByte (list_ascii_of_string name)) (RdByte CR :: rest) ->
  exists m',
    loop_stdin e m = Continue m'
    /\ handoffs (trace m') =
         app (handoffs (trace m)) [[send_cmd (opts m); name]].
Proof.
  intros Hst Hesc Hname Hplain Hlen Hsti.
  destruct (fd_readline_from_plain name rest 128 (errno m)
              {| rl_bp := 0; rl_b := fname m;
                 rl_fdo := sto m ++ "*** file: " |} Hplain)
    as (res & Hrun & Hr & _ & _ & _ & Hload & Hend & _);
    [cbn; lia | cbn; lia |].
  cbn [rl_bp] in Hr, Hload, Hend.
  destruct (receive_key_calls_run_cmd e m _ res Hst Hesc Hsti Hrun)
    as (m' & Hstep & Hfname & Hcalls); [lia|].
  exists m'; split; [exact Hstep|].
  rewrite Hcalls, Hfname.
  rewrite (c_str_load name _ 0 128 Hload Hplain Hend) by lia.
  destruct name; [contradiction|reflexivity].
Qed.

(** C7: once the prompt of Ctrl-R has returned a line, [run_cmd] is called
    once: with [receive_cmd] alone when the file name is the empty string,
    and with [send_cmd] followed by the file name otherwise. *)
Theorem receive_key_handoff (e : env) (m : machine)
    (rest : list read_result) (res : rl_result) :
  state m = ST_COMMAND ->
  escape (opts m) <> KEY_RECEIVE ->
  e_sti e = RdByte KEY_RECEIVE :: rest ->
  fd_readline rest (sto m ++ "*** file: ") (fname m) 128 (errno m) = Some res ->
  0 <= rl_r res ->
  exists m',
    loop_stdin e m = Continue m'
    /\ fname m' = rl_b (rl_end res)
    /\ handoffs (trace m') =
         app (handoffs (trace m))
           [match c_str (fname m') 0 128 with
            | EmptyString => [receive_cmd (opts m)]
            | String _ _ as name => [send_cmd (opts m); name]
            end].
Proof. exact (receive_key_calls_run_cmd e m rest res). Qed.

Lemma receive_key_handoff_witness :
  exists m',
    loop_stdin (typing KEY_RECEIVE ("ab" ++ str1 CR) (fun _ => false))
               (with_state boot ST_COMMAND) = Continue m'
    /\ handoffs (trace m') = [["ascii_xfr -s -v -l10"; "ab"]].
Proof.
  edestruct (receive_key_handoff
               (typing KEY_RECEIVE ("ab" ++ str1 CR) (fun _ => false))
               (with_state boot ST_COMMAND))
    as (m' & Hrun & Hname & Hcall).
  - reflexivity.
  - discriminate.
  - reflexivity.
  - vm_compute; reflexivity.
  - vm_compute; discriminate.
  - exists m'; split; [exact Hrun|].
    rewrite Hcall, Hname; vm_compute; reflexivity.
Defined.

(** An empty line at the prompt of Ctrl-R hands off with [receive_cmd]. *)
Example receive_key_empty_line :
  exists m',
    loop [key "001"; typing KEY_RECEIVE (str1 CR) (fun _ => false)] boot
      = Continue m'
    /\ handoffs (trace m') = [["rz -vv"]].
Proof.
  eexists; split; vm_compute; reflexivity.
Qed.

(** ** Draining the queue *)

(** The ascending copy towards lower addresses: the [k] bytes from [s] land
    at [d], and nothing else moves, overlap or not. *)
Lemma memcpy_ascending_down (k : nat) :
  forall (m : mem) (d s : Z),
    d <= s ->
    (forall i, 0 <= i < Z.of_nat k ->
       memcpy_ascending m d s k (d + i) = m (s + i))
    /\ (forall j, j < d \/ d + Z.of_nat k <= j ->
          memcpy_ascending m d s k j = m j).
Proof.
  induction k as [|k IH]; intros m d s Hds.
  - split; [intros i Hi; lia|reflexivity].
  - cbn [memcpy_ascending].
    destruct (IH (upd m d (m s)) (d + 1) (s + 1) ltac:(lia)) as [Hin Hout].
    split.
    + intros i Hi.
      destruct (Z.eq_dec i 0) as [->|Hne].
      * rewrite !Z.add_0_r, Hout by lia.
        unfold upd; rewrite Z.eqb_refl; reflexivity.
      * replace (d + i) with (d + 1 + (i - 1)) by lia.
        rewrite Hin by lia.
        unfold upd; destruct (Z.eqb_spec (s + 1 + (i - 1)) d); [lia|].
        f_equal; lia.
    + intros j Hj; rewrite Hout by lia.
      unfold upd; destruct (Z.eqb_spec j d); [lia|reflexivity].
Qed.

(** Both libraries do what ISO C asks of [memcpy]. *)
Lemma memcpy_ascending_conforms : memcpy_conforms memcpy_ascending.
Proof.
  intros m dst src n; revert m dst src.
  induction n as [|n IH]; intros m dst src Hdis.
  - split; [intros i Hi; lia|reflexivity].
  - cbn [memcpy_ascending].
    destruct (IH (upd m dst (m src)) (dst + 1) (src + 1) ltac:(lia))
      as [Hin Hout].
    split.
    + intros i Hi.
      destruct (Z.eq_dec i 0) as [->|Hne].
      * rewrite !Z.add_0_r, Hout by lia.
        unfold upd; rewrite Z.eqb_refl; reflexivity.
      * replace (dst + i) with (dst + 1 + (i - 1)) by lia.
        rewrite Hin by lia.
        unfold upd; destruct (Z.eqb_spec (src + 1 + (i - 1)) dst); [lia|].
        f_equal; lia.
    + intros j Hj; rewrite Hout by lia.
      unfold upd; destruct (Z.eqb_spec j dst); [lia|reflexivity].
Qed.

Lemma memcpy_descending_conforms : memcpy_conforms memcpy_descending.
Proof.
  intros m dst src n; revert m.
  induction n as [|n IH]; intros m Hdis.
  - split; [intros i Hi; lia|reflexivity].
  - cbn [memcpy_descending].
    destruct (IH (upd m (dst + Z.of_nat n) (m (src + Z.of_nat n)))
                ltac:(lia)) as [Hin Hout].
    split.
    + intros i Hi.
      destruct (Z.eq_dec i (Z.of_nat n)) as [->|Hne].
      * rewrite Hout by lia.
        unfold upd; rewrite Z.eqb_refl; reflexivity.
      * rewrite Hin by lia.
        unfold upd; destruct (Z.eqb_spec (src + i) (dst + Z.of_nat n));
          [lia|reflexivity].
    + intros j Hj; rewrite Hout by lia.
      unfold upd; destruct (Z.eqb_spec j (dst + Z.of_nat n)); [lia|reflexivity].
Qed.

(** The write to the port when [memcpy] has moved the bytes that stay to
    the front: the queue before is what was written followed by the queue
    after. *)
Lemma port_write_shifts (e : env) (m : machine) (n en : Z) :
  write_retry (e_wr e) (errno m) = Some (WrOk n, en) ->
  1 <= n <= len (tty_q m) ->
  len (tty_q m) <= INT_MAX ->
  (forall i, 0 <= i < len (tty_q m) - n ->
     e_memcpy e (buff (tty_q m)) 0 n (Z.to_nat (len (tty_q m) - n)) i
     = buff (tty_q m) (n + i)) ->
  exists m',
    loop_port_write e m = Continue m'
    /\ len (tty_q m') = len (tty_q m) - n
    /\ (forall i, 0 <= i < len (tty_q m) - n ->
          buff (tty_q m') i = buff (tty_q m) (n + i))
    /\ port_out m' = port_out m ++ load (buff (tty_q m)) 0 (Z.to_nat n)
    /\ queued (tty_q m) =
         load (buff (tty_q m)) 0 (Z.to_nat n) ++ queued (tty_q m').
Proof.
  intros Hwr Hn Hint Hshift.
  unfold loop_port_write; rewrite Hwr.
  destruct (Z.leb_spec n 0); [lia|].
  eexists; split; [reflexivity|].
  cbn [tty_q len buff port_out with_tty_q with_port_out with_errno].
  assert (Hlen : wrap_int (len (tty_q m) - n) = len (tty_q m) - n).
  { apply wrap_int_small; unfold INT_MIN, INT_MAX in *; lia. }
  rewrite Hlen.
  repeat split; [exact Hshift|].
  unfold queued; cbn [len buff].
  replace (Z.to_nat (len (tty_q m)))
    with (Z.to_nat n + Z.to_nat (len (tty_q m) - n))%nat by lia.
  rewrite load_app; f_equal.
  apply load_ext; intros i Hi.
  rewrite Z.add_0_l, Hshift by lia.
  f_equal; lia.
Qed.

(** So it is whenever the regions of the [memcpy] do not overlap, that is
    when at least half of the queue was written, and with a library that
    copies from the lowest address up. *)
Lemma port_write_shifts_disjoint (e : env) (m : machine) (n en : Z) :
  memcpy_conforms (e_memcpy e) ->
  write_retry (e_wr e) (errno m) = Some (WrOk n, en) ->
  1 <= n <= len (tty_q m) ->
  len (tty_q m) - n <= n ->
  len (tty_q m) <= INT_MAX ->
  exists m',
    loop_port_write e m = Continue m'
    /\ len (tty_q m') = len (tty_q m) - n
    /\ (forall i, 0 <= i < len (tty_q m) - n ->
          buff (tty_q m') i = buff (tty_q m) (n + i))
    /\ port_out m' = port_out m ++ load (buff (tty_q m)) 0 (Z.to_nat n)
    /\ queued (tty_q m) =
         load (buff (tty_q m)) 0 (Z.to_nat n) ++ queued (tty_q m').
Proof.
  intros Hc Hwr Hn Hhalf Hint.
  apply (port_write_shifts e m n en Hwr Hn Hint).
  intros i Hi.
  destruct (Hc (buff (tty_q m)) 0 n (Z.to_nat (len (tty_q m) - n))
              ltac:(lia)) as [Hin _].
  rewrite <- (Hin i) by lia; reflexivity.
Qed.

Lemma port_write_shifts_ascending (e : env) (m : machine) (n en : Z) :
  e_memcpy e = memcpy_ascending ->
  write_retry (e_wr e) (errno m) = Some (WrOk n, en) ->
  1 <= n <= len (tty_q m) ->
  len (tty_q m) <= INT_MAX ->
  exists m',
    loop_port_write e m = Continue m'
    /\ len (tty_q m') = len (tty_q m) - n
    /\ (forall i, 0 <= i < len (tty_q m) - n ->
          buff (tty_q m') i = buff (tty_q m) (n + i))
    /\ port_out m' = port_out m ++ load (buff (tty_q m)) 0 (Z.to_nat n)
    /\ queued (tty_q m) =
         load (buff (tty_q m)) 0 (Z.to_nat n) ++ queued (tty_q m').
Proof.
  intros Hc Hwr Hn Hint.
  apply (port_write_shifts e m n en Hwr Hn Hint).
  intros i Hi; rewrite Hc.
  destruct (memcpy_ascending_down (Z.to_nat (len (tty_q m) - n))
              (buff (tty_q m)) 0 n ltac:(lia)) as [Hin _].
  rewrite <- (Hin i) by lia; reflexivity.
Qed.

(** C8 does not hold of the code on every C library.  The queue holds
    "abc" and the port takes one byte, so two bytes stay and the regions
    of the [memcpy] overlap.  On a library that copies from the highest
    address down, which does all that ISO C asks of [memcpy], the byte
    "a" is written, the length becomes 2, and the queue then holds "cc":
    the byte "b" is lost and "c" will be sent twice.  On a library that
    copies from the lowest address up the queue holds "bc". *)
Theorem port_write_overlapping_memcpy :
  memcpy_conforms memcpy_descending
  /\ queued (tty_q (with_queued "abc")) = "abc"
  /\ (exists m',
        loop_port_write (short_write memcpy_descending 1) (with_queued "abc")
          = Continue m'
        /\ port_out m' = "a"
        /\ len (tty_q m') = 2
        /\ queued (tty_q m') = "cc"
        /\ queued (tty_q m') <> "bc")
  /\ memcpy_conforms memcpy_ascending
  /\ (exists m',
        loop_port_write (short_write memcpy_ascending 1) (with_queued "abc")
          = Continue m'
        /\ port_out m' = "a"
        /\ len (tty_q m') = 2
        /\ queued (tty_q m') = "bc").
Proof.
  split; [exact memcpy_descending_conforms|].
  split; [reflexivity|].
  split.
  { eexists; split; [reflexivity|].
    split; [reflexivity|].
    split; [reflexivity|].
    split; [reflexivity|discriminate]. }
  split; [exact memcpy_ascending_conforms|].
  eexists; split; [reflexivity|].
  split; [reflexivity|].
  split; reflexivity.
Qed.

(** ** The timestamp annotator *)

Ltac port_step_cases :=
  cbn [orb negb andb bind errno sto tty_time tty_time_enable tv_ref
       with_errno with_sto with_tty_time with_tv_ref];
  change EWOULDBLOCK with EAGAIN;
  match goal with
  | Hag : (errno ?m =? EAGAIN) = false, Hin : (errno ?m =? EINTR) = false
    |- _ => rewrite Hag, Hin
  end;
  cbn [orb bind];
  eexists; split; [reflexivity|];
  cbn [errno sto tty_time tty_time_enable tv_ref
       with_errno with_sto with_tty_time with_tv_ref append];
  rewrite ?append_assoc; repeat split.

(** One byte from the port, timestamps enabled. *)
Lemma port_byte_step (c : ascii) (t : timeval) (m : machine) :
  tty_time_enable m <> 0 ->
  errno_settled (errno m) ->
  exists m',
    loop_iter (port_byte (c, t)) m = Continue m'
    /\ tty_time_enable m' = tty_time_enable m
    /\ errno m' = errno m
    /\ tv_ref m' = (if tty_time m =? TTY_TIME_RESET then t else tv_ref m)
    /\ tty_time m' = (if is_newline c then TTY_TIME_DISPLAY
                      else TTY_TIME_NONE)
    /\ sto m' = sto m
         ++ (if is_newline c || (tty_time m =? 0) then EmptyString
             else stamp t (tv_ref m'))
         ++ str1 c.
Proof.
  intros Hen [Hag Hin].
  apply Z.eqb_neq in Hen, Hag, Hin.
  unfold loop_iter, loop_port_read, port_byte, is_newline.
  cbn [e_select e_rd_sti e_rd_tty e_wr_tty e_tty e_now e_sto fst snd bind
       read_retry write_sto].
  cbn [tty_time_enable tty_time errno with_errno].
  rewrite Hen.
  destruct (Z.eqb_spec (tty_time m) 0) as [Hz|Hz].
  - rewrite Hz; cbn [Z.eqb TTY_TIME_RESET negb andb].
    destruct (c =? LF)%char, (c =? CR)%char; port_step_cases; exact Hz.
  - destruct (tty_time m =? TTY_TIME_RESET);
      destruct (c =? LF)%char, (c =? CR)%char; port_step_cases.
Qed.

(** Once the reference is taken, the loop is the annotator of the
    specification: a line is at its start exactly when [tty_time] is not
    [TTY_TIME_NONE]. *)
Lemma port_run_annotate (bs : list (ascii * timeval)) :
  forall m,
    tty_time_enable m <> 0 ->
    errno_settled (errno m) ->
    tty_time m <> TTY_TIME_RESET ->
    exists m',
      loop_run (map port_byte bs) m = Continue m'
      /\ tv_ref m' = tv_ref m
      /\ sto m' = sto m
           ++ annotate (tv_ref m) (negb (tty_time m =? 0)) bs.
Proof.
  induction bs as [|[c t] bs IH]; intros m Hen Herr Hmode.
  - exists m; cbn [map loop_run annotate]; rewrite append_nil_r; repeat split.
  - destruct (port_byte_step c t m Hen Herr)
      as (m1 & Hstep & Hen1 & Herr1 & Href1 & Hmode1 & Hsto1).
    apply Z.eqb_neq in Hmode; rewrite Hmode in Href1.
    destruct (IH m1) as (m' & Hrun & Href & Hsto).
    + rewrite Hen1; exact Hen.
    + rewrite Herr1; exact Herr.
    + rewrite Hmode1; destruct (is_newline c); discriminate.
    + exists m'; cbn [map loop_run]; rewrite Hstep; cbn [bind].
      split; [exact Hrun|].
      split; [rewrite Href; exact Href1|].
      rewrite Hsto, Hsto1, Hmode1, Href1; cbn [annotate].
      destruct (is_newline c); cbn [orb negb Z.eqb TTY_TIME_DISPLAY TTY_TIME_NONE].
      * rewrite !append_assoc; reflexivity.
      * destruct (tty_time m =? 0); cbn [negb];
          rewrite !append_assoc; reflexivity.
Qed.

(** C4, as amended: Ctrl-I on disabled timestamps sets [tty_time_enable]
    and puts [tty_time] in its Reset mode without reading the clock
    ([tv_ref] keeps its value); the reference becomes the arrival time [t]
    of the first byte the port delivers afterwards, and from there on the
    screen receives the bytes with one prefix before the first byte that is
    not a newline of each line, measured from that reference. *)
Theorem timestamp_reference_is_first_byte
    (e : env) (m : machine) (rest : list read_result)
    (c : ascii) (t : timeval) (bs : list (ascii * timeval)) :
  state m = ST_COMMAND ->
  escape (opts m) <> KEY_TIMESTAMP ->
  tty_time_enable m = 0 ->
  errno_settled (errno m) ->
  e_sti e = RdByte KEY_TIMESTAMP :: rest ->
  exists m1 m2,
    loop_stdin e m = Continue m1
    /\ tty_time_enable m1 = 1
    /\ tty_time m1 = TTY_TIME_RESET
    /\ tv_ref m1 = tv_ref m
    /\ sto m1 = sto m ++ enable_banner
    /\ loop_run (map port_byte ((c, t) :: bs)) m1 = Continue m2
    /\ tv_ref m2 = t
    /\ sto m2 = sto m1 ++ annotate t true ((c, t) :: bs).
Proof.
  intros Hst Hesc Hoff Herr Hsti.
  unfold loop_stdin; rewrite Hsti; cbn [read_retry].
  cbn [state with_errno]; rewrite Hst.
  unfold loop_command; cbn [opts with_errno with_state].
  assert (Hne : (KEY_TIMESTAMP =? escape (opts m))%char = false).
  { apply Ascii.eqb_neq; congruence. }
  rewrite Hne.
  cbn [Ascii.eqb Bool.eqb KEY_EXIT KEY_QUIT KEY_STATUS KEY_PULSE KEY_TOGGLE
       KEY_BAUD_UP KEY_BAUD_DN KEY_FLOW KEY_PARITY KEY_BITS KEY_SEND
       KEY_RECEIVE KEY_BREAK KEY_TIMESTAMP andb].
  cbn [tty_time_enable with_state with_errno]; rewrite Hoff; cbn [Z.eqb].
  set (m1 := fd_printf _ _).
  assert (Hen1 : tty_time_enable m1 <> 0) by (cbn; discriminate).
  assert (Herr1 : errno_settled (errno m1)) by exact Herr.
  destruct (port_byte_step c t m1 Hen1 Herr1)
    as (ma & Hstep & Hena & Herra & Hrefa & Hmodea & Hstoa).
  change (tty_time m1) with TTY_TIME_RESET in Hrefa, Hstoa.
  cbn [Z.eqb TTY_TIME_RESET orb] in Hrefa, Hstoa.
  destruct (port_run_annotate bs ma) as (m2 & Hrun & Href & Hsto).
  - rewrite Hena; exact Hen1.
  - rewrite Herra; exact Herr1.
  - rewrite Hmodea; destruct (is_newline c); discriminate.
  - exists m1, m2.
    split; [reflexivity|].
    split; [reflexivity|].
    split; [reflexivity|].
    split; [reflexivity|].
    split; [reflexivity|].
    cbn [map loop_run]; rewrite Hstep; cbn [bind].
    split; [exact Hrun|].
    split; [rewrite Href; exact Hrefa|].
    rewrite Hsto, Hstoa, Hmodea, Hrefa; cbn [annotate].
    destruct (is_newline c);
      cbn [orb negb Z.eqb TTY_TIME_DISPLAY TTY_TIME_NONE];
      rewrite !append_assoc; reflexivity.
Qed.

Lemma timestamp_reference_is_first_byte_witness :
  exists m1 m2,
    loop_stdin (key_at KEY_TIMESTAMP (at_secs 10 0))
      (with_state (with_tty_time_enable boot 0) ST_COMMAND) = Continue m1
    /\ tv_ref m1 = t0
    /\ loop_run
         (map port_byte
            [("X"%char, at_secs 10 250); (LF, at_secs 10 250);
             ("Y"%char, at_secs 10 500)]) m1 = Continue m2
    /\ tv_ref m2 = at_secs 10 250
    /\ sto m2 = enable_banner ++ stamped_written.
Proof.
  destruct (timestamp_reference_is_first_byte
              (key_at KEY_TIMESTAMP (at_secs 10 0))
              (with_state (with_tty_time_enable boot 0) ST_COMMAND)
              [] "X"%char (at_secs 10 250)
              [(LF, at_secs 10 250); ("Y"%char, at_secs 10 500)])
    as (m1 & m2 & Hkey & _ & _ & Href1 & Hsto1 & Hrun & Href2 & Hsto2).
  - reflexivity.
  - discriminate.
  - reflexivity.
  - split; discriminate.
  - reflexivity.
  - exists m1, m2.
    split; [exact Hkey|].
    split; [exact Href1|].
    split; [exact Hrun|].
    split; [exact Href2|].
    rewrite Hsto2, Hsto1; vm_compute; reflexivity.
Defined.

(** C4 as stated fails: with the second Ctrl-I typed at 10.000 s, "X"
    arriving at 10.250 s, a line feed, and "Y" at 10.500 s, the prefixes
    read 0:00.000 and 0:00.250, not 0:00.250 and 0:00.500: the reference is
    the arrival of "X", not the keypress. *)
Lemma timestamp_scenario_differs :
  exists m,
    loop stamped_run boot = Continue m
    /\ sto m = disable_banner ++ enable_banner ++ stamped_written
    /\ sto m <> disable_banner ++ enable_banner ++ stamped_expected.
Proof.
  eexists; split; [vm_compute; reflexivity|].
  split; [vm_compute; reflexivity|].
  vm_compute; discriminate.
Qed.

(** The expected text does appear when the reference has been taken at
    10.000 s, by a line feed the port delivered at that time. *)
Example timestamp_scenario_with_reference_byte :
  exists m,
    loop_run
      (map port_byte
         [(LF, at_secs 10 0); ("X"%char, at_secs 10 250);
          (LF, at_secs 10 250); ("Y"%char, at_secs 10 500)])
      (with_tty_time (with_tty_time_enable boot 1) TTY_TIME_RESET)
      = Continue m
    /\ sto m = str1 LF ++ stamped_expected.
Proof.
  eexists; split; vm_compute; reflexivity.
Qed.

(** The borrow of a second in [stamp]. *)
Example stamp_borrows_second :
  stamp {| tv_sec := 75; tv_usec := 100000 |}
        {| tv_sec := 10; tv_usec := 900000 |} = cyan "1:04.200".
Proof. reflexivity. Qed.

(** * Beyond the claims *)

(** ** The baud walker on and off the ladder *)

(** Started on the ladder, neither walker leaves it, and the two undo each
    other wherever the first one moved: down after up everywhere but at
    115200, up after down everywhere but at 300. *)
Theorem baud_walkers_stay_on_ladder (b : Z) :
  In b baud_ladder ->
  In (baud_up b) baud_ladder
  /\ In (baud_down b) baud_ladder
  /\ (b <> 115200 -> baud_down (baud_up b) = b)
  /\ (b <> 300 -> baud_up (baud_down b) = b).
Proof.
  unfold baud_ladder; cbn [In]; intros Hb.
  repeat (destruct Hb as [<-|Hb];
          [vm_compute; repeat split; tauto || congruence|]).
  contradiction.
Qed.

Lemma baud_walkers_stay_on_ladder_witness :
  In 38400 baud_ladder
  /\ In (baud_up 38400) baud_ladder
  /\ In (baud_down 38400) baud_ladder
  /\ baud_down (baud_up 38400) = 38400
  /\ baud_up (baud_down 38400) = 38400.
Proof.
  assert (H : In 38400 baud_ladder) by (cbn; tauto).
  destruct (baud_walkers_stay_on_ladder 38400 H) as (Hu & Hd & Hdu & Hud).
  split; [exact H|].
  split; [exact Hu|].
  split; [exact Hd|].
  split; [apply Hdu | apply Hud]; discriminate.
Defined.

(** Each press moves: below 115200 [baud_up] gives a strictly higher rate,
    never above 115200; above 300 [baud_down] gives a strictly lower one,
    never below 300.  So [baud_down] rests only at 300 and [baud_up], on
    rates whose double is an [int], only at 115200. *)
Theorem baud_walkers_make_progress (b : Z) :
  (b < 115200 -> b < baud_up b <= 115200)
  /\ (300 < b -> 300 <= baud_down b < b)
  /\ (baud_down b = b <-> b = 300)
  /\ (b < 1073741824 -> (baud_up b = b <-> b = 115200)).
Proof.
  assert (Hup : b < 115200 -> b < baud_up b <= 115200).
  { intros Hb; unfold baud_up.
    destruct (Z.ltb_spec b 300); [cbn; lia|].
    destruct (Z.eqb_spec b 38400) as [->|]; [cbn; lia|].
    rewrite wrap_int_small by (unfold INT_MIN, INT_MAX; lia).
    destruct (Z.gtb_spec (b * 2) 115200); lia. }
  assert (Hdown : 300 < b -> 300 <= baud_down b < b).
  { intros Hb; unfold baud_down.
    destruct (Z.gtb_spec b 115200); [cbn; lia|].
    destruct (Z.eqb_spec b 57600) as [->|]; [cbn; lia|].
    assert (Z.quot b 2 < b) by (apply Z.quot_lt; lia).
    destruct (Z.ltb_spec (Z.quot b 2) 300); lia. }
  split; [exact Hup|].
  split; [exact Hdown|].
  split.
  - split; [|intros ->; reflexivity].
    intros Hfix.
    pose proof (baud_down_range b) as Hr; rewrite Hfix in Hr.
    destruct (Z.eq_dec b 300) as [|Hne]; [assumption|].
    specialize (Hdown ltac:(lia)); lia.
  - intros Hsmall; split; [|intros ->; reflexivity].
    intros Hfix.
    pose proof (baud_up_range b Hsmall) as Hr; rewrite Hfix in Hr.
    destruct (Z.eq_dec b 115200) as [|Hne]; [assumption|].
    specialize (Hup ltac:(lia)); lia.
Qed.

(** ** The option cycles *)

(** [bits_next] never gives more than 8; below 8 it gives the next
    integer and from 8 on, short of the largest [int], it gives 5: so on
    the widths the port knows it is the cycle 5, 6, 7, 8, 5, in that
    order; from 4 on it gives one of these widths; four steps give back
    the start and one step always changes the value. *)
Theorem bits_next_cycle (b : Z) :
  bits_next b <= 8
  /\ (INT_MIN <= b < 8 -> bits_next b = b + 1)
  /\ (8 <= b < INT_MAX -> bits_next b = 5)
  /\ map bits_next [5; 6; 7; 8] = [6; 7; 8; 5]
  /\ (4 <= b < INT_MAX -> 5 <= bits_next b <= 8)
  /\ (5 <= b <= 8 ->
       bits_next (bits_next (bits_next (bits_next b))) = b
       /\ bits_next b <> b).
Proof.
  assert (Hle : forall x, bits_next x <= 8).
  { intros x; unfold bits_next.
    destruct (Z.gtb_spec (wrap_int (x + 1)) 8); lia. }
  assert (Hstep : forall x, INT_MIN <= x < INT_MAX ->
            bits_next x = if x + 1 >? 8 then 5 else x + 1).
  { intros x Hx; unfold bits_next.
    rewrite wrap_int_small by (unfold INT_MIN, INT_MAX in *; lia).
    reflexivity. }
  split; [apply Hle|].
  split.
  { intros Hb; rewrite Hstep by (unfold INT_MAX; lia).
    destruct (Z.gtb_spec (b + 1) 8); lia. }
  split.
  { intros Hb; rewrite Hstep by (unfold INT_MIN; lia).
    destruct (Z.gtb_spec (b + 1) 8); lia. }
  split; [reflexivity|].
  split.
  - intros Hb; rewrite Hstep by (unfold INT_MIN; lia).
    destruct (Z.gtb_spec (b + 1) 8); lia.
  - intros Hb.
    assert (Hcases : b = 5 \/ b = 6 \/ b = 7 \/ b = 8) by lia.
    destruct Hcases as [-> | [-> | [-> | ->]]]; vm_compute; split;
      congruence.
Qed.

(** ** What the parts of the loop leave alone *)

Lemma term_port_out (e : env) (call : term_call) (m : machine) :
  port_out (snd (term e call m)) = port_out m.
Proof. unfold term; destruct (fst (e_term e call) <? 0); reflexivity. Qed.

Lemma term_dtr_up (e : env) (call : term_call) (m : machine) :
  dtr_up (snd (term e call m)) = dtr_up m.
Proof. unfold term; destruct (fst (e_term e call) <? 0); reflexivity. Qed.

#[local] Hint Rewrite term_port_out term_dtr_up : term_fields.

Lemma run_cmd_opts (e : env) (args : list string) (m : machine) :
  opts (run_cmd e args m) = opts m.
Proof.
  unfold run_cmd, fd_printf.
  destruct (e_child e); cbn [opts with_sto with_errno with_trace];
    autorewrite with term_fields; reflexivity.
Qed.

Lemma run_cmd_tty_q (e : env) (args : list string) (m : machine) :
  tty_q (run_cmd e args m) = tty_q m.
Proof.
  unfold run_cmd, fd_printf.
  destruct (e_child e); cbn [tty_q with_sto with_errno with_trace];
    autorewrite with term_fields; reflexivity.
Qed.

Lemma run_cmd_port_out (e : env) (args : list string) (m : machine) :
  port_out (run_cmd e args m) = port_out m.
Proof.
  unfold run_cmd, fd_printf.
  destruct (e_child e); cbn [port_out with_sto with_errno with_trace];
    autorewrite with term_fields; reflexivity.
Qed.

Lemma fatal_opts (e : env) (msg : string) (m : machine) :
  opts (final (fatal e msg m)) = opts m.
Proof.
  unfold fatal; cbn [final opts with_sto]; autorewrite with term_fields.
  reflexivity.
Qed.

Lemma fatal_tty_q (e : env) (msg : string) (m : machine) :
  tty_q (final (fatal e msg m)) = tty_q m.
Proof.
  unfold fatal; cbn [final tty_q with_sto]; autorewrite with term_fields.
  reflexivity.
Qed.

Lemma fatal_port_out (e : env) (msg : string) (m : machine) :
  port_out (final (fatal e msg m)) = port_out m.
Proof.
  unfold fatal; cbn [final port_out with_sto]; autorewrite with term_fields.
  reflexivity.
Qed.

Lemma queue_byte_opts (c : ascii) (m : machine) :
  opts (queue_byte c m) = opts m.
Proof. unfold queue_byte; destruct (len (tty_q m) <=? TTY_Q_SZ); reflexivity. Qed.

Lemma queue_byte_port_out (c : ascii) (m : machine) :
  port_out (queue_byte c m) = port_out m.
Proof. unfold queue_byte; destruct (len (tty_q m) <=? TTY_Q_SZ); reflexivity. Qed.

Create Rewrite HintDb frame.
#[local] Hint Rewrite term_opts term_tty_q term_port_out run_cmd_opts
  run_cmd_tty_q run_cmd_port_out fatal_opts fatal_tty_q fatal_port_out
  queue_byte_opts queue_byte_port_out : frame.

Lemma read_fname_opts (e : env) (rest : list read_result)
    (k : machine -> machine) (m : machine) :
  (forall m1, opts (k m1) = opts m1) ->
  opts (final (read_fname e rest k m)) = opts m.
Proof.
  intros Hk; unfold read_fname.
  destruct (fd_readline rest (sto m) (fname m) 128 (errno m)) as [res|];
    [|reflexivity].
  match goal with
  | |- context [if ?b then _ else _] => destruct b
  end; [reflexivity|].
  destruct (rl_r res <=? -1); [rewrite fatal_opts|cbn [final]; rewrite Hk];
    reflexivity.
Qed.

Lemma read_fname_tty_q (e : env) (rest : list read_result)
    (k : machine -> machine) (m : machine) :
  (forall m1, tty_q (k m1) = tty_q m1) ->
  tty_q (final (read_fname e rest k m)) = tty_q m.
Proof.
  intros Hk; unfold read_fname.
  destruct (fd_readline rest (sto m) (fname m) 128 (errno m)) as [res|];
    [|reflexivity].
  match goal with
  | |- context [if ?b then _ else _] => destruct b
  end; [reflexivity|].
  destruct (rl_r res <=? -1); [rewrite fatal_tty_q|cbn [final]; rewrite Hk];
    reflexivity.
Qed.

Lemma read_fname_port_out (e : env) (rest : list read_result)
    (k : machine -> machine) (m : machine) :
  (forall m1, port_out (k m1) = port_out m1) ->
  port_out (final (read_fname e rest k m)) = port_out m.
Proof.
  intros Hk; unfold read_fname.
  destruct (fd_readline rest (sto m) (fname m) 128 (errno m)) as [res|];
    [|reflexivity].
  match goal with
  | |- context [if ?b then _ else _] => destruct b
  end; [reflexivity|].
  destruct (rl_r res <=? -1);
    [rewrite fatal_port_out|cbn [final]; rewrite Hk]; reflexivity.
Qed.

(** Splits [loop_command] into the branches of its [switch]. *)
Ltac command_cases c :=
  unfold loop_command;
  repeat match goal with
  | |- context [if (c =? ?k)%char then _ else _] =>
      destruct (c =? k)%char eqn:?; cbv iota
  end.

(** Names the results of the calls a branch makes and splits on the tests
    it applies to them. *)
Ltac command_calls :=
  cbv zeta;
  repeat match goal with
  | |- context [let (_, _) := flow_next ?f in _] =>
      rewrite (surjective_pairing (flow_next f))
  | |- context [let (_, _) := parity_next ?p in _] =>
      rewrite (surjective_pairing (parity_next p))
  | |- context [let (_, _) := (if ?b then _ else _) in _] => destruct b eqn:?
  | |- context [let (_, _) := term ?e ?call ?m in _] =>
      rewrite (surjective_pairing (term e call m)); rewrite term_fst
  end;
  repeat match goal with
  | |- context [if fst (e_term ?e ?call) >=? 0 then _ else _] =>
      destruct (fst (e_term e call) >=? 0) eqn:?
  | |- context [if fst (e_term ?e ?call) <? 0 then _ else _] =>
      destruct (fst (e_term e call) <? 0) eqn:?
  | |- context [if (?f ?m 0 =? NUL)%char then _ else _] =>
      destruct (f m 0 =? NUL)%char eqn:?
  | |- context [if tty_time_enable ?m =? 0 then _ else _] =>
      destruct (tty_time_enable m =? 0) eqn:?
  end.

Ltac machine_fields :=
  repeat (cbn [final opts tty_q port_out sto state dtr_up tty_time
               tty_time_enable tv_ref fname errno trace len buff
               with_opts with_tty_q with_tty_time with_tty_time_enable
               with_state with_dtr_up with_tv_ref with_fname with_errno
               with_sto with_port_out with_trace fd_printf clear_queue];
          autorewrite with frame).

(** Every key leaves the options as they are or replaces one of them by
    what its walker gives; it leaves the queue, queues the byte or empties
    the queue; and it writes nothing to the port. *)
Lemma loop_command_effect (e : env) (rest : list read_result) (c : ascii)
    (m : machine) :
  let m' := final (loop_command e rest c m) in
  (opts m' = opts m
   \/ opts m' = with_baud (opts m) (baud_up (baud (opts m)))
   \/ opts m' = with_baud (opts m) (baud_down (baud (opts m)))
   \/ opts m' = with_flow (opts m) (fst (flow_next (flow (opts m))))
                          (snd (flow_next (flow (opts m))))
   \/ opts m' = with_parity (opts m) (fst (parity_next (parity (opts m))))
                            (snd (parity_next (parity (opts m))))
   \/ opts m' = with_databits (opts m) (bits_next (databits (opts m))))
  /\ (tty_q m' = tty_q m
      \/ tty_q m' = tty_q (queue_byte c m)
      \/ tty_q m' = {| len := 0; buff := buff (tty_q m) |})
  /\ port_out m' = port_out m.
Proof.
  cbv zeta.
  command_cases c.
  all: try (rewrite !read_fname_opts, !read_fname_tty_q, !read_fname_port_out
              by (intros; repeat match goal with
                          | |- context [if ?b then _ else _] => destruct b
                          end; autorewrite with frame; reflexivity)).
  all: command_calls.
  all: machine_fields.
  all: try (split; [|split]; try reflexivity; tauto).
  split; [tauto|]; split; [|reflexivity].
  right; left; unfold queue_byte; cbn [tty_q with_state].
  destruct (len (tty_q m) <=? TTY_Q_SZ); reflexivity.
Qed.

Lemma read_retry_errno_only (rs : list read_result) :
  forall en r en' rest, read_retry rs en = Some (r, en', rest) ->
  match r with RdErr e => e <> EINTR | _ => True end.
Proof.
  induction rs as [|r0 rs IH]; intros en r en' rest Hrd; [discriminate|].
  destruct r0 as [c0| |e0]; cbn [read_retry] in Hrd.
  - injection Hrd as <- _ _; exact I.
  - injection Hrd as <- _ _; exact I.
  - destruct (Z.eqb_spec e0 EINTR).
    + exact (IH _ _ _ _ Hrd).
    + injection Hrd as <- _ _; assumption.
Qed.

(** The same for the whole handling of a byte from the terminal. *)
Lemma loop_stdin_effect (e : env) (m : machine) :
  let m' := final (loop_stdin e m) in
  (opts m' = opts m
   \/ opts m' = with_baud (opts m) (baud_up (baud (opts m)))
   \/ opts m' = with_baud (opts m) (baud_down (baud (opts m)))
   \/ opts m' = with_flow (opts m) (fst (flow_next (flow (opts m))))
                          (snd (flow_next (flow (opts m))))
   \/ opts m' = with_parity (opts m) (fst (parity_next (parity (opts m))))
                            (snd (parity_next (parity (opts m))))
   \/ opts m' = with_databits (opts m) (bits_next (databits (opts m))))
  /\ (tty_q m' = tty_q m
      \/ (exists c, tty_q m' = tty_q (queue_byte c m))
      \/ tty_q m' = {| len := 0; buff := buff (tty_q m) |})
  /\ port_out m' = port_out m.
Proof.
  cbv zeta; unfold loop_stdin.
  destruct (read_retry (e_sti e) (errno m)) as [[[r en] rest]|];
    [|cbn; tauto].
  destruct r as [c| |e0].
  - cbn [state with_errno].
    destruct (state m).
    + destruct (loop_command_effect e rest c (with_errno m en))
        as (Ho & Hq & Hp).
      cbn [opts tty_q port_out with_errno] in Ho, Hq, Hp.
      split; [exact Ho|]; split; [|exact Hp].
      destruct Hq as [Hq|[Hq|Hq]]; [tauto| |tauto].
      right; left; exists c; rewrite Hq.
      unfold queue_byte; cbn [tty_q with_errno].
      destruct (len (tty_q m) <=? TTY_Q_SZ); reflexivity.
    + cbn [opts with_errno].
      destruct (c =? escape (opts m))%char; cbn [final]; machine_fields;
        [tauto|].
      split; [tauto|]; split; [|reflexivity].
      right; left; exists c.
      unfold queue_byte; cbn [tty_q with_errno].
      destruct (len (tty_q m) <=? TTY_Q_SZ); reflexivity.
  - machine_fields; tauto.
  - machine_fields; tauto.
Qed.

(** The write of a received byte to the terminal touches neither options,
    queue nor port, however it ends. *)
Lemma write_sto_effect (e : env) (ws : list write_result) :
  forall (c : ascii) (m : machine),
    opts (final (write_sto e ws c m)) = opts m
    /\ tty_q (final (write_sto e ws c m)) = tty_q m
    /\ port_out (final (write_sto e ws c m)) = port_out m.
Proof.
  induction ws as [|w ws IH]; intros c m; cbn [write_sto].
  - destruct ((errno (with_sto m (sto m ++ str1 c)) =? EAGAIN)
              || (errno (with_sto m (sto m ++ str1 c)) =? EWOULDBLOCK)
              || (errno (with_sto m (sto m ++ str1 c)) =? EINTR));
      cbn; tauto.
  - set (m1 := match w with
               | WrOk n => if 0 <? n then with_sto m (sto m ++ str1 c) else m
               | WrErr en => with_errno m en
               end).
    assert (H1 : opts m1 = opts m /\ tty_q m1 = tty_q m
                 /\ port_out m1 = port_out m).
    { unfold m1; destruct w as [n|en]; [destruct (0 <? n)|]; cbn; tauto. }
    destruct H1 as (Ho & Hq & Hp).
    destruct ((errno m1 =? EAGAIN) || (errno m1 =? EWOULDBLOCK)
              || (errno m1 =? EINTR)).
    + destruct (IH c m1) as (Ho2 & Hq2 & Hp2).
      rewrite Ho2, Hq2, Hp2; tauto.
    + destruct w as [n|en]; [destruct (n <=? 0)|]; machine_fields;
        cbn [final opts tty_q port_out]; tauto.
Qed.

(** A byte from the port touches neither options, queue nor port. *)
Lemma loop_port_read_effect (e : env) (m : machine) :
  let m' := final (loop_port_read e m) in
  opts m' = opts m /\ tty_q m' = tty_q m /\ port_out m' = port_out m.
Proof.
  cbv zeta; unfold loop_port_read.
  destruct (read_retry (e_tty e) (errno m)) as [[[r en] rest]|];
    [|cbn; tauto].
  destruct r as [c| |e0]; [|machine_fields; tauto|machine_fields; tauto].
  match goal with
  | |- context [write_sto e (e_sto e) c ?m1] =>
      destruct (write_sto_effect e (e_sto e) c m1) as (Ho & Hq & Hp);
      rewrite Ho, Hq, Hp
  end.
  repeat match goal with
  | |- context [if ?b then _ else _] => destruct b
  end; machine_fields; tauto.
Qed.

(** A write to the port leaves the options; the queue changes only when
    the write took bytes. *)
Lemma loop_port_write_effect (e : env) (m : machine) :
  let m' := final (loop_port_write e m) in
  opts m' = opts m
  /\ (tty_q m' = tty_q m
      \/ exists n en,
           write_retry (e_wr e) (errno m) = Some (WrOk n, en) /\ 0 < n
           /\ len (tty_q m') = wrap_int (len (tty_q m) - n)).
Proof.
  cbv zeta; unfold loop_port_write.
  destruct (write_retry (e_wr e) (errno m)) as [[w en]|]; [|cbn; tauto].
  destruct w as [n|e0]; [|machine_fields; tauto].
  destruct (Z.leb_spec n 0); machine_fields; [tauto|].
  split; [reflexivity|]; right; exists n, en; repeat split; lia.
Qed.

Lemma bind_final (P : machine -> Prop) (o : outcome)
    (k : machine -> outcome) :
  (forall m1, o = Continue m1 -> P (final (k m1))) ->
  (forall m1, o <> Continue m1) -> P (final o) ->
  P (final (bind o k)).
Proof. destruct o; cbn; intros Hk Hn Hp; auto; exfalso; eapply Hn; eauto. Qed.

Lemma bind_cases (o : outcome) (k : machine -> outcome) :
  (exists m1, o = Continue m1 /\ bind o k = k m1)
  \/ ((forall m1, o <> Continue m1) /\ bind o k = o).
Proof.
  destruct o; [left; eexists; split; reflexivity|..];
    right; split; try reflexivity; discriminate.
Qed.

Lemma loop_iter_reads (e : env) (m : machine) :
  e_select e = None ->
  loop_iter e m =
    bind (loop_reads e m) (fun m2 =>
      if e_wr_tty e && negb (len (tty_q m) =? 0)
      then loop_port_write e m2 else Continue m2).
Proof.
  intros Hsel; unfold loop_iter, loop_reads; rewrite Hsel.
  destruct (if e_rd_sti e then loop_stdin e m else Continue m); reflexivity.
Qed.

(** The reading parts of a pass. *)
Lemma loop_reads_effect (e : env) (m : machine) :
  let m' := final (loop_reads e m) in
  reconfigured (opts m) (opts m')
  /\ (tty_q m' = tty_q m
      \/ (exists c, tty_q m' = tty_q (queue_byte c m))
      \/ tty_q m' = {| len := 0; buff := buff (tty_q m) |})
  /\ port_out m' = port_out m.
Proof.
  cbv zeta; unfold loop_reads.
  assert (Hstd : let m1 := final (if e_rd_sti e then loop_stdin e m
                                  else Continue m) in
                 reconfigured (opts m) (opts m1)
                 /\ (tty_q m1 = tty_q m
                     \/ (exists c, tty_q m1 = tty_q (queue_byte c m))
                     \/ tty_q m1 = {| len := 0; buff := buff (tty_q m) |})
                 /\ port_out m1 = port_out m).
  { destruct (e_rd_sti e); [exact (loop_stdin_effect e m)|].
    cbn; unfold reconfigured; tauto. }
  cbv zeta in Hstd.
  destruct (bind_cases (if e_rd_sti e then loop_stdin e m else Continue m)
              (fun m1 => if e_rd_tty e then loop_port_read e m1
                         else Continue m1))
    as [(m1 & Ho & ->)|(_ & ->)]; [|exact Hstd].
  rewrite Ho in Hstd; cbn [final] in Hstd.
  destruct (e_rd_tty e); [|exact Hstd].
  destruct (loop_port_read_effect e m1) as (-> & -> & ->); exact Hstd.
Qed.

(** ** Invariants of the loop *)

Lemma loop_iter_opts (e : env) (m : machine) :
  reconfigured (opts m) (opts (final (loop_iter e m))).
Proof.
  destruct (e_select e) as [en|] eqn:Hsel.
  - unfold loop_iter; rewrite Hsel, fatal_opts; left; reflexivity.
  - rewrite (loop_iter_reads e m Hsel).
    destruct (loop_reads_effect e m) as (Ho & _ & _).
    destruct (bind_cases (loop_reads e m)
                (fun m2 => if e_wr_tty e && negb (len (tty_q m) =? 0)
                           then loop_port_write e m2 else Continue m2))
      as [(m1 & Hr & ->)|(_ & ->)]; [|exact Ho].
    rewrite Hr in Ho; cbn [final] in Ho.
    destruct (e_wr_tty e && negb (len (tty_q m) =? 0)); [|exact Ho].
    destruct (loop_port_write_effect e m1) as (-> & _); exact Ho.
Qed.

Lemma flow_next_named (f : flowcntrl_e) :
  flow_named (fst (flow_next f)) (snd (flow_next f)).
Proof. destruct f; reflexivity. Qed.

Lemma parity_next_named (p : parity_e) :
  parity_named (fst (parity_next p)) (snd (parity_next p)).
Proof. destruct p; reflexivity. Qed.

Lemma baud_ladder_closed (b : Z) :
  In b baud_ladder -> In (baud_up b) baud_ladder /\ In (baud_down b) baud_ladder.
Proof.
  unfold baud_ladder; cbn [In]; intros Hb.
  repeat (destruct Hb as [<-|Hb]; [vm_compute; tauto|]).
  contradiction.
Qed.

Lemma reconfigured_keeps_ok (o o' : opts_t) :
  reconfigured o o' ->
  opts_ok o ->
  opts_ok o'
  /\ escape o' = escape o
  /\ send_cmd o' = send_cmd o
  /\ receive_cmd o' = receive_cmd o
  /\ port o' = port o
  /\ (In (baud o) baud_ladder -> In (baud o') baud_ladder).
Proof.
  intros Hstep (Hflow & Hpar & Hbits & Hsend & Hrecv).
  destruct Hstep as [-> | [-> | [-> | [-> | [-> | ->]]]]];
    unfold opts_ok;
    cbn [flow flow_str parity parity_str databits escape send_cmd
         receive_cmd port baud with_baud with_flow with_parity
         with_databits];
    repeat split; try assumption; try lia;
    try (intros Hb; apply baud_ladder_closed; exact Hb);
    try apply flow_next_named; try apply parity_next_named.
  all: try (intros Hb; exact Hb).
  all: unfold bits_next;
    rewrite wrap_int_small by (unfold INT_MIN, INT_MAX; lia);
    destruct (Z.gtb_spec (databits o + 1) 8); lia.
Qed.

(** Whatever is typed, whatever the port sends and whatever the calls
    return, however the loop ends: the mode strings keep naming the modes,
    the data bits stay within 5 to 8, a baud rate on the ladder stays on
    it, and the escape byte, the two transfer commands and the port name
    are never changed. *)
Theorem options_stay_sound (es : list env) (m : machine) :
  opts_ok (opts m) ->
  opts_ok (opts (final (loop_run es m)))
  /\ escape (opts (final (loop_run es m))) = escape (opts m)
  /\ send_cmd (opts (final (loop_run es m))) = send_cmd (opts m)
  /\ receive_cmd (opts (final (loop_run es m))) = receive_cmd (opts m)
  /\ port (opts (final (loop_run es m))) = port (opts m)
  /\ (In (baud (opts m)) baud_ladder ->
      In (baud (opts (final (loop_run es m)))) baud_ladder).
Proof.
  revert m; induction es as [|e es IH]; intros m Hok.
  - cbn [loop_run final]; split; [exact Hok|]; repeat split; auto.
  - cbn [loop_run].
    destruct (reconfigured_keeps_ok _ _ (loop_iter_opts e m) Hok)
      as (Hok1 & He1 & Hs1 & Hr1 & Hp1 & Hb1).
    destruct (bind_cases (loop_iter e m) (loop_run es))
      as [(m1 & Hstep & ->)|(_ & ->)].
    + rewrite Hstep in Hok1, He1, Hs1, Hr1, Hp1, Hb1; cbn [final] in *.
      destruct (IH m1 Hok1) as (Hok2 & He2 & Hs2 & Hr2 & Hp2 & Hb2).
      split; [exact Hok2|]; repeat split; try congruence; auto.
    + split; [exact Hok1|]; repeat split; auto.
Qed.

Lemma options_stay_sound_witness :
  opts_ok opts_init
  /\ opts_ok (opts (final (loop_run
       [key "001"; key KEY_FLOW; key "001"; key KEY_BITS; key "001";
        key KEY_BAUD_DN] boot)))
  /\ escape (opts (final (loop_run
       [key "001"; key KEY_FLOW; key "001"; key KEY_BITS; key "001";
        key KEY_BAUD_DN] boot))) = "001"%char.
Proof.
  assert (Hok : opts_ok (opts boot)).
  { repeat split; cbn; lia. }
  destruct (options_stay_sound
              [key "001"; key KEY_FLOW; key "001"; key KEY_BITS; key "001";
               key KEY_BAUD_DN] boot Hok) as (Hok' & Hesc & _).
  split; [exact Hok|]; split; [exact Hok'|exact Hesc].
Defined.

Lemma loop_iter_len (e : env) (m : machine) :
  kernel_sane e m ->
  0 <= len (tty_q m) <= 257 ->
  0 <= len (tty_q (final (loop_iter e m))) <= 257.
Proof.
  intros Hsane Hlen.
  destruct (e_select e) as [en|] eqn:Hsel.
  - unfold loop_iter; rewrite Hsel, fatal_tty_q; exact Hlen.
  - rewrite (loop_iter_reads e m Hsel).
    destruct (loop_reads_effect e m) as (_ & Hq & _).
    assert (Hlen1 : 0 <= len (tty_q (final (loop_reads e m))) <= 257).
    { destruct Hq as [-> | [[c ->] | ->]]; [exact Hlen| |cbn; lia].
      apply queue_byte_len_bound; exact Hlen. }
    destruct (bind_cases (loop_reads e m)
                (fun m2 => if e_wr_tty e && negb (len (tty_q m) =? 0)
                           then loop_port_write e m2 else Continue m2))
      as [(m1 & Hr & ->)|(_ & ->)]; [|exact Hlen1].
    rewrite Hr in Hlen1; cbn [final] in Hlen1.
    destruct (e_wr_tty e && negb (len (tty_q m) =? 0)); [|exact Hlen1].
    destruct (loop_port_write_effect e m1)
      as (_ & [-> | (n & en & Hwr & Hn & ->)]); [exact Hlen1|].
    pose proof (Hsane m1 n en Hr Hwr) as Hle.
    rewrite wrap_int_small by (unfold INT_MIN, INT_MAX; lia); lia.
Qed.

(** With a kernel that never reports more bytes written than it was asked
    to write, the length of the queue stays between 0 and 257 through every
    pass of the loop, however it ends: one more than the 256 bytes of the
    array. *)
Theorem queue_length_stays_within_257 (es : list env) (m : machine) :
  sane_run es m ->
  0 <= len (tty_q m) <= 257 ->
  0 <= len (tty_q (final (loop_run es m))) <= 257.
Proof.
  revert m; induction es as [|e es IH]; intros m Hsane Hlen; [exact Hlen|].
  destruct Hsane as [Hk Hnext]; cbn [loop_run].
  pose proof (loop_iter_len e m Hk Hlen) as Hlen1.
  destruct (bind_cases (loop_iter e m) (loop_run es))
    as [(m1 & Hstep & ->)|(_ & ->)]; [|exact Hlen1].
  rewrite Hstep in Hlen1; cbn [final] in Hlen1.
  exact (IH m1 (Hnext m1 Hstep) Hlen1).
Qed.

(** While the queue is empty at the top of a pass the port is not written
    to in that pass, whatever [select] and [write] would answer. *)
Theorem empty_queue_is_not_written (e : env) (m : machine) :
  len (tty_q m) = 0 ->
  port_out (final (loop_iter e m)) = port_out m.
Proof.
  intros Hempty.
  destruct (e_select e) as [en|] eqn:Hsel.
  - unfold loop_iter; rewrite Hsel, fatal_port_out; reflexivity.
  - rewrite (loop_iter_reads e m Hsel), Hempty.
    cbn [Z.eqb negb]; rewrite Bool.andb_false_r.
    destruct (loop_reads_effect e m) as (_ & _ & Hp).
    destruct (loop_reads e m); exact Hp.
Qed.

Lemma queue_length_stays_within_257_witness :
  sane_run [key "A"; key "B"; port_takes 2] boot
  /\ 0 <= len (tty_q (final (loop_run [key "A"; key "B"; port_takes 2] boot)))
       <= 257.
Proof.
  assert (Hsane : sane_run [key "A"; key "B"; port_takes 2] boot).
  { cbn [sane_run]; split; [intros m1 n en _ Hwr; discriminate Hwr|].
    intros m1 H1; vm_compute in H1; injection H1 as <-.
    split; [intros m2 n en _ Hwr; discriminate Hwr|].
    intros m2 H2; vm_compute in H2; injection H2 as <-.
    split; [|intros m3 _; exact I].
    intros m3 n en Hr Hwr.
    vm_compute in Hr; injection Hr as <-.
    vm_compute in Hwr; injection Hwr as <- _.
    cbn; lia. }
  split; [exact Hsane|].
  apply (queue_length_stays_within_257 _ boot Hsane); cbn; lia.
Defined.

Lemma empty_queue_is_not_written_witness :
  len (tty_q boot) = 0
  /\ port_out (final (loop_iter (port_takes 5) boot)) = "".
Proof.
  split; [reflexivity|].
  exact (empty_queue_is_not_written (port_takes 5) boot eq_refl).
Defined.

(** ** Leaving through [fatal] *)

Lemma fatal_has_shape (e : env) (msg : string) (m m' : machine) :
  fatal e msg m = Fatal m' -> fatal_shape m'.
Proof.
  unfold fatal; cbv zeta; intros H.
  apply (f_equal final) in H; cbn [final] in H; subst m'.
  exists (trace m), (sto m), msg.
  cbn [trace sto with_sto]; autorewrite with term_fields.
  rewrite <- app_assoc; split; reflexivity.
Qed.









(** ** Bytes on their way to the port *)

Lemma typed_run (s : string) :
  forall m,
    state m = ST_TRANSPARENT ->
    Forall (fun c => c <> escape (opts m)) (list_ascii_of_string s) ->
    0 <= len (tty_q m) ->
    len (tty_q m) + Z.of_nat (String.length s) <= TTY_Q_SZ ->
    exists m',
      loop_run (map key (list_ascii_of_string s)) m = Continue m'
      /\ queued (tty_q m') = queued (tty_q m) ++ s
      /\ len (tty_q m') = len (tty_q m) + Z.of_nat (String.length s)
      /\ state m' = ST_TRANSPARENT
      /\ opts m' = opts m
      /\ sto m' = sto m
      /\ port_out m' = port_out m
      /\ trace m' = trace m
      /\ errno m' = errno m.
Proof.
  induction s as [|c s IH]; intros m Hst Hne Hlo Hhi.
  - exists m; cbn [list_ascii_of_string map loop_run String.length Z.of_nat].
    rewrite append_nil_r, Z.add_0_r; repeat split; assumption.
  - cbn [list_ascii_of_string map loop_run String.length] in *.
    apply Forall_cons_iff in Hne; destruct Hne as [Hc Hne].
    rewrite (loop_iter_only_key c (key c) m) by (repeat split).
    rewrite Hst.
    apply Ascii.eqb_neq in Hc; rewrite Hc; cbn [bind].
    set (m1 := queue_byte c (with_errno m (errno m))).
    assert (Hcap : 0 <= len (tty_q (with_errno m (errno m))) < TTY_Q_SZ)
      by (cbn [tty_q with_errno]; lia).
    pose proof (queued_after_queue_byte c _ Hcap) as Hq.
    pose proof (queue_byte_below_capacity c _ Hcap) as Hm1.
    fold m1 in Hq, Hm1; cbn [tty_q with_errno] in Hq, Hm1.
    destruct (IH m1) as (m' & Hrun & Hq' & Hlen' & Hst' & Ho' & Hs' & Hp' & Ht' & He').
    + rewrite Hm1; exact Hst.
    + rewrite Hm1; exact Hne.
    + rewrite Hm1; cbn [tty_q with_tty_q len]; lia.
    + rewrite Hm1; cbn [tty_q with_tty_q len]; lia.
    + exists m'; split; [exact Hrun|].
      rewrite Hq', Hq, Hlen', Hst', Ho', Hs', Hp', Ht', He', Hm1.
      cbn [tty_q with_tty_q len opts sto port_out trace errno with_errno].
      rewrite append_assoc; repeat split; lia.
Qed.

(** What is typed in Transparent state, the escape byte apart, is queued
    in the order typed as long as it fits the 256 bytes of the queue;
    nothing is printed, no call is made and nothing else changes. *)
Theorem typed_bytes_are_queued_in_order (s : string) (m : machine) :
  state m = ST_TRANSPARENT ->
  Forall (fun c => c <> escape (opts m)) (list_ascii_of_string s) ->
  0 <= len (tty_q m) ->
  len (tty_q m) + Z.of_nat (String.length s) <= TTY_Q_SZ ->
  exists m',
    loop_run (map key (list_ascii_of_string s)) m = Continue m'
    /\ queued (tty_q m') = queued (tty_q m) ++ s
    /\ len (tty_q m') = len (tty_q m) + Z.of_nat (String.length s)
    /\ state m' = ST_TRANSPARENT
    /\ opts m' = opts m
    /\ sto m' = sto m
    /\ port_out m' = port_out m
    /\ trace m' = trace m.
Proof.
  intros Hst Hne Hlo Hhi.
  destruct (typed_run s m Hst Hne Hlo Hhi)
    as (m' & Hrun & Hq & Hlen & Hst' & Ho & Hs & Hp & Ht & _).
  exists m'; repeat split; assumption.
Qed.

Lemma typed_bytes_are_queued_in_order_witness :
  exists m',
    loop_run (map key (list_ascii_of_string ("A" ++ str1 CR ++ "B"))) boot
      = Continue m'
    /\ queued (tty_q m') = "A" ++ str1 CR ++ "B"
    /\ sto m' = "".
Proof.
  destruct (typed_bytes_are_queued_in_order ("A" ++ str1 CR ++ "B") boot)
    as (m' & Hrun & Hq & _ & _ & _ & Hs & _).
  - reflexivity.
  - repeat constructor; discriminate.
  - cbn; lia.
  - unfold TTY_Q_SZ; cbn; lia.
  - exists m'; repeat split; assumption.
Defined.

(** A write that takes the whole queue. *)
Lemma port_write_takes_all (e : env) (m : machine) (en : Z) :
  write_retry (e_wr e) (errno m) = Some (WrOk (len (tty_q m)), en) ->
  0 < len (tty_q m) ->
  exists m',
    loop_port_write e m = Continue m'
    /\ port_out m' = port_out m ++ queued (tty_q m)
    /\ len (tty_q m') = 0
    /\ sto m' = sto m /\ opts m' = opts m /\ state m' = state m.
Proof.
  intros Hwr Hlen; unfold loop_port_write; rewrite Hwr.
  destruct (Z.leb_spec (len (tty_q m)) 0); [lia|].
  eexists; split; [reflexivity|].
  cbn [port_out tty_q len sto opts state with_tty_q with_port_out with_errno].
  rewrite Z.sub_diag; repeat split.
Qed.

(** End to end: what is typed in Transparent state reaches the port
    unchanged and in order, behind what was already queued, once the port
    takes the whole queue; the queue is then empty and the screen has
    received nothing. *)
Theorem typed_bytes_reach_the_port (s : string) (m : machine) :
  state m = ST_TRANSPARENT ->
  Forall (fun c => c <> escape (opts m)) (list_ascii_of_string s) ->
  0 <= len (tty_q m) ->
  0 < len (tty_q m) + Z.of_nat (String.length s) <= TTY_Q_SZ ->
  exists m',
    loop_run
      (app (map key (list_ascii_of_string s))
           [port_takes (len (tty_q m) + Z.of_nat (String.length s))]) m
      = Continue m'
    /\ port_out m' = port_out m ++ queued (tty_q m) ++ s
    /\ len (tty_q m') = 0
    /\ sto m' = sto m.
Proof.
  intros Hst Hne Hlo Hhi.
  destruct (typed_run s m Hst Hne Hlo ltac:(lia))
    as (m1 & Hrun & Hq & Hlen & Hst1 & Ho & Hs & Hp & Ht & He).
  assert (Hcat : forall es1 es2 m0 m2,
             loop_run es1 m0 = Continue m2 ->
             loop_run (app es1 es2) m0 = loop_run es2 m2).
  { induction es1 as [|e es1 IH]; intros es2 m0 m2 H0.
    - injection H0 as <-; reflexivity.
    - cbn [app loop_run] in *.
      destruct (loop_iter e m0); cbn [bind] in *; try discriminate.
      apply IH; exact H0. }
  rewrite (Hcat _ _ _ _ Hrun); cbn [loop_run].
  unfold loop_iter; cbn [port_takes e_select e_rd_sti e_rd_tty e_wr_tty bind].
  destruct (Z.eqb_spec (len (tty_q m1)) 0) as [H0|H0]; [lia|].
  cbn [negb andb].
  destruct (port_write_takes_all
              (port_takes (len (tty_q m) + Z.of_nat (String.length s))) m1
              (errno m1))
    as (m' & Hw & Hpo & Hl & Hso & _).
  - cbn [port_takes e_wr write_retry]; rewrite Hlen; reflexivity.
  - lia.
  - rewrite Hw; cbn [bind]; exists m'.
    rewrite Hpo, Hp, Hq, Hso, Hs; repeat split; assumption.
Qed.

Lemma typed_bytes_reach_the_port_witness :
  exists m',
    loop_run (app (map key (list_ascii_of_string "AT")) [port_takes 2]) boot
      = Continue m'
    /\ port_out m' = "AT"
    /\ len (tty_q m') = 0
    /\ sto m' = "".
Proof.
  destruct (typed_bytes_reach_the_port "AT" boot)
    as (m' & Hrun & Hp & Hl & Hs).
  - reflexivity.
  - repeat constructor; discriminate.
  - cbn; lia.
  - unfold TTY_Q_SZ; cbn; lia.
  - exists m'; repeat split; assumption.
Defined.

(** ** Bytes on their way to the screen *)

Lemma port_byte_plain_step (c : ascii) (t : timeval) (m : machine) :
  tty_time_enable m = 0 ->
  errno_settled (errno m) ->
  exists m',
    loop_iter (port_byte (c, t)) m = Continue m'
    /\ tty_time_enable m' = 0
    /\ errno m' = errno m
    /\ tv_ref m' = tv_ref m
    /\ sto m' = sto m ++ str1 c
    /\ opts m' = opts m /\ tty_q m' = tty_q m /\ trace m' = trace m
    /\ port_out m' = port_out m /\ state m' = state m.
Proof.
  intros Hoff [Hag Hin].
  apply Z.eqb_neq in Hag, Hin.
  unfold loop_iter, loop_port_read, port_byte, is_newline.
  cbn [e_select e_rd_sti e_rd_tty e_wr_tty e_tty e_now e_sto fst snd bind
       read_retry write_sto].
  cbn [tty_time_enable tty_time errno with_errno].
  rewrite Hoff; cbn [Z.eqb negb andb].
  destruct (c =? LF)%char, (c =? CR)%char;
    cbn [orb errno sto with_errno with_sto with_tty_time];
    change EWOULDBLOCK with EAGAIN; rewrite Hag, Hin; cbn [orb bind];
    (eexists; split; [reflexivity|]);
    cbn [tty_time_enable errno tv_ref sto opts tty_q trace port_out state
         with_errno with_sto with_tty_time];
    repeat split; assumption.
Qed.

(** With timestamps off, the bytes the port delivers appear on the screen
    as they are and in order, newlines included, with nothing put between
    them; options, queue and reference time are left alone. *)
Theorem received_bytes_pass_verbatim (bs : list (ascii * timeval))
    (m : machine) :
  tty_time_enable m = 0 ->
  errno_settled (errno m) ->
  exists m',
    loop_run (map port_byte bs) m = Continue m'
    /\ sto m' = sto m ++ string_of_list_ascii (map fst bs)
    /\ tv_ref m' = tv_ref m
    /\ opts m' = opts m
    /\ tty_q m' = tty_q m
    /\ port_out m' = port_out m
    /\ trace m' = trace m.
Proof.
  revert m; induction bs as [|[c t] bs IH]; intros m Hoff Herr.
  - exists m; cbn [map loop_run string_of_list_ascii].
    rewrite append_nil_r; repeat split.
  - destruct (port_byte_plain_step c t m Hoff Herr)
      as (m1 & Hstep & Hoff1 & Herr1 & Href1 & Hsto1 & Ho1 & Hq1 & Ht1 & Hp1 & _).
    destruct (IH m1 Hoff1) as (m' & Hrun & Hsto & Href & Ho & Hq & Hp & Ht).
    + rewrite Herr1; exact Herr.
    + exists m'; cbn [map loop_run]; rewrite Hstep; cbn [bind].
      split; [exact Hrun|].
      rewrite Hsto, Hsto1, Href, Href1, Ho, Ho1, Hq, Hq1, Hp, Hp1, Ht, Ht1.
      cbn [map fst string_of_list_ascii]; rewrite append_assoc.
      repeat split.
Qed.

Lemma received_bytes_pass_verbatim_witness :
  exists m',
    loop_run
      (map port_byte [("o"%char, t0); ("k"%char, t0); (CR, t0); (LF, t0)])
      (with_tty_time_enable boot 0) = Continue m'
    /\ sto m' = "ok" ++ CRLF.
Proof.
  destruct (received_bytes_pass_verbatim
              [("o"%char, t0); ("k"%char, t0); (CR, t0); (LF, t0)]
              (with_tty_time_enable boot 0))
    as (m' & Hrun & Hsto & _).
  - reflexivity.
  - split; discriminate.
  - exists m'; split; [exact Hrun|exact Hsto].
Defined.

(** ** Reconfiguration *)

(** A reconfiguration key in Command state, whatever [term_apply]
    returns. *)
Lemma reconfigure_step (e : env) (m : machine) (c : ascii)
    (rest : list read_result) :
  state m = ST_COMMAND ->
  reconfigure_key c ->
  c <> escape (opts m) ->
  e_sti e = RdByte c :: rest ->
  exists m',
    loop_stdin e m = Continue m'
    /\ opts m' = (if fst (e_term e (term_apply tty_fd)) >=? 0
                  then reconfigure_opts c (opts m) else opts m)
    /\ sto m' = sto m ++ confirmation c (opts m')
    /\ tty_q m' = {| len := 0; buff := buff (tty_q m) |}
    /\ state m' = ST_TRANSPARENT
    /\ trace m' = app (trace m)
         [EvTerm (reconfigure_call c (opts m)); EvTerm (term_flush tty_fd);
          EvTerm (term_apply tty_fd)]
    /\ port_out m' = port_out m.
Proof.
  intros Hst Hkey Hesc Hsti.
  unfold loop_stdin; rewrite Hsti; cbn [read_retry].
  cbn [state with_errno]; rewrite Hst.
  unfold loop_command; cbn [opts with_errno with_state].
  apply Ascii.eqb_neq in Hesc; rewrite Hesc.
  destruct Hkey as [-> | [-> | [-> | [-> | ->]]]];
    cbn [Ascii.eqb Bool.eqb KEY_EXIT KEY_QUIT KEY_STATUS KEY_PULSE KEY_TOGGLE
         KEY_BAUD_UP KEY_BAUD_DN KEY_FLOW KEY_PARITY KEY_BITS andb];
    command_calls;
    (eexists; split; [reflexivity|]);
    unfold reconfigure_opts, reconfigure_call, confirmation;
    cbn [Ascii.eqb Bool.eqb KEY_BAUD_UP KEY_BAUD_DN KEY_FLOW KEY_PARITY
         KEY_BITS andb orb];
    machine_fields; autorewrite with term_fields;
    machine_fields; autorewrite with term_fields;
    rewrite <- ?app_assoc; cbn [app];
    repeat split.
Qed.



(** A byte that is neither the escape byte nor a command key, typed after
    the escape byte, is swallowed: it is not queued, nothing is printed, no
    call is made, and the interpreter is back in Transparent state. *)
Theorem unknown_command_is_ignored (e : env) (m : machine) (c : ascii)
    (rest : list read_result) :
  state m = ST_COMMAND ->
  c <> escape (opts m) ->
  ~ In c command_keys ->
  e_sti e = RdByte c :: rest ->
  loop_stdin e m = Continue (with_state m ST_TRANSPARENT).
Proof.
  intros Hst Hesc Hkey Hsti.
  unfold loop_stdin; rewrite Hsti; cbn [read_retry].
  cbn [state with_errno]; rewrite Hst.
  apply Ascii.eqb_neq in Hesc.
  unfold loop_command; cbn [opts with_errno]; rewrite Hesc.
  unfold command_keys in Hkey; cbn [In] in Hkey.
  repeat match goal with
  | |- context [if (c =? ?k)%char then _ else _] =>
      destruct (Ascii.eqb_spec c k) as [Heq|_];
        [exfalso; apply Hkey; rewrite Heq; tauto|]
  end.
  destruct m; reflexivity.
Qed.

Lemma unknown_command_is_ignored_witness :
  loop_stdin (key "z") (with_state boot ST_COMMAND)
    = Continue (with_state (with_state boot ST_COMMAND) ST_TRANSPARENT).
Proof.
  apply (unknown_command_is_ignored (key "z") (with_state boot ST_COMMAND)
           "z"%char []).
  - reflexivity.
  - discriminate.
  - unfold command_keys; cbn [In]; intros H.
    repeat (destruct H as [H|H]; [discriminate H|]); exact H.
  - reflexivity.
Defined.

(** ** Commands in a row *)

Lemma loop_iter_only_stdin (e : env) (m : machine) :
  e_select e = None -> e_rd_sti e = true -> e_rd_tty e = false ->
  e_wr_tty e = false ->
  loop_iter e m = loop_stdin e m.
Proof.
  intros Hsel Hrd Htty Hwr; unfold loop_iter.
  rewrite Hsel, Hrd, Htty, Hwr.
  destruct (loop_stdin e m); reflexivity.
Qed.

Lemma reconfigure_opts_escape (c : ascii) (o : opts_t) :
  escape (reconfigure_opts c o) = escape o.
Proof.
  unfold reconfigure_opts.
  repeat match goal with
  | |- context [if ?b then _ else _] => destruct b
  end; reflexivity.
Qed.

(** The escape byte and then a reconfiguration key, every call
    succeeding. *)
Lemma commands_run (cs : list ascii) :
  forall m,
    state m = ST_TRANSPARENT ->
    Forall reconfigure_key cs ->
    ~ reconfigure_key (escape (opts m)) ->
    exists m',
      loop_run (commands (escape (opts m)) cs) m = Continue m'
      /\ opts m' = fold_left (fun o c => reconfigure_opts c o) cs (opts m)
      /\ state m' = ST_TRANSPARENT
      /\ port_out m' = port_out m
      /\ (cs <> [] -> len (tty_q m') = 0).
Proof.
  induction cs as [|c cs IH]; intros m Hst Hkeys Hesc.
  - exists m; cbn; repeat split; try assumption; congruence.
  - apply Forall_cons_iff in Hkeys; destruct Hkeys as [Hc Hkeys].
    unfold commands; cbn [flat_map app loop_run].
    rewrite (loop_iter_only_key (escape (opts m)) (key (escape (opts m))) m)
      by (repeat split).
    rewrite Hst, Ascii.eqb_refl; cbn [bind].
    set (m1 := with_state (with_errno m (errno m)) ST_COMMAND).
    rewrite (loop_iter_only_stdin (key c) m1) by reflexivity.
    assert (Hne : c <> escape (opts m1)).
    { intros ->; apply Hesc; exact Hc. }
    destruct (reconfigure_step (key c) m1 c [] eq_refl Hc Hne eq_refl)
      as (m2 & Hrun & Ho & _ & Hq & Hst2 & _ & Hp).
    rewrite Hrun; cbn [bind].
    change (fst (e_term (key c) (term_apply tty_fd)) >=? 0) with true in Ho.
    cbv iota in Ho; cbn [opts m1 with_state with_errno] in Ho.
    assert (Hesc2 : escape (opts m2) = escape (opts m)).
    { rewrite Ho; apply reconfigure_opts_escape. }
    destruct (IH m2 Hst2 Hkeys) as (m' & Hrun' & Ho' & Hst' & Hp' & Hq').
    + rewrite Hesc2; exact Hesc.
    + rewrite Hesc2 in Hrun'.
      exists m'; split; [exact Hrun'|].
      cbn [fold_left]; rewrite Ho', Ho, Hp', Hp.
      repeat split; try assumption.
      intros _; destruct cs as [|c' cs'].
      * cbn [commands flat_map loop_run] in Hrun'.
        injection Hrun' as <-; rewrite Hq; reflexivity.
      * apply Hq'; discriminate.
Qed.

Lemma option_cycles (o : opts_t) :
  opts_ok o ->
  reconfigure_opts KEY_FLOW
    (reconfigure_opts KEY_FLOW (reconfigure_opts KEY_FLOW o)) = o
  /\ reconfigure_opts KEY_PARITY
       (reconfigure_opts KEY_PARITY (reconfigure_opts KEY_PARITY o)) = o
  /\ reconfigure_opts KEY_BITS
       (reconfigure_opts KEY_BITS
          (reconfigure_opts KEY_BITS (reconfigure_opts KEY_BITS o))) = o
  /\ (In (baud o) baud_ladder -> baud o <> 115200 ->
      reconfigure_opts KEY_BAUD_DN (reconfigure_opts KEY_BAUD_UP o) = o)
  /\ (In (baud o) baud_ladder -> baud o <> 300 ->
      reconfigure_opts KEY_BAUD_UP (reconfigure_opts KEY_BAUD_DN o) = o).
Proof.
  destruct o as [po b f fs pa ps d ni nr nl es sc rc].
  unfold opts_ok, reconfigure_opts;
    cbn [flow flow_str parity parity_str databits baud send_cmd receive_cmd
         Ascii.eqb Bool.eqb KEY_BAUD_UP KEY_BAUD_DN KEY_FLOW KEY_PARITY
         KEY_BITS andb with_baud with_flow with_parity with_databits].
  intros (Hf & Hp & Hd & _ & _).
  split; [destruct f; cbn in Hf |- *; subst; try reflexivity; contradiction|].
  split; [destruct pa; cbn in Hp |- *; subst; try reflexivity; contradiction|].
  split.
  { assert (Hc : d = 5 \/ d = 6 \/ d = 7 \/ d = 8) by lia.
    destruct Hc as [-> | [-> | [-> | ->]]]; reflexivity. }
  split; intros Hb Hend; unfold baud_ladder in Hb; cbn [In] in Hb;
    repeat (destruct Hb as [<-|Hb]; [first [reflexivity|contradiction]|]);
    contradiction.
Qed.

(** Pressed in a row, each behind the escape byte and with every call
    succeeding, three Ctrl-F, three Ctrl-Y or four Ctrl-B bring the
    options back to what they were, and so do Ctrl-U then Ctrl-D from a
    ladder rate below 115200 and Ctrl-D then Ctrl-U from one above 300. *)
Theorem option_cycles_close (m : machine) :
  state m = ST_TRANSPARENT ->
  ~ reconfigure_key (escape (opts m)) ->
  opts_ok (opts m) ->
  let after cs := opts (final (loop_run (commands (escape (opts m)) cs) m)) in
  after [KEY_FLOW; KEY_FLOW; KEY_FLOW] = opts m
  /\ after [KEY_PARITY; KEY_PARITY; KEY_PARITY] = opts m
  /\ after [KEY_BITS; KEY_BITS; KEY_BITS; KEY_BITS] = opts m
  /\ (In (baud (opts m)) baud_ladder -> baud (opts m) <> 115200 ->
      after [KEY_BAUD_UP; KEY_BAUD_DN] = opts m)
  /\ (In (baud (opts m)) baud_ladder -> baud (opts m) <> 300 ->
      after [KEY_BAUD_DN; KEY_BAUD_UP] = opts m).
Proof.
  intros Hst Hesc Hok; cbv zeta.
  assert (Hrun : forall cs, Forall reconfigure_key cs ->
            opts (final (loop_run (commands (escape (opts m)) cs) m))
            = fold_left (fun o c => reconfigure_opts c o) cs (opts m)).
  { intros cs Hcs.
    destruct (commands_run cs m Hst Hcs Hesc) as (m' & -> & Ho & _).
    exact Ho. }
  destruct (option_cycles (opts m) Hok) as (Hf & Hp & Hb & Hud & Hdu).
  unfold reconfigure_key.
  repeat split; intros; rewrite Hrun by (repeat constructor; tauto);
    cbn [fold_left]; auto.
Qed.

Lemma option_cycles_close_witness :
  opts (final (loop_run
    (commands "001" [KEY_BITS; KEY_BITS; KEY_BITS; KEY_BITS]) boot))
  = opts_init
  /\ opts (final (loop_run
       (commands "001" [KEY_BAUD_DN; KEY_BAUD_UP]) boot)) = opts_init.
Proof.
  destruct (option_cycles_close boot) as (_ & _ & Hb & _ & Hdu).
  - reflexivity.
  - unfold reconfigure_key; cbn; intros [H|[H|[H|[H|H]]]]; discriminate H.
  - repeat split; cbn; lia.
  - split; [exact Hb|].
    apply Hdu; [cbn; tauto|discriminate].
Defined.

(** ** A reconfiguration while a write is pending *)

(** The queue was not empty at the top of the pass, so the port is in the
    write set; a reconfiguration key read in the same pass empties the
    queue; the write that follows is given no byte, returns 0, and the
    program leaves through [fatal]. *)
Theorem reconfiguration_before_pending_write_is_fatal
    (e : env) (m : machine) (c : ascii) (rest : list read_result)
    (ws : list write_result) :
  state m = ST_COMMAND ->
  reconfigure_key c ->
  c <> escape (opts m) ->
  len (tty_q m) <> 0 ->
  e_select e = None ->
  e_rd_sti e = true ->
  e_sti e = RdByte c :: rest ->
  e_rd_tty e = false ->
  e_wr_tty e = true ->
  e_wr e = WrOk 0 :: ws ->
  exists m1 m',
    loop_stdin e m = Continue m1
    /\ len (tty_q m1) = 0
    /\ loop_iter e m = Fatal m'
    /\ sto m' = sto m1 ++ CRLF ++ "FATAL: "
                  ++ ("write to term failed: " ++ e_strerror e (errno m1))
                  ++ CRLF.
Proof.
  intros Hst Hkey Hesc Hlen Hsel Hrd Hsti Htty Hwr Hws.
  destruct (reconfigure_step e m c rest Hst Hkey Hesc Hsti)
    as (m1 & Hrun & _ & _ & Hq & _).
  exists m1; eexists.
  split; [exact Hrun|].
  split; [rewrite Hq; reflexivity|].
  unfold loop_iter; rewrite Hsel, Hrd, Htty, Hwr, Hrun; cbn [bind].
  apply Z.eqb_neq in Hlen; rewrite Hlen; cbn [negb andb].
  unfold loop_port_write; rewrite Hws; cbn [write_retry Z.leb Z.compare].
  unfold fatal; cbv zeta.
  split; [reflexivity|].
  cbn [sto with_sto errno with_errno]; autorewrite with term_fields.
  reflexivity.
Qed.

Lemma reconfiguration_before_pending_write_is_fatal_witness :
  exists m1 m',
    loop_stdin
      {| e_select := None; e_rd_sti := true; e_rd_tty := false;
         e_wr_tty := true; e_sti := [RdByte KEY_BITS]; e_tty := [];
         e_now := t0; e_wr := [WrOk 0]; e_term := fun _ => (0, 0);
         e_child := Exited 0; e_strerror := fun _ => "Success";
         e_sto := []; e_memcpy := memcpy_ascending |}
      (with_state (with_tty_q boot {| len := 1; buff := zero_mem |})
                  ST_COMMAND) = Continue m1
    /\ len (tty_q m1) = 0
    /\ loop_iter
         {| e_select := None; e_rd_sti := true; e_rd_tty := false;
            e_wr_tty := true; e_sti := [RdByte KEY_BITS]; e_tty := [];
            e_now := t0; e_wr := [WrOk 0]; e_term := fun _ => (0, 0);
            e_child := Exited 0; e_strerror := fun _ => "Success";
            e_sto := []; e_memcpy := memcpy_ascending |}
         (with_state (with_tty_q boot {| len := 1; buff := zero_mem |})
                     ST_COMMAND) = Fatal m'
    /\ sto m' = sto m1 ++ CRLF ++ "FATAL: write to term failed: Success"
                  ++ CRLF.
Proof.
  destruct (reconfiguration_before_pending_write_is_fatal
      {| e_select := None; e_rd_sti := true; e_rd_tty := false;
         e_wr_tty := true; e_sti := [RdByte KEY_BITS]; e_tty := [];
         e_now := t0; e_wr := [WrOk 0]; e_term := fun _ => (0, 0);
         e_child := Exited 0; e_strerror := fun _ => "Success";
         e_sto := []; e_memcpy := memcpy_ascending |}
      (with_state (with_tty_q boot {| len := 1; buff := zero_mem |})
                  ST_COMMAND) KEY_BITS [] [])
    as (m1 & m' & H1 & H2 & H3 & H4);
    try reflexivity.
  - right; right; right; right; reflexivity.
  - discriminate.
  - discriminate.
  - exists m1, m'; repeat split; assumption.
Defined.

(** ** The DTR line *)

(** Ctrl-T asks the driver to lower DTR when [dtr_up] is set and to raise
    it otherwise; [dtr_up] flips exactly when the call succeeds, and the
    line printed shows the value it then has.  It is 0 or 1 afterwards
    when it was before. *)
Theorem dtr_toggle_flips_on_success (e : env) (m : machine)
    (rest : list read_result) :
  state m = ST_COMMAND ->
  KEY_TOGGLE <> escape (opts m) ->
  e_sti e = RdByte KEY_TOGGLE :: rest ->
  let call := if dtr_up m =? 0 then term_raise_dtr tty_fd
              else term_lower_dtr tty_fd in
  exists m',
    loop_stdin e m = Continue m'
    /\ trace m' = app (trace m) [EvTerm call]
    /\ dtr_up m' = (if fst (e_term e call) >=? 0
                    then (if dtr_up m =? 0 then 1 else 0) else dtr_up m)
    /\ sto m' = sto m ++ CRLF ++ "*** DTR: "
                  ++ (if dtr_up m' =? 0 then "down" else "up")
                  ++ " ***" ++ CRLF
    /\ ((dtr_up m = 0 \/ dtr_up m = 1) -> (dtr_up m' = 0 \/ dtr_up m' = 1))
    /\ opts m' = opts m /\ tty_q m' = tty_q m /\ state m' = ST_TRANSPARENT.
Proof.
  intros Hst Hesc Hsti; cbv zeta.
  unfold loop_stdin; rewrite Hsti; cbn [read_retry].
  cbn [state with_errno]; rewrite Hst.
  unfold loop_command; cbn [opts with_errno with_state].
  apply Ascii.eqb_neq in Hesc; rewrite Hesc.
  cbn [Ascii.eqb Bool.eqb KEY_EXIT KEY_QUIT KEY_STATUS KEY_PULSE KEY_TOGGLE
       andb dtr_up with_state with_errno].
  destruct (dtr_up m =? 0) eqn:Hd;
    command_calls;
    (eexists; split; [reflexivity|]);
    machine_fields; autorewrite with term_fields; machine_fields;
    rewrite ?Hd; cbn [Z.eqb];
    repeat split; auto.
Qed.

Lemma dtr_toggle_flips_on_success_witness :
  exists m',
    loop_stdin (key KEY_TOGGLE) (with_state boot ST_COMMAND) = Continue m'
    /\ trace m' = [EvTerm (term_raise_dtr tty_fd)]
    /\ dtr_up m' = 1
    /\ sto m' = CRLF ++ "*** DTR: up ***" ++ CRLF.
Proof.
  destruct (dtr_toggle_flips_on_success (key KEY_TOGGLE)
              (with_state boot ST_COMMAND) [])
    as (m' & Hrun & Ht & Hd & Hs & _).
  - reflexivity.
  - discriminate.
  - reflexivity.
  - exists m'; split; [exact Hrun|].
    split; [exact Ht|].
    split; [exact Hd|].
    rewrite Hs, Hd; reflexivity.
Defined.

(** ** The command line of the child *)

Lemma length_append (a b : string) :
  String.length (a ++ b) = (String.length a + String.length b)%nat.
Proof. induction a as [|c a IH]; cbn; [reflexivity|now rewrite IH]. Qed.

(** The command line is built from whole arguments, in order, each
    followed by a space, up to the first one that would not leave room in
    [cmd[512]]; it never has more than 510 bytes, so the terminating NUL
    lands inside the array. *)
Theorem build_cmd_fits_buffer (args : list string) :
  (String.length (build_cmd args "") <= 510)%nat
  /\ exists k,
       (k <= List.length args)%nat
       /\ build_cmd args "" = spaced (firstn k args)
       /\ ((k < List.length args)%nat ->
           (511 <= String.length (spaced (firstn k args))
                   + String.length (nth k args "") + 1)%nat)
       /\ ((String.length (spaced args) <= 510)%nat -> k = List.length args).
Proof.
  assert (Hgen : forall args cmd,
    (String.length cmd <= 510)%nat ->
    (String.length (build_cmd args cmd) <= 510)%nat
    /\ exists k,
         (k <= List.length args)%nat
         /\ build_cmd args cmd = cmd ++ spaced (firstn k args)
         /\ ((k < List.length args)%nat ->
             (511 <= String.length (cmd ++ spaced (firstn k args))
                     + String.length (nth k args "") + 1)%nat)
         /\ ((String.length (cmd ++ spaced args) <= 510)%nat ->
             k = List.length args)).
  { clear args; induction args as [|s rest IH]; intros cmd Hcmd.
    - split; [exact Hcmd|].
      exists 0%nat; cbn [build_cmd firstn spaced fold_right List.length].
      rewrite append_nil_r; repeat split; lia.
    - cbn [build_cmd].
      destruct (Z.geb_spec
                  (Z.of_nat (String.length cmd) + Z.of_nat (String.length s) + 1)
                  511) as [Hfull|Hroom].
      + split; [exact Hcmd|].
        exists 0%nat; cbn [firstn spaced fold_right List.length nth].
        rewrite append_nil_r; repeat split; try lia.
        cbn [spaced fold_right]; rewrite !length_append; cbn [String.length].
        lia.
      + assert (Hcmd' : (String.length (cmd ++ s ++ " ") <= 510)%nat).
        { rewrite !length_append; cbn [String.length]; lia. }
        destruct (IH (cmd ++ s ++ " ") Hcmd')
          as (Hlen & k & Hk & Heq & Hstop & Hall).
        split; [exact Hlen|].
        exists (S k); cbn [firstn spaced fold_right List.length nth].
        fold (spaced (firstn k rest)); fold (spaced rest).
        assert (Hassoc : forall t, (cmd ++ s ++ " ") ++ t = cmd ++ s ++ " " ++ t).
        { intros t; rewrite !append_assoc; reflexivity. }
        rewrite Hassoc in Heq, Hstop; rewrite Hassoc in Hall.
        repeat split; [lia|exact Heq| |].
        * intros Hlt; apply Hstop; lia.
        * intros Hfit; rewrite Hall by exact Hfit; reflexivity. }
  destruct (Hgen args "" ltac:(cbn; lia)) as (Hlen & k & Hk & Heq & Hstop & Hall).
  split; [exact Hlen|]; exists k; auto.
Qed.

(** ** The prompt, byte by byte *)

Lemma string_of_list_ascii_app (a b : list ascii) :
  string_of_list_ascii (app a b)
  = string_of_list_ascii a ++ string_of_list_ascii b.
Proof. induction a as [|c a IH]; cbn; [reflexivity|now rewrite IH]. Qed.

Lemma string_of_list_ascii_length (a : list ascii) :
  String.length (string_of_list_ascii a) = List.length a.
Proof. induction a as [|c a IH]; cbn; [reflexivity|now rewrite IH]. Qed.

Lemma load_length (b : mem) (n : nat) :
  forall from, String.length (load b from n) = n.
Proof. induction n as [|n IH]; intros from; cbn; [reflexivity|now rewrite IH]. Qed.

Lemma append_snoc_inj (a : string) :
  forall a' x y,
    String.length a = String.length a' ->
    a ++ str1 x = a' ++ str1 y -> a = a'.
Proof.
  induction a as [|c a IH]; intros [|c' a'] x y Hlen Heq;
    try discriminate; [reflexivity|].
  cbn in Hlen, Heq; injection Heq as -> Heq.
  f_equal; apply (IH a' x y); [lia|exact Heq].
Qed.

(** The prompt follows the editor: with the stack [acc] in the buffer, the
    bytes [cs] and a carriage return leave the edited line there, ended by
    a NUL, and return its length. *)
Lemma fd_readline_from_edit (cs : list ascii) :
  forall (rest : list read_result) (bsz en : Z) (s : rl_state)
         (acc : list ascii),
    Forall (fun c => c <> CR) cs ->
    1 <= bsz ->
    rl_bp s = Z.of_nat (List.length acc) ->
    (List.length acc <= Z.to_nat (bsz - 1))%nat ->
    load (rl_b s) 0 (List.length acc) = string_of_list_ascii (rev acc) ->
    exists res,
      fd_readline_from (app (map RdByte cs) (RdByte CR :: rest)) bsz en s
        = Some res
      /\ rl_r res
         = Z.of_nat (List.length (rl_edit (Z.to_nat (bsz - 1)) acc cs))
      /\ load (rl_b (rl_end res)) 0
              (List.length (rl_edit (Z.to_nat (bsz - 1)) acc cs))
         = string_of_list_ascii (rl_edit (Z.to_nat (bsz - 1)) acc cs)
      /\ rl_b (rl_end res) (rl_r res) = NUL
      /\ 0 <= rl_r res <= bsz - 1
      /\ rl_errno res = en
      /\ rl_rest res = rest.
Proof.
  induction cs as [|c cs IH]; intros rest bsz en s acc Hcr Hbsz Hbp Hcap Hload.
  - cbn [map app fd_readline_from rl_edit].
    unfold fd_readline_switch; cbn [Ascii.eqb Bool.eqb CR BS andb].
    eexists; split; [reflexivity|].
    cbn [rl_r rl_end rl_b rl_errno rl_rest].
    rewrite length_rev.
    repeat split; try lia; try exact Hbp.
    + rewrite <- Hload; apply load_ext; intros i Hi; unfold upd.
      destruct (Z.eqb_spec (0 + i) (rl_bp s)); [lia|reflexivity].
    + unfold upd; rewrite Z.eqb_refl; reflexivity.
  - apply Forall_cons_iff in Hcr; destruct Hcr as [Hc Hcr].
    cbn [map app fd_readline_from rl_edit].
    unfold fd_readline_switch.
    destruct (c =? BS)%char eqn:Hbs.
    + destruct (Z.gtb_spec (rl_bp s) 0) as [Hpos|Hzero].
      * destruct acc as [|x acc]; [cbn in Hbp; lia|].
        cbn [tl].
        apply IH; try assumption; cbn [cput rl_bp rl_b List.length] in *;
          try lia.
        cbn [rev] in Hload.
        rewrite string_of_list_ascii_app, load_snoc in Hload.
        apply append_snoc_inj in Hload; [exact Hload|].
        rewrite load_length, string_of_list_ascii_length, length_rev.
        reflexivity.
      * destruct acc as [|x acc]; [|cbn in Hbp; lia].
        cbn [tl]; apply IH; try assumption.
    + apply Ascii.eqb_neq in Hc; rewrite Hc.
      destruct (Z.ltb_spec (rl_bp s) (bsz - 1)) as [Hroom|Hfull].
      * destruct (Nat.ltb_spec (List.length acc) (Z.to_nat (bsz - 1)));
          [|lia].
        apply IH; try assumption; cbn [cput rl_bp rl_b List.length];
          try lia.
        cbn [rev]; rewrite string_of_list_ascii_app, load_snoc.
        cbn [string_of_list_ascii]; f_equal.
        -- rewrite <- Hload; apply load_ext; intros i Hi; unfold upd.
           destruct (Z.eqb_spec (0 + i) (rl_bp s)); [lia|reflexivity].
        -- unfold upd, str1; rewrite Z.add_0_l, <- Hbp, Z.eqb_refl.
           reflexivity.
      * destruct (Nat.ltb_spec (List.length acc) (Z.to_nat (bsz - 1)));
          [lia|].
        apply IH; try assumption.
Qed.

(** [fd_readline] is a line editor: for any bytes typed before the
    carriage return, the buffer holds the line obtained by letting each
    backspace drop the last byte kept and keeping every other byte while
    fewer than [bsz - 1] are held; the line is ended by a NUL and its
    length is the value returned. *)
Theorem fd_readline_edits_line (cs : list ascii)
    (rest : list read_result) (fdo : string) (b : mem) (bsz en : Z) :
  Forall (fun c => c <> CR) cs ->
  1 <= bsz ->
  exists res,
    fd_readline (app (map RdByte cs) (RdByte CR :: rest)) fdo b bsz en
      = Some res
    /\ rl_r res = Z.of_nat (List.length (rl_edit (Z.to_nat (bsz - 1)) [] cs))
    /\ load (rl_b (rl_end res)) 0
            (List.length (rl_edit (Z.to_nat (bsz - 1)) [] cs))
       = string_of_list_ascii (rl_edit (Z.to_nat (bsz - 1)) [] cs)
    /\ rl_b (rl_end res) (rl_r res) = NUL
    /\ 0 <= rl_r res <= bsz - 1
    /\ rl_rest res = rest.
Proof.
  intros Hcr Hbsz.
  destruct (fd_readline_from_edit cs rest bsz en
              {| rl_bp := 0; rl_b := b; rl_fdo := fdo |} [] Hcr Hbsz)
    as (res & Hrun & Hr & Hload & Hnul & Hrange & _ & Hrest);
    [reflexivity|cbn; lia|reflexivity|].
  exists res; repeat split; try assumption; lia.
Qed.

Lemma fd_readline_edits_line_witness :
  exists res,
    fd_readline
      (app (map RdByte (list_ascii_of_string
              ("ax" ++ str1 BS ++ str1 BS ++ str1 BS ++ "log.txt")))
           [RdByte CR]) "" zero_mem 5 0 = Some res
    /\ rl_r res = 4
    /\ load (rl_b (rl_end res)) 0 4 = "log."
    /\ rl_b (rl_end res) 4 = NUL.
Proof.
  destruct (fd_readline_edits_line
              (list_ascii_of_string
                 ("ax" ++ str1 BS ++ str1 BS ++ str1 BS ++ "log.txt"))
              [] "" zero_mem 5 0)
    as (res & Hrun & Hr & Hload & Hnul & _).
  - repeat constructor; discriminate.
  - lia.
  - exists res; split; [exact Hrun|].
    split; [exact Hr|].
    split; [exact Hload|].
    rewrite Hr in Hnul; exact Hnul.
Defined.

(** ** The prompt inside the loop *)

Lemma fd_readline_from_nul (bsz : Z) (b0 : mem) (fdi : list read_result) :
  1 <= bsz ->
  forall (en : Z) (s : rl_state) (res : rl_result),
    rl_inv bsz b0 s ->
    fd_readline_from fdi bsz en s = Some res ->
    0 <= rl_r res ->
    rl_b (rl_end res) (rl_r res) = NUL /\ rl_r res <= bsz - 1.
Proof.
  intros Hbsz; induction fdi as [|r fdi IH]; intros en s res Hinv Hrun Hr.
  - discriminate.
  - destruct r as [c| |e]; cbn [fd_readline_from] in Hrun.
    + pose proof (fd_readline_switch_inv bsz b0 c s Hbsz Hinv) as Hstep.
      destruct (fd_readline_switch bsz c s) as [s'|r s'].
      * exact (IH en s' res Hstep Hrun Hr).
      * injection Hrun as <-; cbn [rl_r rl_end] in *.
        destruct Hstep as (_ & Hrange & Hnul & _); split; [exact Hnul|lia].
    + injection Hrun as <-; cbn [rl_r] in Hr; lia.
    + injection Hrun as <-; cbn [rl_r] in Hr; lia.
Qed.

Lemma c_str_length (b : mem) (k : nat) :
  forall (from : Z) (n : nat),
    b (from + Z.of_nat k) = NUL ->
    (k < n)%nat ->
    (String.length (c_str b from n) <= k)%nat.
Proof.
  induction k as [|k IH]; intros from n Hnul Hn.
  - destruct n as [|n]; [lia|].
    rewrite c_str_head; rewrite Z.add_0_r in Hnul; rewrite Hnul; cbn; lia.
  - destruct n as [|n]; [lia|].
    rewrite c_str_head.
    destruct (b from =? NUL)%char; [cbn; lia|].
    cbn [String.length].
    assert (String.length (c_str b (from + 1) n) <= k)%nat; [|lia].
    apply IH; [|lia].
    rewrite <- Hnul; f_equal; lia.
Qed.

(** Ctrl-S: once the prompt has returned a line and the child has run,
    [run_cmd] was called with [send_cmd] and the file name (empty or not),
    the name has at most 127 bytes, and the command line handed to
    [system] is [send_cmd], a space, the name and a space, nothing cut;
    the terminal is put back to raw mode and the exit status printed. *)
Theorem send_key_hands_off_whole_command (e : env) (m : machine)
    (rest : list read_result) (res : rl_result) (code : Z) :
  state m = ST_COMMAND ->
  escape (opts m) <> KEY_SEND ->
  e_sti e = RdByte KEY_SEND :: rest ->
  fd_readline rest (sto m ++ CRLF ++ "*** file: ") (fname m) 128 (errno m)
    = Some res ->
  0 <= rl_r res ->
  (String.length (send_cmd (opts m)) <= 127)%nat ->
  e_child e = Exited code ->
  exists m' name,
    loop_stdin e m = Continue m'
    /\ name = c_str (rl_b (rl_end res)) 0 128
    /\ (String.length name <= 127)%nat
    /\ trace m' = app (trace m)
         [EvRunCmd [send_cmd (opts m); name];
          EvSystem (send_cmd (opts m) ++ " " ++ name ++ " ");
          EvTerm (term_apply STI)]
    /\ sto m' = rl_fdo (rl_end res) ++ CRLF ++ CRLF ++ "*** exit status: "
                  ++ fmt_d 0 code ++ CRLF
    /\ state m' = ST_TRANSPARENT.
Proof.
  intros Hst Hesc Hsti Hline Hr Hsend Hchild.
  assert (Hnul : rl_b (rl_end res) (rl_r res) = NUL /\ rl_r res <= 127).
  { apply (fd_readline_from_nul 128 (fname m) rest ltac:(lia) (errno m)
             {| rl_bp := 0; rl_b := fname m;
                rl_fdo := sto m ++ CRLF ++ "*** file: " |} res);
      [split; cbn; [lia|reflexivity]|exact Hline|exact Hr]. }
  destruct Hnul as [Hnul Hr127].
  assert (Hname : (String.length (c_str (rl_b (rl_end res)) 0 128) <= 127)%nat).
  { assert (Hk : (String.length (c_str (rl_b (rl_end res)) 0 128)
                  <= Z.to_nat (rl_r res))%nat); [|lia].
    apply c_str_length; [|lia].
    rewrite Z.add_0_l, Z2Nat.id by lia; exact Hnul. }
  unfold loop_stdin; rewrite Hsti; cbn [read_retry].
  cbn [state with_errno]; rewrite Hst.
  unfold loop_command; cbn [opts with_errno with_state].
  assert (Hne : (KEY_SEND =? escape (opts m))%char = false).
  { apply Ascii.eqb_neq; congruence. }
  rewrite Hne.
  cbn [Ascii.eqb Bool.eqb KEY_EXIT KEY_QUIT KEY_STATUS KEY_PULSE KEY_TOGGLE
       KEY_BAUD_UP KEY_BAUD_DN KEY_FLOW KEY_PARITY KEY_BITS KEY_SEND andb].
  unfold read_fname, fd_printf.
  cbn [sto fname errno with_sto with_state with_errno].
  rewrite Hline.
  destruct (Z.ltb_spec (rl_r res) (-1)); [lia|].
  destruct (Z.leb_spec (rl_r res) (-1)); [lia|].
  cbn [andb].
  eexists; exists (c_str (rl_b (rl_end res)) 0 128).
  split; [reflexivity|].
  split; [reflexivity|].
  split; [exact Hname|].
  unfold run_cmd; rewrite Hchild.
  unfold fd_printf.
  cbn [trace sto state opts fname with_sto with_fname with_errno with_state
       with_trace].
  autorewrite with term_fields.
  cbn [trace sto state opts fname with_sto with_fname with_errno with_state
       with_trace].
  rewrite build_cmd_two by lia.
  rewrite <- !app_assoc; cbn [app].
  rewrite !append_assoc.
  repeat split.
Qed.

Lemma send_key_hands_off_whole_command_witness :
  exists m',
    loop_stdin (typing KEY_SEND ("f.bin" ++ str1 CR) (fun _ => false))
               (with_state boot ST_COMMAND) = Continue m'
    /\ trace m' =
         [EvRunCmd ["ascii_xfr -s -v -l10"; "f.bin"];
          EvSystem "ascii_xfr -s -v -l10 f.bin ";
          EvTerm (term_apply STI)].
Proof.
  edestruct (send_key_hands_off_whole_command
               (typing KEY_SEND ("f.bin" ++ str1 CR) (fun _ => false))
               (with_state boot ST_COMMAND))
    as (m' & name & Hrun & Hname & _ & Ht & _).
  - reflexivity.
  - discriminate.
  - reflexivity.
  - vm_compute; reflexivity.
  - vm_compute; discriminate.
  - cbn; lia.
  - reflexivity.
  - exists m'; split; [exact Hrun|].
    rewrite Ht, Hname; vm_compute; reflexivity.
Defined.

Lemma fd_readline_from_fails (cs : list ascii) :
  forall (r : read_result) (rest : list read_result) (bsz en : Z)
         (s : rl_state),
    Forall (fun c => c <> CR) cs ->
    match r with RdByte _ => False | _ => True end ->
    exists res,
      fd_readline_from (app (map RdByte cs) (r :: rest)) bsz en s = Some res
      /\ rl_r res = match r with RdEof => -1 | _ => -2 end
      /\ rl_errno res = match r with RdErr e => e | _ => en end.
Proof.
  induction cs as [|c cs IH]; intros r rest bsz en s Hcr Hr.
  - destruct r as [c| |e]; [contradiction| |];
      cbn [map app fd_readline_from]; eexists; repeat split.
  - apply Forall_cons_iff in Hcr; destruct Hcr as [Hc Hcr].
    cbn [map app fd_readline_from].
    assert (Hloop : exists s', fd_readline_switch bsz c s = RlLoop s').
    { unfold fd_readline_switch.
      apply Ascii.eqb_neq in Hc; rewrite Hc.
      repeat match goal with
      | |- context [if ?b then _ else _] => destruct b
      end; eexists; reflexivity. }
    destruct Hloop as [s' ->]; apply IH; assumption.
Qed.

Lemma fatal_handoffs (e : env) (msg : string) (m : machine) :
  handoffs (trace (final (fatal e msg m))) = handoffs (trace m).
Proof.
  unfold fatal; cbv zeta; cbn [final trace with_sto].
  autorewrite with term_fields.
  rewrite !handoffs_app; cbn [handoffs]; rewrite !app_nil_r; reflexivity.
Qed.

(** The prompt and what follows it, when the reads end in a failure. *)
Lemma read_fname_fails (e : env) (cs : list ascii) (r : read_result)
    (rest : list read_result) (k : machine -> machine) (m : machine) :
  Forall (fun x => x <> CR) cs ->
  match r with RdByte _ => False | _ => True end ->
  let o := read_fname e (app (map RdByte cs) (r :: rest)) k m in
  handoffs (trace (final o)) = handoffs (trace m)
  /\ (r = RdErr EINTR ->
      exists m', o = Continue m'
                 /\ state m' = state m
                 /\ trace m' = trace m
                 /\ opts m' = opts m
                 /\ tty_q m' = tty_q m)
  /\ (r <> RdErr EINTR -> exists m', o = Fatal m' /\ fatal_shape m').
Proof.
  intros Hcr Hr; cbv zeta; unfold read_fname.
  destruct (fd_readline_from_fails cs r rest 128 (errno m)
              {| rl_bp := 0; rl_b := fname m; rl_fdo := sto m |} Hcr Hr)
    as (res & Hrun & Hres & Hen).
  unfold fd_readline; rewrite Hrun, Hres.
  unfold fd_printf; cbn [errno with_sto with_errno]; rewrite Hen.
  destruct r as [x| |e0]; [contradiction| |].
  - change (-1 <? -1) with false; change (-1 <=? -1) with true.
    cbn [andb].
    split; [rewrite fatal_handoffs; reflexivity|].
    split; [discriminate|].
    intros _; eexists; split; [reflexivity|].
    eapply fatal_has_shape; reflexivity.
  - change (-2 <? -1) with true; change (-2 <=? -1) with true.
    cbn [andb].
    destruct (Z.eqb_spec e0 EINTR) as [->|Hne].
    + split; [reflexivity|].
      split; [|congruence].
      intros _; eexists; split; [reflexivity|]; repeat split.
    + split; [rewrite fatal_handoffs; reflexivity|].
      split; [intros H; injection H as H; contradiction|].
      intros _; eexists; split; [reflexivity|].
      eapply fatal_has_shape; reflexivity.
Qed.

(** A prompt that does not get its line hands nothing off.  When the read
    is interrupted ([EINTR]) the command is dropped and the loop goes on
    in Transparent state with options and trace untouched; when the
    terminal is closed or the read fails otherwise, the program leaves
    through [fatal]. *)
Theorem failed_prompt_hands_nothing_off (e : env) (m : machine)
    (c : ascii) (cs : list ascii) (r : read_result)
    (rest : list read_result) :
  state m = ST_COMMAND ->
  c = KEY_SEND \/ c = KEY_RECEIVE ->
  c <> escape (opts m) ->
  Forall (fun x => x <> CR) cs ->
  match r with RdByte _ => False | _ => True end ->
  e_sti e = RdByte c :: app (map RdByte cs) (r :: rest) ->
  handoffs (trace (final (loop_stdin e m))) = handoffs (trace m)
  /\ (r = RdErr EINTR ->
      exists m', loop_stdin e m = Continue m'
                 /\ state m' = ST_TRANSPARENT
                 /\ trace m' = trace m
                 /\ opts m' = opts m
                 /\ tty_q m' = tty_q m)
  /\ (r <> RdErr EINTR ->
      exists m', loop_stdin e m = Fatal m' /\ fatal_shape m').
Proof.
  intros Hst Hkey Hesc Hcr Hr Hsti.
  unfold loop_stdin; rewrite Hsti; cbn [read_retry].
  cbn [state with_errno]; rewrite Hst.
  unfold loop_command; cbn [opts with_errno with_state].
  apply Ascii.eqb_neq in Hesc; rewrite Hesc.
  destruct Hkey as [-> | ->];
    cbn [Ascii.eqb Bool.eqb KEY_EXIT KEY_QUIT KEY_STATUS KEY_PULSE KEY_TOGGLE
         KEY_BAUD_UP KEY_BAUD_DN KEY_FLOW KEY_PARITY KEY_BITS KEY_SEND
         KEY_RECEIVE andb];
    match goal with
    | |- context [read_fname e _ ?k ?m0] =>
        exact (read_fname_fails e cs r rest k m0 Hcr Hr)
    end.
Qed.

Lemma failed_prompt_hands_nothing_off_witness :
  exists m',
    loop_stdin
      {| e_select := None; e_rd_sti := true; e_rd_tty := false;
         e_wr_tty := false;
         e_sti := [RdByte KEY_SEND; RdByte "a"; RdErr EINTR];
         e_tty := []; e_now := t0; e_wr := [];
         e_term := fun _ => (0, 0); e_child := Exited 0;
         e_strerror := fun _ => "error";
         e_sto := []; e_memcpy := memcpy_ascending |}
      (with_state boot ST_COMMAND) = Continue m'
    /\ state m' = ST_TRANSPARENT
    /\ trace m' = [].
Proof.
  destruct (failed_prompt_hands_nothing_off
      {| e_select := None; e_rd_sti := true; e_rd_tty := false;
         e_wr_tty := false;
         e_sti := [RdByte KEY_SEND; RdByte "a"; RdErr EINTR];
         e_tty := []; e_now := t0; e_wr := [];
         e_term := fun _ => (0, 0); e_child := Exited 0;
         e_strerror := fun _ => "error";
         e_sto := []; e_memcpy := memcpy_ascending |}
      (with_state boot ST_COMMAND) KEY_SEND ["a"%char] (RdErr EINTR) [])
    as (_ & Hintr & _).
  - reflexivity.
  - left; reflexivity.
  - discriminate.
  - repeat constructor; discriminate.
  - exact I.
  - reflexivity.
  - destruct (Hintr eq_refl) as (m' & Hrun & Hst & Ht & _).
    exists m'; repeat split; assumption.
Defined.

Lemma receive_key_sends_typed_name_witness :
  exists m',
    loop_stdin (typing KEY_RECEIVE ("boot.img" ++ str1 CR) (fun _ => false))
               (with_state boot ST_COMMAND) = Continue m'
    /\ handoffs (trace m') = [["ascii_xfr -s -v -l10"; "boot.img"]].
Proof.
  destruct (receive_key_sends_typed_name
              (typing KEY_RECEIVE ("boot.img" ++ str1 CR) (fun _ => false))
              (with_state boot ST_COMMAND) "boot.img" [])
    as (m' & Hrun & Hcalls).
  - reflexivity.
  - discriminate.
  - discriminate.
  - repeat constructor; discriminate.
  - cbn; lia.
  - reflexivity.
  - exists m'; split; [exact Hrun|exact Hcalls].
Defined.

(** ** writen_ni *)

Lemma substring_app (s : string) :
  forall a b, substring 0 a s ++ substring a b s = substring 0 (a + b) s.
Proof.
  induction s as [|c s IH]; intros a b.
  - destruct a, b; reflexivity.
  - destruct a as [|a].
    + destruct b; reflexivity.
    + cbn [Nat.add substring append]; rewrite IH; reflexivity.
Qed.

Lemma writen_ni_loop_inv (ws : list write_answer) (buff : string) :
  answers_sane ws ->
  Z.of_nat (String.length buff) < 9223372036854775808 ->
  forall s s',
    0 <= wn_nl s -> 0 <= wn_off s ->
    wn_off s + wn_nl s = Z.of_nat (String.length buff) ->
    wn_out s = substring 0 (Z.to_nat (wn_off s)) buff ->
    writen_ni_loop ws buff s = Some s' ->
    0 <= wn_nl s' /\ 0 <= wn_off s'
    /\ wn_off s' + wn_nl s' = Z.of_nat (String.length buff)
    /\ wn_out s' = substring 0 (Z.to_nat (wn_off s')) buff
    /\ (answers_willing ws -> wn_nl s' = 0).
Proof.
  intros Hsane Hsize; induction ws as [|w ws IH];
    intros s s' Hnl Hoff Hsum Hout Hrun.
  - cbn [writen_ni_loop] in Hrun.
    destruct (Z.gtb_spec (wn_nl s) 0); [discriminate|].
    injection Hrun as <-; repeat split; try assumption; lia.
  - apply Forall_cons_iff in Hsane; destruct Hsane as [Hw Hsane].
    cbn [writen_ni_loop] in Hrun.
    destruct (Z.gtb_spec (wn_nl s) 0) as [Hpos|Hzero];
      [|injection Hrun as <-; repeat split; try assumption; lia].
    destruct (w (wn_nl s)) as [nw|e] eqn:Hans.
    + destruct (Z.leb_spec nw 0) as [Hz|Hz].
      * injection Hrun as <-; repeat split; try assumption.
        intros Hwill; apply Forall_cons_iff in Hwill.
        destruct Hwill as [Hwill _]; specialize (Hwill (wn_nl s) Hpos).
        rewrite Hans in Hwill; lia.
      * pose proof (Hw _ _ Hans) as Hle.
        assert (Hwrap : wrap_size (wn_nl s - nw) = wn_nl s - nw).
        { unfold wrap_size; apply Z.mod_small; lia. }
        rewrite Hwrap in Hrun.
        apply (IH Hsane) in Hrun; cbn [wn_nl wn_off wn_out]; try lia.
        -- destruct Hrun as (H1 & H2 & H3 & H4 & H5).
           repeat split; try assumption.
           intros Hwill; apply H5.
           apply Forall_cons_iff in Hwill; tauto.
        -- rewrite Hout, substring_app; f_equal; lia.
    + cbv zeta in Hrun.
      destruct (Z.eqb_spec e EINTR) as [->|Hne].
      * apply (IH Hsane) in Hrun; cbn [wn_nl wn_off wn_out]; try lia;
          [|exact Hout].
        destruct Hrun as (H1 & H2 & H3 & H4 & H5).
        repeat split; try assumption.
        intros Hwill; apply H5.
        apply Forall_cons_iff in Hwill; tauto.
      * injection Hrun as <-; cbn [wn_nl wn_off wn_out].
        repeat split; try assumption.
        intros Hwill; apply Forall_cons_iff in Hwill.
        destruct Hwill as [Hwill _]; specialize (Hwill (wn_nl s) Hpos).
        rewrite Hans in Hwill; contradiction.
Qed.

(** Against a kernel that never reports more than it was given,
    [writen_ni] returns the number of bytes it has written, between 0 and
    [n], and those bytes are the first ones of the buffer, in order:
    short writes and interrupted writes lose and repeat nothing.  If no
    write fails for good or returns 0, it has written the whole buffer. *)
Theorem writen_ni_writes_a_prefix (ws : list write_answer) (buff : string)
    (en r en' : Z) (out : string) :
  answers_sane ws ->
  Z.of_nat (String.length buff) < 9223372036854775808 ->
  writen_ni ws buff en = Some (r, out, en') ->
  0 <= r <= Z.of_nat (String.length buff)
  /\ out = substring 0 (Z.to_nat r) buff
  /\ (answers_willing ws -> r = Z.of_nat (String.length buff) /\ out = buff).
Proof.
  intros Hsane Hsize; unfold writen_ni.
  destruct (writen_ni_loop ws buff _) as [s'|] eqn:Hrun; [|discriminate].
  intros H; injection H as <- <- <-.
  apply (writen_ni_loop_inv ws buff Hsane Hsize) in Hrun;
    cbn [wn_nl wn_off wn_out]; try lia;
    [|destruct buff; reflexivity].
  destruct Hrun as (H1 & H2 & H3 & H4 & H5).
  replace (Z.of_nat (String.length buff) - wn_nl s') with (wn_off s') by lia.
  split; [lia|]; split; [exact H4|].
  intros Hwill; specialize (H5 Hwill).
  split; [lia|].
  rewrite H4.
  replace (Z.to_nat (wn_off s')) with (String.length buff) by lia.
  clear; induction buff as [|c b IH]; cbn; [reflexivity|now rewrite IH].
Qed.

Lemma writen_ni_writes_a_prefix_witness :
  writen_ni
    [ (fun nl => WrOk (Z.min 2 nl)); (fun _ => WrErr EINTR);
      (fun nl => WrOk nl) ]
    "FATAL" 0 = Some (5, "FATAL", EINTR)
  /\ 0 <= 5 <= Z.of_nat (String.length "FATAL")
  /\ "FATAL" = substring 0 (Z.to_nat 5) "FATAL".
Proof.
  assert (Hrun : writen_ni
            [ (fun nl => WrOk (Z.min 2 nl)); (fun _ => WrErr EINTR);
              (fun nl => WrOk nl) ]
            "FATAL" 0 = Some (5, "FATAL", EINTR)) by reflexivity.
  split; [exact Hrun|].
  assert (Hsane : answers_sane
            [ (fun nl => WrOk (Z.min 2 nl)); (fun _ => WrErr EINTR);
              (fun nl => WrOk nl) ]).
  { repeat constructor; intros nl nw H; try discriminate H;
      injection H as <-; lia. }
  assert (Hsize : Z.of_nat (String.length "FATAL") < 9223372036854775808)
    by (cbn; lia).
  destruct (writen_ni_writes_a_prefix _ "FATAL" 0 5 EINTR "FATAL" Hsane
              Hsize Hrun) as (Hr & Hout & _).
  split; [exact Hr|exact Hout].
Defined.

(** ** The name of the lock file *)

Lemma slashes_to_underscores_flat (s : string) :
  no_slash (slashes_to_underscores s)
  /\ String.length (slashes_to_underscores s) = String.length s.
Proof.
  unfold no_slash; induction s as [|c s [IH1 IH2]]; cbn;
    [split; [constructor|reflexivity]|].
  split; [|now rewrite IH2].
  constructor; [|exact IH1].
  destruct (Ascii.eqb_spec c "/"); [discriminate|assumption].
Qed.

Lemma slashes_to_underscores_id (s : string) :
  no_slash s -> slashes_to_underscores s = s.
Proof.
  unfold no_slash; induction s as [|c s IH]; intros Hs; [reflexivity|].
  cbn in Hs |- *; apply Forall_cons_iff in Hs; destruct Hs as [Hc Hs].
  apply Ascii.eqb_neq in Hc; rewrite Hc, IH by exact Hs; reflexivity.
Qed.

Lemma strchr_slash_first (a rest : string) :
  no_slash a ->
  strchr_slash (a ++ String "/" rest) = Some (String "/" rest).
Proof.
  unfold no_slash; induction a as [|c a IH]; intros Ha; [reflexivity|].
  cbn in Ha |- *; apply Forall_cons_iff in Ha; destruct Ha as [Hc Ha].
  apply Ascii.eqb_neq in Hc; rewrite Hc; exact (IH Ha).
Qed.

Lemma strchr_slash_none (s : string) :
  no_slash s -> strchr_slash s = None.
Proof.
  unfold no_slash; induction s as [|c s IH]; intros Hs; [reflexivity|].
  cbn in Hs |- *; apply Forall_cons_iff in Hs; destruct Hs as [Hc Hs].
  apply Ascii.eqb_neq in Hc; rewrite Hc; exact (IH Hs).
Qed.

Lemma strchr_slash_suffix (s q : string) :
  strchr_slash s = Some q -> (String.length q <= String.length s)%nat.
Proof.
  induction s as [|c s IH]; [discriminate|]; cbn.
  destruct (c =? "/")%char; [intros H; injection H as <-; cbn; lia|].
  intros H; specialize (IH H); lia.
Qed.

(** With a directory that exists, the lock is named [dir], "/LCK..", and a
    base name without any slash, cut to 255 bytes: the base is the device
    path behind the first slash found after its first byte, or the whole
    path when there is none, with the slashes turned into underscores.  So
    "/dev/ttyS0" locks as "LCK..ttyS0" and "/dev/usb/tty0" as
    "LCK..usb_tty0".  Without a directory nothing is named. *)
Theorem uucp_lockname_is_flat (d file : string) :
  d <> "" -> file <> "" ->
  (exists base,
     uucp_lockname true (Some d) file
       = Some (snprintf_cut POSIX_PATH_MAX (d ++ "/LCK.." ++ base))
     /\ no_slash base
     /\ (String.length base <= String.length file)%nat
     /\ (forall c0 a rest,
           file = String c0 (a ++ String "/" rest) -> no_slash a ->
           base = slashes_to_underscores rest)
     /\ (no_slash (str_tail file) -> base = slashes_to_underscores file)
     /\ (forall dev, no_slash dev -> file = "/dev/" ++ dev -> base = dev))
  /\ uucp_lockname false (Some d) file = None
  /\ uucp_lockname true None file = None
  /\ uucp_lockname true (Some "") file = None.
Proof.
  intros Hd _.
  split; [|repeat split; unfold uucp_lockname;
           destruct d; [contradiction|reflexivity]].
  unfold uucp_lockname.
  destruct d as [|d0 d]; [contradiction|].
  cbn [String.length Nat.eqb orb negb]; cbv zeta.
  eexists; split; [reflexivity|].
  split; [apply slashes_to_underscores_flat|].
  split.
  { rewrite (proj2 (slashes_to_underscores_flat _)).
    destruct (strchr_slash (str_tail file)) as [q|] eqn:Hq; [|lia].
    apply strchr_slash_suffix in Hq.
    destruct file, q; cbn in *; lia. }
  split.
  { intros c0 a rest -> Ha; cbn [str_tail].
    rewrite (strchr_slash_first a rest Ha); reflexivity. }
  split.
  { intros Hs; rewrite (strchr_slash_none _ Hs); reflexivity. }
  intros dev Hdev ->.
  change (str_tail ("/dev/" ++ dev)) with ("dev" ++ String "/" dev).
  rewrite (strchr_slash_first "dev" dev) by (repeat constructor; discriminate).
  cbn [str_tail]; apply slashes_to_underscores_id; exact Hdev.
Qed.

Lemma uucp_lockname_is_flat_witness :
  uucp_lockname true (Some "/var/lock") "/dev/usb/tty0"
    = Some "/var/lock/LCK..usb_tty0"
  /\ uucp_lockname true (Some "/var/lock") "/dev/ttyS0"
     = Some "/var/lock/LCK..ttyS0".
Proof.
  assert (Hd : "/var/lock" <> "") by discriminate.
  assert (Hf : "/dev/usb/tty0" <> "") by discriminate.
  destruct (uucp_lockname_is_flat "/var/lock" "/dev/usb/tty0" Hd Hf)
    as ((base & Hname & _ & _ & Hcut & _) & _).
  split; [|reflexivity].
  rewrite Hname, (Hcut "/"%char "dev" "usb/tty0" eq_refl)
    by (repeat constructor; discriminate).
  reflexivity.
Defined.

(** ** The command line *)

Lemma substring_length_le (n : nat) (s : string) :
  (String.length (substring 0 n s) <= n)%nat.
Proof.
  revert s; induction n as [|n IH]; intros [|c s]; cbn; try lia.
  specialize (IH s); lia.
Qed.

Lemma parse_args_case_effect (atoi : string -> Z) (c : ascii)
    (optarg : string) (m m1 : machine) (e : string) :
  parse_args_case atoi c optarg m = Some (m1, e) ->
  (opts_ok (opts m) -> opts_ok (opts m1))
  /\ port (opts m1) = port (opts m)
  /\ tty_q m1 = tty_q m /\ state m1 = state m /\ sto m1 = sto m
  /\ port_out m1 = port_out m /\ trace m1 = trace m.
Proof.
  unfold parse_args_case, parse_args_t.
  repeat match goal with
         | |- context [if ?b then _ else _] => destruct b
         end.
  all: intros H; try discriminate H.
  all: apply (f_equal (fun r => match r with
                                | Some (x, _) => x
                                | None => m
                                end)) in H; subst m1.
  all: split; [|repeat split].
  all: unfold opts_ok; cbn; intros (Hf & Hp & Hd & Hs & Hr);
    repeat split; try assumption; try lia;
    apply substring_length_le.
Qed.

Lemma parse_args_opts_effect (atoi : string -> Z) (version argv0 : string)
    (got : list (ascii * string)) (m m1 : machine) (err out err1 : string) :
  parse_args_opts atoi version argv0 got m err = Parsed m1 out err1 ->
  (opts_ok (opts m) -> opts_ok (opts m1))
  /\ port (opts m1) = port (opts m)
  /\ tty_q m1 = tty_q m /\ state m1 = state m /\ sto m1 = sto m
  /\ port_out m1 = port_out m /\ trace m1 = trace m.
Proof.
  revert m err; induction got as [|[c optarg] got IH]; intros m err; cbn.
  - intros H; apply (f_equal (fun r => match r with
                                       | Parsed x _ _ => x
                                       | Exits _ _ _ => m
                                       end)) in H; subst m1.
    split; [exact (fun H => H)|]; repeat split.
  - destruct (parse_args_case atoi c optarg m) as [[m' e]|] eqn:Hc.
    + intros H; apply IH in H.
      apply parse_args_case_effect in Hc.
      destruct H as (H1 & H2 & H3 & H4 & H5 & H6 & H7).
      destruct Hc as (C1 & C2 & C3 & C4 & C5 & C6 & C7).
      split; [intros Hok; exact (H1 (C1 Hok))|].
      repeat split; congruence.
    + destruct (c =? "h")%char; discriminate.
Qed.

Lemma loop_run_opts_ok (es : list env) (m : machine) :
  opts_ok (opts m) -> opts_ok (opts (final (loop_run es m))).
Proof.
  revert m; induction es as [|e es IH]; intros m Hok; [exact Hok|].
  cbn [loop_run].
  destruct (reconfigured_keeps_ok _ _ (loop_iter_opts e m) Hok) as (Hok1 & _).
  destruct (bind_cases (loop_iter e m) (loop_run es))
    as [(m1 & Hstep & ->)|(_ & ->)]; [|exact Hok1].
  rewrite Hstep in Hok1; exact (IH m1 Hok1).
Qed.

(** Whatever options the command line holds and whatever [atoi] makes of
    the baud rate: when [parse_args] returns, the mode strings name the
    modes, the data bits are 5 to 8, the two transfer commands and the port
    name have at most 127 bytes, the port name is the first 127 bytes of
    the first argument that is not an option, the summary printed is the
    one of the options in force, nothing else of the session was touched,
    and the options stay sound through any run of the loop that follows. *)
Theorem command_line_keeps_options_sound (atoi : string -> Z)
    (version argv0 : string) (got : list (ascii * string))
    (rest : list string) (m m' : machine) (out err : string)
    (es : list env) :
  opts_ok (opts m) ->
  parse_args atoi version argv0 got rest m = Parsed m' out err ->
  opts_ok (opts m')
  /\ (String.length (port (opts m')) <= 127)%nat
  /\ (exists p rest', rest = p :: rest'
                      /\ port (opts m') = substring 0 127 p)
  /\ out = banner version (opts m')
  /\ tty_q m' = tty_q m /\ state m' = state m /\ sto m' = sto m
  /\ port_out m' = port_out m /\ trace m' = trace m
  /\ opts_ok (opts (final (loop_run es m'))).
Proof.
  intros Hok; unfold parse_args.
  destruct (parse_args_opts atoi version argv0 got m "")
    as [m1 out1 err1|] eqn:Hopts; [|discriminate].
  destruct rest as [|p rest']; [discriminate|].
  intros H.
  assert (Hm : m' = with_opts m1 (with_port (opts m1) (strncpy_cut 127 p))).
  { apply (f_equal (fun r => match r with
                             | Parsed x _ _ => x
                             | Exits _ _ _ => m'
                             end)) in H; symmetry; exact H. }
  assert (Hout : out = banner version (opts m')).
  { rewrite Hm.
    apply (f_equal (fun r => match r with
                             | Parsed _ x _ => x
                             | Exits _ _ _ => out
                             end)) in H; symmetry; exact H. }
  apply parse_args_opts_effect in Hopts.
  destruct Hopts as (H1 & H2 & H3 & H4 & H5 & H6 & H7).
  assert (Hok' : opts_ok (opts m')).
  { subst m'; destruct (H1 Hok) as (Hf & Hp & Hd & Hs & Hr).
    unfold opts_ok; cbn; repeat split; try assumption; lia. }
  split; [exact Hok'|].
  split; [subst m'; cbn; apply substring_length_le|].
  split; [exists p, rest'; subst m'; split; reflexivity|].
  split; [exact Hout|].
  split; [subst m'; exact H3|].
  split; [subst m'; exact H4|].
  split; [subst m'; exact H5|].
  split; [subst m'; exact H6|].
  split; [subst m'; exact H7|].
  exact (loop_run_opts_ok es _ Hok').
Qed.

Lemma command_line_keeps_options_sound_witness :
  exists m out,
    parse_args (fun _ => 9600) "1.4" "picocom"
      [("b"%char, "9600"); ("f"%char, "h"); ("p"%char, "E"); ("t"%char, "")]
      ["/dev/ttyS0"] boot
    = Parsed m out (ignored "parity" "E" "'o', 'e', or 'n'")
    /\ opts_ok (opts m)
    /\ port (opts m) = "/dev/ttyS0"
    /\ flow_str (opts m) = "RTS/CTS"
    /\ parity_str (opts m) = "none"
    /\ opts_ok (opts (final (loop_run [key "001"; key KEY_BITS] m))).
Proof.
  assert (Hok : opts_ok (opts boot)).
  { repeat split; cbn; lia. }
  eexists; eexists.
  assert (Hrun :
    parse_args (fun _ => 9600) "1.4" "picocom"
      [("b"%char, "9600"); ("f"%char, "h"); ("p"%char, "E"); ("t"%char, "")]
      ["/dev/ttyS0"] boot
    = Parsed
        (with_opts (parse_args_t boot)
           (with_port (with_flow (with_baud opts_init 9600) FC_RTSCTS "RTS/CTS")
              "/dev/ttyS0"))
        (banner "1.4"
           (with_port (with_flow (with_baud opts_init 9600) FC_RTSCTS "RTS/CTS")
              "/dev/ttyS0"))
        (ignored "parity" "E" "'o', 'e', or 'n'")) by reflexivity.
  split; [exact Hrun|].
  destruct (command_line_keeps_options_sound _ _ _ _ _ _ _ _ _
              [key "001"; key KEY_BITS] Hok Hrun)
    as (Hok' & _ & _ & _ & _ & _ & _ & _ & _ & Hloop).
  split; [exact Hok'|].
  split; [reflexivity|].
  split; [reflexivity|].
  split; [reflexivity|].
  exact Hloop.
Defined.



Lemma parse_args_case_break (atoi : string -> Z) (c : ascii)
    (optarg : string) (m : machine) :
  In c break_options ->
  exists m1 e, parse_args_case atoi c optarg m = Some (m1, e).
Proof.
  intros Hin; cbn in Hin.
  repeat (destruct Hin as [<- | Hin];
          [unfold parse_args_case; cbn [Ascii.eqb Bool.eqb andb];
           repeat match goal with
                  | |- context [if ?b then _ else _] => destruct b
                  end; eexists; eexists; reflexivity|]).
  contradiction.
Qed.

Lemma parse_args_case_other (atoi : string -> Z) (c : ascii)
    (optarg : string) (m : machine) :
  ~ In c break_options -> parse_args_case atoi c optarg m = None.
Proof.
  intros Hout; unfold parse_args_case.
  repeat match goal with
         | |- context [(c =? ?k)%char] =>
             destruct (Ascii.eqb_spec c k) as [->|_];
               [exfalso; apply Hout; cbn; tauto|]
         end.
  reflexivity.
Qed.

Lemma parse_args_opts_app (atoi : string -> Z) (version argv0 : string)
    (pre post : list (ascii * string)) :
  forall (m : machine) (err : string),
    all_break pre ->
    exists m1 err1,
      parse_args_opts atoi version argv0 pre m err = Parsed m1 "" err1
      /\ parse_args_opts atoi version argv0 (app pre post) m err
         = parse_args_opts atoi version argv0 post m1 err1.
Proof.
  induction pre as [|[c a] pre IH]; intros m err Hpre.
  - exists m, err; split; reflexivity.
  - apply Forall_cons_iff in Hpre; destruct Hpre as [Hc Hpre].
    destruct (parse_args_case_break atoi c a m Hc) as (m1 & e & Hcase).
    cbn [app parse_args_opts]; rewrite Hcase.
    exact (IH m1 (err ++ e) Hpre).
Qed.

(** How [parse_args] ends is decided by the first option that is not one
    of those handled with a [break]: if it is the help option the program
    exits with status 0 and [stdout] holds the usage text and nothing
    else; if it is any other, the program exits with status 1, nothing on
    [stdout], and the two lines about the unrecognised option end
    [stderr]; if there is none and no port argument follows, the program
    exits with status 1 and "No port given"; and only if there is none and
    a port argument follows does [parse_args] return.  In each case
    [stderr] starts with what the options before wrote. *)
Theorem parse_args_exit_status (atoi : string -> Z)
    (version argv0 : string) (rest : list string) (m : machine) :
  (forall pre a post,
     all_break pre ->
     exists m1 err,
       parse_args_opts atoi version argv0 pre m "" = Parsed m1 "" err
       /\ parse_args atoi version argv0 (app pre (("h"%char, a) :: post))
            rest m
          = Exits 0 (show_usage version argv0) err)
  /\ (forall pre c a post,
        all_break pre -> c <> "h"%char -> ~ In c break_options ->
        exists m1 err,
          parse_args_opts atoi version argv0 pre m "" = Parsed m1 "" err
          /\ parse_args atoi version argv0 (app pre ((c, a) :: post)) rest m
             = Exits 1 "" (err ++ "Unrecognized option." ++ nl
                               ++ "Run with '--help'." ++ nl))
  /\ (forall got,
        all_break got -> rest = [] ->
        exists m1 err,
          parse_args_opts atoi version argv0 got m "" = Parsed m1 "" err
          /\ parse_args atoi version argv0 got rest m
             = Exits 1 "" (err ++ "No port given" ++ nl))
  /\ (forall got p rest',
        all_break got -> rest = p :: rest' ->
        exists m1 err,
          parse_args_opts atoi version argv0 got m "" = Parsed m1 "" err
          /\ parse_args atoi version argv0 got rest m
             = Parsed (with_opts m1 (with_port (opts m1) (substring 0 127 p)))
                 (banner version (with_port (opts m1) (substring 0 127 p)))
                 err).
Proof.
  split.
  { intros pre a post Hpre.
    destruct (parse_args_opts_app atoi version argv0 pre
                (("h"%char, a) :: post) m "" Hpre) as (m1 & err & H1 & H2).
    exists m1, err; split; [exact H1|].
    unfold parse_args; rewrite H2; cbn [parse_args_opts].
    rewrite parse_args_case_other
      by (cbn; intros H; repeat (destruct H as [H|H]; [discriminate H|]);
          exact H).
    reflexivity. }
  split.
  { intros pre c a post Hpre Hh Hother.
    destruct (parse_args_opts_app atoi version argv0 pre
                ((c, a) :: post) m "" Hpre) as (m1 & err & H1 & H2).
    exists m1, err; split; [exact H1|].
    unfold parse_args; rewrite H2; cbn [parse_args_opts].
    rewrite (parse_args_case_other atoi c a m1 Hother).
    apply Ascii.eqb_neq in Hh; rewrite Hh; reflexivity. }
  split.
  { intros got Hgot ->.
    destruct (parse_args_opts_app atoi version argv0 got [] m "" Hgot)
      as (m1 & err & H1 & _).
    exists m1, err; split; [exact H1|].
    unfold parse_args; rewrite H1; reflexivity. }
  intros got p rest' Hgot ->.
  destruct (parse_args_opts_app atoi version argv0 got [] m "" Hgot)
    as (m1 & err & H1 & _).
  exists m1, err; split; [exact H1|].
  unfold parse_args; rewrite H1; reflexivity.
Qed.

Lemma parse_args_exit_status_witness :
  parse_args (fun _ => 0) "1.4" "/usr/bin/picocom"
    [("p"%char, "E"); ("h"%char, ""); ("?"%char, "")] [] boot
  = Exits 0 (show_usage "1.4" "/usr/bin/picocom")
      (ignored "parity" "E" "'o', 'e', or 'n'")
  /\ parse_args (fun _ => 0) "1.4" "picocom"
       [("l"%char, ""); ("?"%char, ""); ("h"%char, "")] ["/dev/ttyS0"] boot
     = Exits 1 "" ("Unrecognized option." ++ nl ++ "Run with '--help'." ++ nl)
  /\ parse_args (fun _ => 0) "1.4" "picocom" [("l"%char, "")] [] boot
     = Exits 1 "" ("No port given" ++ nl).
Proof.
  assert (Hp : all_break [("p"%char, "E")]).
  { repeat constructor; cbn; tauto. }
  assert (Hl : all_break [("l"%char, "")]).
  { repeat constructor; cbn; tauto. }
  split.
  { destruct (parse_args_exit_status (fun _ => 0) "1.4" "/usr/bin/picocom"
                [] boot) as (Hhelp & _).
    destruct (Hhelp [("p"%char, "E")] "" [("?"%char, "")] Hp)
      as (m1 & err & Hpre & Hrun).
    cbn [app] in Hrun; rewrite Hrun; f_equal.
    apply (f_equal (fun r => match r with
                             | Parsed _ _ x => x
                             | Exits _ _ x => x
                             end)) in Hpre.
    symmetry; exact Hpre. }
  split.
  { destruct (parse_args_exit_status (fun _ => 0) "1.4" "picocom"
                ["/dev/ttyS0"] boot) as (_ & Hbad & _).
    destruct (Hbad [("l"%char, "")] "?"%char "" [("h"%char, "")] Hl)
      as (m1 & err & Hpre & Hrun).
    - discriminate.
    - cbn; intros H; repeat (destruct H as [H|H]; [discriminate H|]); exact H.
    - cbn [app] in Hrun; rewrite Hrun; f_equal.
      apply (f_equal (fun r => match r with
                               | Parsed _ _ x => x
                               | Exits _ _ x => x
                               end)) in Hpre.
      rewrite <- Hpre; reflexivity. }
  destruct (parse_args_exit_status (fun _ => 0) "1.4" "picocom" [] boot)
    as (_ & _ & Hnone & _).
  destruct (Hnone [("l"%char, "")] Hl eq_refl) as (m1 & err & Hpre & Hrun).
  rewrite Hrun; f_equal.
  apply (f_equal (fun r => match r with
                           | Parsed _ _ x => x
                           | Exits _ _ x => x
                           end)) in Hpre.
  rewrite <- Hpre; reflexivity.
Defined.

(** ** The timestamp *)

Lemma of_uint_acc_lower (l : Decimal.uint) (acc : positive) :
  Z.pos acc * 10 ^ Z.of_nat (Decimal.nb_digits l)
  <= Z.pos (Pos.of_uint_acc l acc).
Proof.
  revert acc; induction l as [|l IH|l IH|l IH|l IH|l IH|l IH|l IH|l IH|l IH|l IH];
    intros acc; [cbn; lia|..].
  all: cbn [Decimal.nb_digits Pos.of_uint_acc];
    rewrite Nat2Z.inj_succ, Z.pow_succ_r by lia;
    pose proof (Z.pow_pos_nonneg 10 (Z.of_nat (Decimal.nb_digits l))
                  ltac:(lia) ltac:(lia));
    etransitivity; [|apply IH]; nia.
Qed.

Lemma of_uint_lower (d : Decimal.uint) :
  d <> Decimal.Nil -> (forall l, d <> Decimal.D0 l) ->
  10 ^ Z.of_nat (Decimal.nb_digits d - 1) <= Z.of_N (N.of_uint d).
Proof.
  intros Hnil H0; unfold N.of_uint.
  destruct d as [|l|l|l|l|l|l|l|l|l|l];
    [contradiction|exfalso; exact (H0 l eq_refl)|..].
  all: cbn [Pos.of_uint Decimal.nb_digits Z.of_N];
    replace (S (Decimal.nb_digits l) - 1)%nat with (Decimal.nb_digits l) by lia;
    pose proof (Z.pow_pos_nonneg 10 (Z.of_nat (Decimal.nb_digits l))
                  ltac:(lia) ltac:(lia));
    etransitivity; [|apply of_uint_acc_lower]; nia.
Qed.

Lemma to_uint_digits (n : N) (k : nat) :
  (1 <= k)%nat -> Z.of_N n < 10 ^ Z.of_nat k ->
  (1 <= Decimal.nb_digits (N.to_uint n) <= k)%nat.
Proof.
  intros Hk Hn.
  pose proof (DecimalN.Unsigned.of_to n) as Hof.
  pose proof (DecimalN.Unsigned.to_of (N.to_uint n)) as Hto.
  rewrite Hof in Hto.
  destruct (Decimal.nzhead (N.to_uint n)) eqn:Hz.
  1: { apply DecimalFacts.unorm_0 in Hz; rewrite <- Hto in Hz; rewrite Hz.
       cbn; lia. }
  1: { exfalso; exact (DecimalFacts.nzhead_nonzero _ _ Hz). }
  all: assert (Hnz : Decimal.nzhead (N.to_uint n) <> Decimal.Nil)
         by (rewrite Hz; discriminate);
    apply DecimalFacts.unorm_nzhead in Hnz; rewrite <- Hto, Hz in Hnz;
    pose proof (of_uint_lower (N.to_uint n)) as Hlow;
    rewrite Hof, Hnz in Hlow;
    specialize (Hlow ltac:(discriminate) ltac:(discriminate));
    rewrite Hnz; cbn [Decimal.nb_digits] in Hlow |- *;
    split; [lia|];
    destruct (Nat.le_gt_cases (S (Decimal.nb_digits u)) k) as [Hle|Hgt];
      [exact Hle|exfalso];
    assert (10 ^ Z.of_nat k <= 10 ^ Z.of_nat (S (Decimal.nb_digits u) - 1))
      by (apply Z.pow_le_mono_r; lia);
    lia.
Qed.

Lemma string_of_uint_length (d : Decimal.uint) :
  String.length (DecimalString.NilEmpty.string_of_uint d) = Decimal.nb_digits d.
Proof.
  induction d; cbn; congruence.
Qed.

Lemma digits_length (z : Z) (k : nat) :
  (1 <= k)%nat -> Z.abs z < 10 ^ Z.of_nat k ->
  (1 <= String.length (digits z) <= k)%nat.
Proof.
  intros Hk Hz; unfold digits, DecimalString.NilZero.string_of_uint.
  pose proof (to_uint_digits (Z.abs_N z) k Hk) as H.
  rewrite N2Z.inj_abs_N in H; specialize (H Hz).
  destruct (N.to_uint (Z.abs_N z)) eqn:Hd; [cbn in H; lia|..].
  all: rewrite string_of_uint_length; exact H.
Qed.

Lemma zeros_length (n : nat) : String.length (zeros n) = n.
Proof.
  induction n as [|n IH]; cbn; congruence.
Qed.

Lemma fmt_d_length (w k : nat) (z : Z) :
  (1 <= k)%nat -> 0 <= z < 10 ^ Z.of_nat k ->
  (Nat.max 1 w <= String.length (fmt_d w z) <= Nat.max w k)%nat.
Proof.
  intros Hk Hz; unfold fmt_d.
  destruct (Z.ltb_spec z 0) as [Hneg|_]; [lia|].
  rewrite length_append, zeros_length.
  pose proof (digits_length z k Hk ltac:(lia)); lia.
Qed.

Ltac div_facts a b :=
  pose proof (Z_div_mod_eq_full a b);
  pose proof (Z.mod_pos_bound a b ltac:(lia)).

Lemma stamp_fields (tv tv_r : timeval) :
  normal tv -> normal tv_r ->
  exists mi s ms,
    stamp tv tv_r
      = cyan (fmt_d 0 mi ++ ":" ++ fmt_d 2 s ++ "." ++ fmt_d 3 ms)
    /\ 0 <= mi < 100000000 /\ 0 <= s < 60 /\ 0 <= ms < 1000
    /\ (0 <= usecs tv - usecs tv_r ->
        tv_sec tv - tv_sec tv_r < 4294967296 ->
        ((mi * 60 + s) * 1000 + ms) * 1000 - 1000
          < usecs tv - usecs tv_r
          < ((mi * 60 + s) * 1000 + ms) * 1000 + 1000).
Proof.
  unfold normal, usecs; destruct tv as [sec u], tv_r as [sec_r u_r];
    cbn [tv_sec tv_usec]; intros Hu Hr.
  unfold stamp; cbn [tv_sec tv_usec]; cbv zeta.
  rewrite (Z.quot_div_nonneg u 1000), (Z.quot_div_nonneg u_r 1000) by lia.
  div_facts u 1000; div_facts u_r 1000.
  pose proof (Z.mod_pos_bound (sec - sec_r) 4294967296 ltac:(lia)) as Hd.
  destruct (Z.ltb_spec (u / 1000) (u_r / 1000)) as [Hb|Hb].
  - pose proof (Z.mod_pos_bound (wrap_uint (sec - sec_r) - 1) 4294967296
                  ltac:(lia)) as Hd1.
    exists (wrap_uint (wrap_uint (sec - sec_r) - 1) / 60),
           (wrap_uint (wrap_uint (sec - sec_r) - 1) mod 60),
           (1000 + u / 1000 - u_r / 1000).
    unfold wrap_uint in *.
    div_facts (((sec - sec_r) mod 4294967296 - 1) mod 4294967296) 60.
    rewrite (Z.mod_small (1000 + u / 1000 - u_r / 1000)) by lia.
    rewrite !wrap_int_small by (unfold INT_MIN, INT_MAX; lia).
    split; [unfold cyan; rewrite !append_assoc; reflexivity|].
    split; [lia|]; split; [lia|]; split; [lia|].
    intros He Hs.
    rewrite (Z.mod_small (sec - sec_r)) in * by lia.
    rewrite (Z.mod_small (sec - sec_r - 1)) in * by lia.
    lia.
  - assert (Hq : 0 <= Z.quot (u - u_r) 1000 < 1000
                 /\ -1000 < (u - u_r) - Z.quot (u - u_r) 1000 * 1000 < 1000).
    { destruct (Z_le_gt_dec 0 (u - u_r)) as [Hp|Hn].
      - rewrite (Z.quot_div_nonneg (u - u_r) 1000) by lia.
        div_facts (u - u_r) 1000; lia.
      - replace (u - u_r) with (- (u_r - u)) by lia.
        rewrite Z.quot_opp_l, (Z.quot_small (u_r - u) 1000) by lia; lia. }
    exists (wrap_uint (sec - sec_r) / 60), (wrap_uint (sec - sec_r) mod 60),
           (Z.quot (u - u_r) 1000).
    unfold wrap_uint in *.
    div_facts ((sec - sec_r) mod 4294967296) 60.
    rewrite (Z.mod_small (Z.quot (u - u_r) 1000)) by lia.
    rewrite !wrap_int_small by (unfold INT_MIN, INT_MAX; lia).
    split; [unfold cyan; rewrite !append_assoc; reflexivity|].
    split; [lia|]; split; [lia|]; split; [lia|].
    intros He Hs.
    rewrite (Z.mod_small (sec - sec_r)) in * by lia.
    lia.
Qed.

(** With both clock readings as [gettimeofday] gives them (microseconds
    below a million), the text [sprintf] writes into the 32-byte buffer [s]
    has 18 to 25 bytes, whatever the two readings are: the colour code,
    minutes of at most 8 digits, two digits of seconds below 60, three
    digits of milliseconds below 1000, a space and the colour reset.  When
    the reading is not before the reference and less than 2^32 seconds
    after it, the time shown is within a millisecond of the time elapsed. *)
Theorem stamp_fits_its_buffer (tv tv_r : timeval) :
  normal tv -> normal tv_r ->
  (18 <= String.length (stamp tv tv_r) <= 25)%nat
  /\ exists mi s ms,
       stamp tv tv_r
         = cyan (fmt_d 0 mi ++ ":" ++ fmt_d 2 s ++ "." ++ fmt_d 3 ms)
       /\ 0 <= mi < 100000000 /\ 0 <= s < 60 /\ 0 <= ms < 1000
       /\ String.length (fmt_d 2 s) = 2%nat
       /\ String.length (fmt_d 3 ms) = 3%nat
       /\ (0 <= usecs tv - usecs tv_r ->
           tv_sec tv - tv_sec tv_r < 4294967296 ->
           ((mi * 60 + s) * 1000 + ms) * 1000 - 1000
             < usecs tv - usecs tv_r
             < ((mi * 60 + s) * 1000 + ms) * 1000 + 1000).
Proof.
  intros Hn Hr.
  destruct (stamp_fields tv tv_r Hn Hr)
    as (mi & s & ms & Hst & Hmi & Hs & Hms & Hacc).
  pose proof (fmt_d_length 0 8 mi ltac:(lia) ltac:(cbn; lia)) as L1.
  pose proof (fmt_d_length 2 2 s ltac:(lia) ltac:(cbn; lia)) as L2.
  pose proof (fmt_d_length 3 3 ms ltac:(lia) ltac:(cbn; lia)) as L3.
  split.
  - rewrite Hst; unfold cyan.
    rewrite !length_append; cbn [String.length]; lia.
  - exists mi, s, ms.
    split; [exact Hst|].
    split; [exact Hmi|]; split; [exact Hs|]; split; [exact Hms|].
    split; [lia|]; split; [lia|exact Hacc].
Qed.

Lemma stamp_fits_its_buffer_witness :
  stamp (at_secs 70 250) (at_secs 5 750) = cyan "1:04.500"
  /\ (18 <= String.length (stamp (at_secs 70 250) (at_secs 5 750)) <= 25)%nat.
Proof.
  assert (Hn : normal (at_secs 70 250)) by (unfold normal; cbn; lia).
  assert (Hr : normal (at_secs 5 750)) by (unfold normal; cbn; lia).
  destruct (stamp_fits_its_buffer _ _ Hn Hr) as (Hlen & _).
  split; [reflexivity|exact Hlen].
Defined.

(** ** The echo of the command line *)

Lemma substring_whole (s : string) (n : nat) :
  (String.length s <= n)%nat -> substring 0 n s = s.
Proof.
  revert n; induction s as [|c s IH]; intros [|n] H; cbn in *; try lia;
    try reflexivity.
  rewrite IH by lia; reflexivity.
Qed.

Lemma substring_prefix (a b : string) :
  substring 0 (String.length a) (a ++ b) = a.
Proof.
  induction a as [|c a IH]; cbn; [destruct b; reflexivity|now rewrite IH].
Qed.

Lemma fd_printf_write_cases (text : string) :
  snd (fd_printf_write text) = Z.of_nat (String.length text)
  /\ (String.length (fst (fd_printf_write text)) <= 256)%nat
  /\ ((String.length text <= 255)%nat ->
      substring 0 (String.length text) (fst (fd_printf_write text)) = text)
  /\ (forall body c, text = body ++ str1 c -> String.length body = 255%nat ->
      fst (fd_printf_write text) = body ++ str1 NUL)
  /\ ((255 <= String.length text)%nat ->
      String.length (fst (fd_printf_write text)) = 256%nat).
Proof.
  unfold fd_printf_write, vsnprintf; cbn [fst snd Nat.sub].
  change (256 - 1)%nat with 255%nat.
  split; [reflexivity|].
  split.
  { rewrite length_append; pose proof (substring_length_le 255 text).
    cbn [String.length str1]; lia. }
  split.
  { intros Hlen; rewrite (substring_whole text 255 Hlen).
    apply substring_prefix. }
  split.
  { intros body c -> Hbody; rewrite <- Hbody, substring_prefix; reflexivity. }
  intros Hlen.
  rewrite length_append; cbn [String.length str1].
  assert (Hsub : String.length (substring 0 255 text) = 255%nat).
  { clear -Hlen; revert Hlen; generalize 255%nat as n.
    induction text as [|c text IH]; intros [|n] H; cbn in *; try lia.
    rewrite IH by lia; reflexivity. }
  lia.
Qed.

(** The child echoes the command line through [fd_printf], whose buffer
    has 256 bytes.  With a transfer command and a file name of at most 127
    bytes each, the count passed to [writen_ni] is their lengths plus 3;
    up to 255 the bytes echoed are the command line and a line feed; at 256
    a NUL is written in place of the line feed; and when both have 127
    bytes the count is 257, one more than the buffer holds. *)
Theorem child_echo_count (send fname : string) :
  (String.length send <= 127)%nat ->
  (String.length fname <= 127)%nat ->
  exists buf n,
    child_echo [send; fname] = (buf, n)
    /\ n = Z.of_nat (String.length send + String.length fname + 3)
    /\ (String.length buf <= 256)%nat
    /\ (n <= 255 ->
        substring 0 (Z.to_nat n) buf = send ++ " " ++ fname ++ " " ++ nl)
    /\ (n = 256 -> buf = send ++ " " ++ fname ++ " " ++ str1 NUL)
    /\ (String.length send = 127%nat -> String.length fname = 127%nat ->
        n = 257 /\ String.length buf = 256%nat).
Proof.
  intros Hs Hf.
  unfold child_echo.
  rewrite (build_cmd_two send fname) by lia.
  set (text := (send ++ " " ++ fname ++ " ") ++ nl).
  assert (Htext : String.length text
                  = (String.length send + String.length fname + 3)%nat).
  { unfold text; rewrite !length_append; cbn [String.length nl]; lia. }
  destruct (fd_printf_write_cases text) as (Hn & Hbuf & Hle & Heq & Hge).
  exists (fst (fd_printf_write text)), (snd (fd_printf_write text)).
  split; [destruct (fd_printf_write text); reflexivity|].
  rewrite Hn, Htext.
  split; [reflexivity|].
  split; [exact Hbuf|].
  split.
  { intros Hsmall; rewrite Nat2Z.id, <- Htext, Hle by lia.
    unfold text; rewrite !append_assoc; reflexivity. }
  split.
  { intros H256.
    rewrite (Heq (send ++ " " ++ fname ++ " ") LF eq_refl).
    - rewrite !append_assoc; reflexivity.
    - rewrite !length_append; cbn [String.length]; lia. }
  intros H1 H2; split; [lia|].
  apply Hge; lia.
Qed.

Lemma child_echo_count_witness :
  exists buf,
    child_echo [string_of_list_ascii (repeat "a"%char 127);
                string_of_list_ascii (repeat "b"%char 127)] = (buf, 257)
    /\ String.length buf = 256%nat.
Proof.
  assert (Hs : (String.length (string_of_list_ascii (repeat "a"%char 127))
                <= 127)%nat) by (vm_compute; lia).
  assert (Hf : (String.length (string_of_list_ascii (repeat "b"%char 127))
                <= 127)%nat) by (vm_compute; lia).
  destruct (child_echo_count _ _ Hs Hf)
    as (buf & n & Hcall & _ & _ & _ & _ & Hfull).
  destruct (Hfull eq_refl eq_refl) as [Hn Hlen].
  exists buf; split; [rewrite Hcall, Hn; reflexivity|exact Hlen].
Defined.
